(** * Bitcoin tokenomics calculator: the supply/issuance engine

    A shallow embedding of [bitcoin_tokenomics_calculator.py]
    (class [BitcoinTokenomics]) and the properties of its supply
    arithmetic.

    Python's [float] is IEEE 754 binary64.  It is modelled by the
    Standard Library's executable specification of binary floating point
    ([SpecFloat], precision 53, exponent bound 1024), so every [+], [-],
    [*], [/] and comparison below rounds exactly as the interpreter does.
    Python's [int] is modelled by [Z].  Exceptions are explicit outcomes,
    and [while] loops are given fuel. *)

From Stdlib Require Import ZArith Lia Bool List SpecFloat.
From Stdlib Require String DecimalString.
Import ListNotations.
Import String.StringSyntax.
Local Open Scope Z_scope.

(** ** Outcomes of a Python computation *)

Inductive exn : Set :=
| OverflowError
| ZeroDivisionError
| ValueError.

Inductive outcome (A : Type) : Type :=
| Ok (a : A)
| Raise (e : exn)
| OutOfFuel.

Arguments Ok {A} a.
Arguments Raise {A} e.
Arguments OutOfFuel {A}.

Definition bind {A B : Type} (c : outcome A) (k : A -> outcome B) : outcome B :=
  match c with
  | Ok a => k a
  | Raise e => Raise e
  | OutOfFuel => OutOfFuel
  end.

Notation "x <- c ;; k" := (bind c (fun x => k))
  (at level 61, c at next level, right associativity).

(** ** Python numbers *)

Module Py.

Definition prec : Z := 53.
Definition emax : Z := 1024.

Definition float : Set := spec_float.

(** [2 ** epoch] is an [int] for a non-negative exponent and a [float]
    for a negative one, so the engine handles both kinds of number. *)
Inductive num : Set :=
| Int (z : Z)
| Flt (x : float).

Definition add : float -> float -> float := SFadd prec emax.
Definition sub : float -> float -> float := SFsub prec emax.
Definition mul : float -> float -> float := SFmul prec emax.
Definition ltb : float -> float -> bool := SFltb.
Definition leb : float -> float -> bool := SFleb.
Definition eqb : float -> float -> bool := SFeqb.
Definition geb (x y : float) : bool := SFleb y x.

(** The float nearest to [m * 2^e] (ties to even). *)
Definition of_scaled (m e : Z) : float := binary_normalize prec emax m e false.

Definition inf : float := S754_infinity false.
Definition zero : float := S754_zero false.

(** [float(z)] as [PyLong_AsDouble] computes it: round to nearest even,
    [OverflowError] once the exponent exceeds [DBL_MAX_EXP]. *)
Definition float_of_int (z : Z) : outcome float :=
  if emax <? Zdigits2 z then Raise OverflowError
  else match of_scaled z 0 with
       | S754_infinity _ => Raise OverflowError
       | x => Ok x
       end.

Definition to_float (n : num) : outcome float :=
  match n with
  | Int z => float_of_int z
  | Flt x => Ok x
  end.

Definition is_zero (x : float) : bool :=
  match x with
  | S754_zero _ => true
  | _ => false
  end.

(** [x / y] on floats: a zero divisor raises. *)
Definition div (x y : float) : outcome float :=
  if is_zero y then Raise ZeroDivisionError
  else Ok (SFdiv prec emax x y).

(** An integer as an unrounded binary number, for [int / int]. *)
Definition raw_of_int (z : Z) : float :=
  match z with
  | Z0 => S754_zero false
  | Zpos p => S754_finite false p 0
  | Zneg p => S754_finite true p 0
  end.

(** True division [a / b].  On two ints the exact quotient is rounded
    once; otherwise the int operand is converted first. *)
Definition truediv (a b : num) : outcome float :=
  match a, b with
  | Int x, Int y =>
      if y =? 0 then Raise ZeroDivisionError
      else match SFdiv prec emax (raw_of_int x) (raw_of_int y) with
           | S754_infinity _ => Raise OverflowError
           | q => Ok q
           end
  | _, _ =>
      x <- to_float a ;;
      y <- to_float b ;;
      div x y
  end.

(** [n * x] and [x * n] with [n] an int and [x] a float. *)
Definition imul (n : Z) (x : float) : outcome float :=
  y <- float_of_int n ;;
  Ok (mul y x).

Definition fmuli (x : float) (n : Z) : outcome float :=
  y <- float_of_int n ;;
  Ok (mul x y).

(** [2 ** e] for an int [e]. *)
Definition pow2 (e : Z) : num :=
  if 0 <=? e then Int (2 ^ e) else Flt (of_scaled 1 e).

(** [0.5 ** n] for an int [n]: a power of two, exact when representable;
    the result overflows only for a negative [n]. *)
Definition pow_half (n : Z) : outcome float :=
  match of_scaled 1 (- n) with
  | S754_infinity _ => Raise OverflowError
  | x => Ok x
  end.

(** [int(x)]: truncation toward zero. *)
Definition trunc (x : float) : outcome Z :=
  match x with
  | S754_zero _ => Ok 0
  | S754_infinity _ => Raise OverflowError
  | S754_nan => Raise ValueError
  | S754_finite s m e =>
      let a := match e with
               | Z0 => Zpos m
               | Zpos k => Z.shiftl (Zpos m) e
               | Zneg k => Z.shiftr (Zpos m) (Zpos k)
               end in
      Ok (if s then - a else a)
  end.

(** Float literals of the source. *)
Definition lit (m e : Z) : float := of_scaled m e.

End Py.

(** ** The engine *)

(** Protocol constants (class attributes of [BitcoinTokenomics]). *)
Definition INITIAL_REWARD : Py.float := Eval vm_compute in Py.lit 50 0.
Definition HALVING_INTERVAL : Z := 210000.
Definition TARGET_BLOCK_TIME : Z := 10 * 60.
Definition SATOSHIS_PER_BTC : Z := 100000000.

Definition f_one : Py.float := Eval vm_compute in Py.lit 1 0.
Definition f_half : Py.float := Eval vm_compute in Py.lit 1 (-1).
(** [365.25 = 1461 / 4]. *)
Definition f_365_25 : Py.float := Eval vm_compute in Py.lit 1461 (-2).

(** The instance state: [self.total_halvings]. *)
Record BitcoinTokenomics : Set := { total_halvings : Z }.

(** [while reward_satoshis >= 1: reward_satoshis /= 2; halvings += 1] *)
Fixpoint halvings_loop (fuel : nat) (reward_satoshis : Py.float) (halvings : Z)
  : outcome Z :=
  if Py.geb reward_satoshis f_one then
    match fuel with
    | O => OutOfFuel
    | S fuel' =>
        r <- Py.truediv (Py.Flt reward_satoshis) (Py.Int 2) ;;
        halvings_loop fuel' r (halvings + 1)
    end
  else Ok halvings.

Definition _calculate_total_halvings (fuel : nat) : outcome Z :=
  reward_satoshis <- Py.fmuli INITIAL_REWARD SATOSHIS_PER_BTC ;;
  halvings_loop fuel reward_satoshis 0.

(** [__init__] *)
Definition init (fuel : nat) : outcome BitcoinTokenomics :=
  h <- _calculate_total_halvings fuel ;;
  Ok {| total_halvings := h |}.

(** [INITIAL_REWARD * HALVING_INTERVAL * (1 - 0.5 ** total_halvings) / (1 - 0.5)] *)
Definition total_supply (self : BitcoinTokenomics) : outcome Py.float :=
  a <- Py.fmuli INITIAL_REWARD HALVING_INTERVAL ;;
  p <- Py.pow_half (total_halvings self) ;;
  b <- Ok (Py.mul a (Py.sub f_one p)) ;;
  Py.div b (Py.sub f_one f_half).

(** [INITIAL_REWARD / (2 ** epoch)] *)
Definition reward_at (epoch : Z) : outcome Py.float :=
  Py.truediv (Py.Flt INITIAL_REWARD) (Py.pow2 epoch).

(** The loop of [supply_at_block]; the state is
    [(supply, blocks_processed, epoch)]. *)
Fixpoint supply_loop (fuel : nat) (block_height : Z)
    (supply : Py.float) (blocks_processed epoch : Z) : outcome Py.float :=
  if blocks_processed <? block_height then
    match fuel with
    | O => OutOfFuel
    | S fuel' =>
        let blocks_in_epoch := Z.min HALVING_INTERVAL (block_height - blocks_processed) in
        reward <- reward_at epoch ;;
        inc <- Py.imul blocks_in_epoch reward ;;
        supply_loop fuel' block_height (Py.add supply inc)
          (blocks_processed + blocks_in_epoch) (epoch + 1)
    end
  else Ok supply.

Definition supply_at_block_fuel (fuel : nat) (block_height : Z) : outcome Py.float :=
  supply_loop fuel block_height Py.zero 0 0.

(** No walk survives epoch 1024 (the conversion of [2 ** 1024] to a float
    raises), so 1025 rounds of the loop settle every call. *)
Definition walk_fuel : nat := 1025.

Definition supply_at_block (block_height : Z) : outcome Py.float :=
  supply_at_block_fuel walk_fuel block_height.

(** The loop of [blocks_to_percentage]; the state is
    [(blocks, cumulative_supply, epoch)].  The partial-epoch branch ends
    the loop ([break]). *)
Fixpoint blocks_loop (fuel : nat) (target_supply : Py.float)
    (blocks : Z) (cumulative_supply : Py.float) (epoch : Z)
  : outcome (Z * Py.float * Z) :=
  if Py.ltb cumulative_supply target_supply then
    match fuel with
    | O => OutOfFuel
    | S fuel' =>
        reward <- reward_at epoch ;;
        let remaining_supply := Py.sub target_supply cumulative_supply in
        full <- Py.imul HALVING_INTERVAL reward ;;
        if Py.geb remaining_supply full then
          inc <- Py.imul HALVING_INTERVAL reward ;;
          blocks_loop fuel' target_supply (blocks + HALVING_INTERVAL)
            (Py.add cumulative_supply inc) (epoch + 1)
        else
          q <- Py.div remaining_supply reward ;;
          blocks_needed <- Py.trunc q ;;
          inc <- Py.imul blocks_needed reward ;;
          Ok (blocks + blocks_needed, Py.add cumulative_supply inc, epoch)
    end
  else Ok (blocks, cumulative_supply, epoch).

(** [target_supply = self.total_supply() * (percentage / 100)] *)
Definition target_supply_of (self : BitcoinTokenomics) (percentage : Py.num)
  : outcome Py.float :=
  ts <- total_supply self ;;
  frac <- Py.truediv percentage (Py.Int 100) ;;
  Ok (Py.mul ts frac).

(** [blocks_to_percentage], with the number of loop rounds allowed and the
    final epoch counter exposed. *)
Definition blocks_to_percentage_walk (fuel : nat) (self : BitcoinTokenomics)
    (percentage : Py.num) : outcome (Z * Py.float * Z) :=
  target_supply <- target_supply_of self percentage ;;
  st <- blocks_loop fuel target_supply 0 Py.zero 0 ;;
  let '(blocks, cumulative_supply, epoch) := st in
  ts <- total_supply self ;;
  r <- Py.div cumulative_supply ts ;;
  exact_percentage <- Py.fmuli r 100 ;;
  Ok (blocks, exact_percentage, epoch).

Definition blocks_to_percentage (self : BitcoinTokenomics) (percentage : Py.num)
  : outcome (Z * Py.float) :=
  w <- blocks_to_percentage_walk walk_fuel self percentage ;;
  Ok (fst w).

(** [(365.25 * 24 * 60 / 10)] *)
Definition blocks_per_year : outcome Py.float :=
  a <- Py.fmuli f_365_25 24 ;;
  b <- Py.fmuli a 60 ;;
  Py.truediv (Py.Flt b) (Py.Int 10).

Definition inflation_rate_at_epoch (epoch : Z) (use_end_supply : bool)
  : outcome Py.float :=
  let block_height :=
    if use_end_supply then (epoch + 1) * HALVING_INTERVAL
    else epoch * HALVING_INTERVAL in
  existing_supply <- supply_at_block block_height ;;
  reward <- reward_at epoch ;;
  k <- blocks_per_year ;;
  let annual_issuance := Py.mul k reward in
  if Py.eqb existing_supply Py.zero then Ok Py.inf
  else
    r <- Py.div annual_issuance existing_supply ;;
    Py.fmuli r 100.

(** The instance the constructor builds (see [init_btc]). *)
Definition btc : BitcoinTokenomics := {| total_halvings := 33 |}.

(** ** The explicit summation of the specification

    [sum over i in 0..n-1 of halving_interval * initial_reward / 2^i],
    accumulated from [0] upward in floating point, as
    [test_geometric_series_formula] does. *)
Fixpoint explicit_sum_from (n : nat) (i : Z) (acc : Py.float) : outcome Py.float :=
  match n with
  | O => Ok acc
  | S n' =>
      a <- Py.imul HALVING_INTERVAL INITIAL_REWARD ;;
      term <- Py.truediv (Py.Flt a) (Py.pow2 i) ;;
      explicit_sum_from n' (i + 1) (Py.add acc term)
  end.

Definition explicit_summation (self : BitcoinTokenomics) : outcome Py.float :=
  explicit_sum_from (Z.to_nat (total_halvings self)) 0 Py.zero.

(** [abs(a - b) < delta] *)
Definition within (a b delta : Py.float) : bool :=
  Py.ltb (SFabs (Py.sub a b)) delta.

(** The literal [0.001] and the integer [21000000] as floats. *)
Definition f_0_001 : Py.float := Eval vm_compute in SFdiv Py.prec Py.emax (Py.lit 1 0) (Py.lit 1000 0).
Definition f_21e6 : Py.float := Eval vm_compute in Py.lit 21000000 0.
Definition f_100 : Py.float := Eval vm_compute in Py.lit 100 0.
(** [99.999 = 99999 / 1000], rounded once. *)
Definition f_99_999 : Py.float := Eval vm_compute in SFdiv Py.prec Py.emax (Py.lit 99999 0) (Py.lit 1000 0).

(** [(supply / self.total_supply()) * 100] *)
Definition percent_of_total (self : BitcoinTokenomics) (supply : Py.float)
  : outcome Py.float :=
  ts <- total_supply self ;;
  r <- Py.div supply ts ;;
  Py.fmuli r 100.

(** ** Rounding, read on fractions

    The library rounds a mantissa by shifting it right while it tracks a
    round bit and a sticky bit.  On a fraction [n / d] the same record
    says where [n / d] lies between [n / d] rounded down and its
    successor. *)

Definition fexp64 (x : Z) : Z := fexp Py.prec Py.emax x.

Definition loc_frac (r d : Z) : location :=
  if r =? 0 then loc_Exact else loc_Inexact (2 * r ?= d).

Definition frac_record (n d : Z) : shr_record :=
  shr_record_of_loc (n / d) (loc_frac (n mod d) d).

(** The integer nearest to [n / d], ties to even. *)
Definition rne (n d : Z) : Z :=
  round_nearest_even (n / d) (loc_frac (n mod d) d).

(** Every binary64 value is a multiple of [2^-1074]; [scaled x] is the
    multiplier. *)
Definition scaled (x : Py.float) : Z :=
  match x with
  | S754_finite s m e => (if s then -1 else 1) * (Zpos m * 2 ^ (e + 1074))
  | _ => 0
  end.

(** Rounding of the value [v * 2^-1074]. *)
Definition rnd (v : Z) : Py.float :=
  binary_round_aux Py.prec Py.emax false v (-1074) loc_Exact.

(** The grid step (as a power of two of [2^-1074]) at the magnitude of [v]
    and the value [rnd] picks on that grid. *)
Definition grid (v : Z) : Z := Z.max (Zdigits2 v - 53) 0.
Definition rg (v : Z) : Z := rne v (2 ^ grid v) * 2 ^ grid v.

(** Non-negative binary64 numbers below [2^926]: zero and the valid
    positive finite floats in that range. *)
Definition scaled_bound : Z := 2 ^ 2000.

Definition good (x : Py.float) : Prop :=
  match x with
  | S754_zero s => s = false
  | S754_finite s m e =>
      s = false /\ bounded Py.prec Py.emax m e = true /\ scaled x <= scaled_bound
  | _ => False
  end.

(** What [binary_round_aux] does once the mantissa [m2] has been rounded
    at exponent [e1]: renormalise (a carry may have added a digit) and
    check the exponent range. *)
Definition finish (s : bool) (m2 e1 : Z) : Py.float :=
  let k2 := Z.max (fexp64 (Zdigits2 m2 + e1) - e1) 0 in
  match m2 / 2 ^ k2 with
  | Z0 => S754_zero s
  | Zpos m =>
      if e1 + k2 <=? Py.emax - Py.prec then S754_finite s m (e1 + k2)
      else S754_infinity s
  | Zneg _ => S754_nan
  end.

(** Integers up to [2^926] convert to floats below the bound of [good]. *)
Definition two_926 : Z := 2 ^ 926.

(** ** The epoch walk, epoch by epoch *)

(** The supply after [n] whole epochs, from supply [s] at epoch [e]: the
    full-epoch rounds of the loops of [supply_at_block] and
    [blocks_to_percentage]. *)
Fixpoint walk (n : nat) (s : Py.float) (e : Z) : outcome Py.float :=
  match n with
  | O => Ok s
  | S n' =>
      reward <- reward_at e ;;
      inc <- Py.imul HALVING_INTERVAL reward ;;
      walk n' (Py.add s inc) (e + 1)
  end.

Definition epoch_supply (n : nat) : outcome Py.float := walk n Py.zero 0.

(** A decidable form of [good]. *)
Definition good_b (x : Py.float) : bool :=
  match x with
  | S754_zero s => negb s
  | S754_finite s m e =>
      negb s && bounded Py.prec Py.emax m e && (scaled x <=? scaled_bound)
  | _ => false
  end.

(** The facts about one epoch that are settled by evaluation: the reward
    is a valid positive float, a full epoch of it is computed exactly, and
    the supply stays in range.  The result is the supply at the next
    epoch. *)
Definition epoch_ok (s : Py.float) (e : Z) : option Py.float :=
  match reward_at e with
  | Ok rew =>
      match Py.imul HALVING_INTERVAL rew with
      | Ok full =>
          if good_b s && good_b rew && (0 <? scaled rew)
             && (scaled full =? HALVING_INTERVAL * scaled rew)
             && (scaled s + HALVING_INTERVAL * scaled rew <=? scaled_bound)
          then Some (Py.add s full) else None
      | _ => None
      end
  | _ => None
  end.

Fixpoint epochs_ok (n : nat) (s : Py.float) (e : Z) : bool :=
  match n with
  | O => true
  | S n' =>
      match epoch_ok s e with
      | Some s' => epochs_ok n' s' (e + 1)
      | None => false
      end
  end.

(** ** Statements about the supply *)

(** The last height whose walk stays below epoch 1024. *)
Definition max_height : Z := 1024 * HALVING_INTERVAL.

(** [supply_at_block(h)] returns a supply: it neither raises nor loops. *)
Definition supply_returns_at (h : Z) : Prop :=
  exists s, supply_at_block h = Ok s.

(** [supply_at_block(h1) <= supply_at_block(h2)], both calls returning. *)
Definition supply_monotone_at (h1 h2 : Z) : Prop :=
  exists s1 s2,
    supply_at_block h1 = Ok s1 /\ supply_at_block h2 = Ok s2
    /\ Py.leb s1 s2 = true.

(** [supply_at_block(h) <= total_supply()], both calls returning. *)
Definition supply_capped_at (self : BitcoinTokenomics) (h : Z) : Prop :=
  exists s t,
    supply_at_block h = Ok s /\ total_supply self = Ok t /\ Py.leb s t = true.

(** [total_supply() <= supply_at_block(h) <= 21000000.0], strictly above
    [total_supply()] past the last counted epoch, and exactly
    [21000000.0] from epoch 53 on. *)
Definition supply_saturated_at (self : BitcoinTokenomics) (h : Z) : Prop :=
  exists s t,
    supply_at_block h = Ok s /\ total_supply self = Ok t
    /\ Py.leb t s = true /\ Py.leb s f_21e6 = true
    /\ (total_halvings self * HALVING_INTERVAL < h -> Py.ltb t s = true)
    /\ (53 * HALVING_INTERVAL <= h -> s = f_21e6).

(** ** Statements about [inflation_rate_at_epoch] *)

(** The part of [inflation_rate_at_epoch] after the supply lookup. *)
Definition rate_of_supply (existing_supply : Py.float) (epoch : Z)
  : outcome Py.float :=
  reward <- reward_at epoch ;;
  k <- blocks_per_year ;;
  let annual_issuance := Py.mul k reward in
  if Py.eqb existing_supply Py.zero then Ok Py.inf
  else
    r <- Py.div annual_issuance existing_supply ;;
    Py.fmuli r 100.

Definition denominator_height (epoch : Z) (use_end_supply : bool) : Z :=
  if use_end_supply then (epoch + 1) * HALVING_INTERVAL
  else epoch * HALVING_INTERVAL.

Definition finite_pos (x : Py.float) : bool :=
  match x with
  | S754_finite false _ _ => true
  | _ => false
  end.

(** [inflation_rate_at_epoch(e + 1) < inflation_rate_at_epoch(e)], both
    calls returning (start-of-epoch denominator). *)
Definition inflation_decreasing_at (e : Z) : Prop :=
  exists r1 r2,
    inflation_rate_at_epoch e false = Ok r1
    /\ inflation_rate_at_epoch (e + 1) false = Ok r2
    /\ Py.ltb r2 r1 = true.

(** The call returns; the result is [inf] when the existing supply is zero,
    which is the case of epoch 0 with the start-of-epoch denominator, and a
    positive finite float in every other case. *)
Definition inflation_defined_at (e : Z) (use_end_supply : bool) : Prop :=
  exists s r,
    supply_at_block (denominator_height e use_end_supply) = Ok s
    /\ inflation_rate_at_epoch e use_end_supply = Ok r
    /\ (if (e =? 0) && negb use_end_supply
        then Py.eqb s Py.zero = true /\ r = Py.inf
        else Py.eqb s Py.zero = false /\ finite_pos r = true).

(** A check run at every epoch of the walk. *)
Fixpoint epochs_all (check : Py.float -> Z -> bool) (n : nat)
    (s : Py.float) (e : Z) : bool :=
  match n with
  | O => true
  | S n' =>
      check s e
      && match walk 1 s e with
         | Ok s' => epochs_all check n' s' (e + 1)
         | _ => false
         end
  end.

(** At epoch [e] with supply [s]: the rate of the next epoch is below the
    rate of this one. *)
Definition decreasing_check (s : Py.float) (e : Z) : bool :=
  match rate_of_supply s e, walk 1 s e with
  | Ok r1, Ok s' =>
      match rate_of_supply s' (e + 1) with
      | Ok r2 => Py.ltb r2 r1
      | _ => false
      end
  | _, _ => false
  end.

(** At epoch [e] with supply [s]: the start-of-epoch rate is [inf] with a
    zero supply at epoch 0 and positive finite with a nonzero supply
    later; the end-of-epoch rate is positive finite with a nonzero
    supply. *)
Definition defined_check (s : Py.float) (e : Z) : bool :=
  match rate_of_supply s e, walk 1 s e with
  | Ok r_start, Ok s' =>
      match rate_of_supply s' e with
      | Ok r_end =>
          (if e =? 0
           then Py.eqb s Py.zero
                && match r_start with S754_infinity false => true | _ => false end
           else negb (Py.eqb s Py.zero) && finite_pos r_start)
          && negb (Py.eqb s' Py.zero) && finite_pos r_end
      | _ => false
      end
  | _, _ => false
  end.

(** ** Statements about [blocks_to_percentage] *)

(** The call fails before any round of the loop runs. *)
Definition rejected_before_loop (self : BitcoinTokenomics) (p : Py.num) : Prop :=
  exists e, blocks_to_percentage_walk 0 self p = Raise e.

Definition f_minus_5 : Py.float := Eval vm_compute in Py.lit (-5) 0.

(** Negative numbers, negative zero and not-a-number: what a negative
    operand turns a product or quotient with a positive float into. *)
Definition neg_class (x : Py.float) : bool :=
  match x with
  | S754_zero true | S754_infinity true | S754_finite true _ _ | S754_nan => true
  | _ => false
  end.

(** A percentage in [[0, 100]]: an int, or a binary64 float. *)
Definition in_range (p : Py.num) : Prop :=
  match p with
  | Py.Int z => 0 <= z <= 100
  | Py.Flt x =>
      valid_binary Py.prec Py.emax x = true
      /\ Py.leb Py.zero x = true /\ Py.leb x f_100 = true
  end.

(** The exact percentage returned is the percentage of the supply that
    [supply_at_block] computes at the returned height. *)
Definition percentage_consistent_at (self : BitcoinTokenomics) (p : Py.num) : Prop :=
  exists h pct s,
    blocks_to_percentage self p = Ok (h, pct)
    /\ supply_at_block h = Ok s
    /\ percent_of_total self s = Ok pct.

(** [total_supply()] of the reference instance. *)
Definition f_total : Py.float := S754_finite false 5637144575343750 (-28).

(** A negative percentage: a negative float ([-inf] included), or a
    negative int down to [-2^40]. *)
Definition negative_arg (p : Py.num) : Prop :=
  match p with
  | Py.Int z => - 2 ^ 40 <= z < 0
  | Py.Flt x => Py.ltb x Py.zero = true
  end.

(** ** Built-ins of the interpreter used by the reports *)

(** [round(x, ndigits)] on a float: the decimal digits of [x] are rounded
    at [ndigits] places after the point (ties to the even digit, on the
    exact binary value), and the decimal numeral obtained is converted
    back to the nearest float. *)
Definition round_ndigits (x : Py.float) (ndigits : Z) : outcome Py.float :=
  match x with
  | S754_finite s m e =>
      if 323 <? ndigits then Ok x
      else if ndigits <? -308 then Ok (S754_zero s)
      else
        let num := Zpos m * 2 ^ Z.max e 0 * 10 ^ Z.max ndigits 0 in
        let den := 2 ^ Z.max (- e) 0 * 10 ^ Z.max (- ndigits) 0 in
        match rne num den * 10 ^ Z.max (- ndigits) 0 with
        | Zpos q =>
            match SFdiv Py.prec Py.emax (S754_finite s q 0)
                    (Py.raw_of_int (10 ^ Z.max ndigits 0)) with
            | S754_infinity _ => Raise OverflowError
            | r => Ok r
            end
        | _ => Ok (S754_zero s)
        end
  | _ => Ok x
  end.

(** A number in decimal, as [%d] prints it, and on two digits, as [%m] and
    [%d] of [strftime] print a month and a day. *)
Definition decimal (z : Z) : String.string :=
  DecimalString.NilZero.string_of_int (Z.to_int z).

Definition two_digits (z : Z) : String.string :=
  if z <? 10 then String.append "0" (decimal z) else decimal z.

(** ** Dates, as the [datetime] module computes them *)

Definition _DI400Y : Z := 146097.
Definition _DI100Y : Z := 36524.
Definition _DI4Y : Z := 1461.
Definition _MAXORDINAL : Z := 3652059.

Definition _DAYS_IN_MONTH (month : Z) : Z :=
  match month with
  | 1 => 31 | 2 => 28 | 3 => 31 | 4 => 30 | 5 => 31 | 6 => 30
  | 7 => 31 | 8 => 31 | 9 => 30 | 10 => 31 | 11 => 30 | 12 => 31
  | _ => -1
  end.

Definition _DAYS_BEFORE_MONTH (month : Z) : Z :=
  match month with
  | 1 => 0 | 2 => 31 | 3 => 59 | 4 => 90 | 5 => 120 | 6 => 151
  | 7 => 181 | 8 => 212 | 9 => 243 | 10 => 273 | 11 => 304 | 12 => 334
  | _ => -1
  end.

Definition _is_leap (year : Z) : bool :=
  (year mod 4 =? 0) && (negb (year mod 100 =? 0) || (year mod 400 =? 0)).

Definition _days_before_year (year : Z) : Z :=
  let y := year - 1 in
  y * 365 + y / 4 - y / 100 + y / 400.

Definition _days_in_month (year month : Z) : Z :=
  if (month =? 2) && _is_leap year then 29 else _DAYS_IN_MONTH month.

Definition _days_before_month (year month : Z) : Z :=
  _DAYS_BEFORE_MONTH month + (if (2 <? month) && _is_leap year then 1 else 0).

(** Year, month, day to ordinal; 1 January of year 1 is day 1. *)
Definition _ymd2ord (year month day : Z) : Z :=
  _days_before_year year + _days_before_month year month + day.

(** Ordinal to (year, month, day). *)
Definition _ord2ymd (n : Z) : Z * Z * Z :=
  let n := n - 1 in
  let n400 := n / _DI400Y in
  let n := n mod _DI400Y in
  let year := n400 * 400 + 1 in
  let n100 := n / _DI100Y in
  let n := n mod _DI100Y in
  let n4 := n / _DI4Y in
  let n := n mod _DI4Y in
  let n1 := n / 365 in
  let n := n mod 365 in
  let year := year + (n100 * 100 + n4 * 4 + n1) in
  if (n1 =? 4) || (n100 =? 4) then (year - 1, 12, 31)
  else
    let leapyear := (n1 =? 3) && (negb (n4 =? 24) || (n100 =? 3)) in
    let month := Z.shiftr (n + 50) 5 in
    let preceding :=
      _DAYS_BEFORE_MONTH month + (if (2 <? month) && leapyear then 1 else 0) in
    if n <? preceding then
      let month := month - 1 in
      let preceding :=
        preceding
        - (_DAYS_IN_MONTH month + (if (month =? 2) && leapyear then 1 else 0)) in
      (year, month, n - preceding + 1)
    else (year, month, n - preceding + 1).

(** A [timedelta] and a [datetime], to the second. *)
Record timedelta : Set := { td_days : Z; td_seconds : Z }.

Record datetime : Set :=
  { dt_year : Z; dt_month : Z; dt_day : Z;
    dt_hour : Z; dt_minute : Z; dt_second : Z }.

(** Normalisation of a [timedelta]: seconds within a day, and at most
    999999999 days either way. *)
Definition new_timedelta (days seconds : Z) : outcome timedelta :=
  let d := days + seconds / 86400 in
  let s := seconds mod 86400 in
  if 999999999 <? Z.abs d then Raise OverflowError
  else Ok {| td_days := d; td_seconds := s |}.

(** [timedelta(seconds=n)] *)
Definition timedelta_of_seconds (n : Z) : outcome timedelta := new_timedelta 0 n.

(** [dt + delta] *)
Definition datetime_add (dt : datetime) (other : timedelta) : outcome datetime :=
  delta <- new_timedelta
             (_ymd2ord (dt_year dt) (dt_month dt) (dt_day dt))
             (dt_hour dt * 3600 + dt_minute dt * 60 + dt_second dt) ;;
  delta <- new_timedelta (td_days delta + td_days other)
             (td_seconds delta + td_seconds other) ;;
  let hour := td_seconds delta / 3600 in
  let rem := td_seconds delta mod 3600 in
  if (0 <? td_days delta) && (td_days delta <=? _MAXORDINAL) then
    let '(y, m, d) := _ord2ymd (td_days delta) in
    Ok {| dt_year := y; dt_month := m; dt_day := d;
          dt_hour := hour; dt_minute := rem / 60; dt_second := rem mod 60 |}
  else Raise OverflowError.

(** [dt.strftime('%Y-%m-%d')] (a year below 1000 is printed without
    padding by the C library; no date of the engine is that early). *)
Definition format_Ymd (year month day : Z) : String.string :=
  String.append (decimal year)
    (String.append "-"
       (String.append (two_digits month)
          (String.append "-" (two_digits day)))).

Definition strftime_Ymd (dt : datetime) : String.string :=
  format_Ymd (dt_year dt) (dt_month dt) (dt_day dt).

(** [GENESIS_DATE = datetime(2009, 1, 3)] *)
Definition GENESIS_DATE : datetime :=
  {| dt_year := 2009; dt_month := 1; dt_day := 3;
     dt_hour := 0; dt_minute := 0; dt_second := 0 |}.

(** ** [time_to_percentage] *)

(** The dictionary returned by [time_to_percentage], key by key. *)
Record TimeToPercentage : Set :=
  { tp_target_percentage : Py.num;
    tp_exact_percentage : Py.float;
    tp_blocks : Z;
    tp_seconds : Z;
    tp_days : Z;
    tp_years : Py.float;
    tp_target_date : String.string;
    tp_supply_btc : Py.float }.

Definition time_to_percentage (self : BitcoinTokenomics) (percentage : Py.num)
  : outcome TimeToPercentage :=
  r <- blocks_to_percentage self percentage ;;
  let '(blocks, exact_pct) := r in
  let total_seconds := blocks * TARGET_BLOCK_TIME in
  time_delta <- timedelta_of_seconds total_seconds ;;
  target_date <- datetime_add GENESIS_DATE time_delta ;;
  years <- Py.truediv (Py.Int (td_days time_delta)) (Py.Flt f_365_25) ;;
  supply <- supply_at_block blocks ;;
  Ok {| tp_target_percentage := percentage;
        tp_exact_percentage := exact_pct;
        tp_blocks := blocks;
        tp_seconds := total_seconds;
        tp_days := td_days time_delta;
        tp_years := years;
        tp_target_date := strftime_Ymd target_date;
        tp_supply_btc := supply |}.

(** ** [halving_schedule] *)

(** The ['inflation_rate_percent'] entry: a float, or the text ['N/A']. *)
Inductive rate_entry : Set :=
| Rate (x : Py.float)
| NotAvailable.

(** One dictionary of the schedule, key by key. *)
Record HalvingEvent : Set :=
  { hs_halving : Z;
    hs_year : Z;
    hs_date : String.string;
    hs_years_from_genesis : Py.float;
    hs_block_height : Z;
    hs_reward_btc : Py.float;
    hs_reward_satoshis : Py.float;
    hs_annual_issuance_btc : Py.float;
    hs_cumulative_supply_btc : Py.float;
    hs_supply_percentage : Py.float;
    hs_inflation_rate_percent : rate_entry }.

(** [(365.25 * 24 * 60 * 60)] *)
Definition seconds_per_year : outcome Py.float :=
  a <- Py.fmuli f_365_25 24 ;;
  b <- Py.fmuli a 60 ;;
  Py.fmuli b 60.

(** [(365.25 * 24 * 60 / 10) * reward] *)
Definition annual_issuance_of (reward : Py.float) : outcome Py.float :=
  k <- blocks_per_year ;;
  Ok (Py.mul k reward).

(** The body of the loop of [halving_schedule]. *)
Definition halving_event (self : BitcoinTokenomics) (epoch : Z)
  : outcome HalvingEvent :=
  let block_height := epoch * HALVING_INTERVAL in
  reward <- reward_at epoch ;;
  cumulative_supply <- supply_at_block block_height ;;
  inflation_rate <-
    (if Py.ltb Py.zero cumulative_supply then
       annual_issuance <- annual_issuance_of reward ;;
       r <- Py.div annual_issuance cumulative_supply ;;
       Py.fmuli r 100
     else Ok Py.inf) ;;
  let total_seconds := block_height * TARGET_BLOCK_TIME in
  delta <- timedelta_of_seconds total_seconds ;;
  date <- datetime_add GENESIS_DATE delta ;;
  spy <- seconds_per_year ;;
  years_from_genesis <- Py.truediv (Py.Int total_seconds) (Py.Flt spy) ;;
  years_rounded <- round_ndigits years_from_genesis 2 ;;
  reward_satoshis <- Py.fmuli reward SATOSHIS_PER_BTC ;;
  issuance <- annual_issuance_of reward ;;
  issuance_rounded <- round_ndigits issuance 2 ;;
  supply_rounded <- round_ndigits cumulative_supply 2 ;;
  pct <- percent_of_total self cumulative_supply ;;
  pct_rounded <- round_ndigits pct 4 ;;
  rate <-
    (if negb (Py.eqb inflation_rate Py.inf) then
       x <- round_ndigits inflation_rate 4 ;; Ok (Rate x)
     else Ok NotAvailable) ;;
  Ok {| hs_halving := epoch;
        hs_year := dt_year date;
        hs_date := strftime_Ymd date;
        hs_years_from_genesis := years_rounded;
        hs_block_height := block_height;
        hs_reward_btc := reward;
        hs_reward_satoshis := reward_satoshis;
        hs_annual_issuance_btc := issuance_rounded;
        hs_cumulative_supply_btc := supply_rounded;
        hs_supply_percentage := pct_rounded;
        hs_inflation_rate_percent := rate |}.

(** [for epoch in range(n): schedule.append(...)], from [epoch] on. *)
Fixpoint schedule_from (self : BitcoinTokenomics) (n : nat) (epoch : Z)
  : outcome (list HalvingEvent) :=
  match n with
  | O => Ok []
  | S n' =>
      ev <- halving_event self epoch ;;
      rest <- schedule_from self n' (epoch + 1) ;;
      Ok (ev :: rest)
  end.

Definition halving_schedule (self : BitcoinTokenomics) : outcome (list HalvingEvent) :=
  schedule_from self (Z.to_nat (total_halvings self + 1)) 0.

(** ** The exact supply

    The supply as the real-number sum of the schedule, in units of
    [2^-1074] (every reward of the first 1075 epochs is a whole number of
    such units): [exact_reward_scaled e] is [50 / 2^e],
    [exact_epochs n] the sum over the first [n] whole epochs, and
    [exact_supply_scaled h] the supply after [h] blocks. *)
Definition exact_reward_scaled (e : Z) : Z := 50 * 2 ^ (1074 - e).

Fixpoint exact_epochs (n : nat) : Z :=
  match n with
  | O => 0
  | S k => exact_epochs k + HALVING_INTERVAL * exact_reward_scaled (Z.of_nat k)
  end.

Definition exact_supply_scaled (h : Z) : Z :=
  exact_epochs (Z.to_nat (h / HALVING_INTERVAL))
  + (h mod HALVING_INTERVAL) * exact_reward_scaled (h / HALVING_INTERVAL).

(** At epoch [e] with supply [s]: reward and supply are the exact ones, and
    the supply of any height of the epoch fits in 53 bits. *)
Definition exact_check (s : Py.float) (e : Z) : bool :=
  match reward_at e with
  | Ok rew =>
      (scaled rew =? exact_reward_scaled e)
      && (scaled s =? exact_epochs (Z.to_nat e))
      && (scaled s mod 2 ^ (1075 - e) =? 0)
      && (scaled s / 2 ^ (1075 - e) + 25 * HALVING_INTERVAL <? 2 ^ 53)
  | _ => false
  end.

(** At the start of epoch [e] the supply [s] is [21000000 * (1 - 2^-e)]. *)
Definition halving_check (s : Py.float) (e : Z) : bool :=
  scaled s * 2 ^ e =? 21000000 * (2 ^ e - 1) * 2 ^ 1074.

(** A check run on [n] consecutive integers from [z] on. *)
Fixpoint forall_from (check : Z -> bool) (n : nat) (z : Z) : bool :=
  match n with
  | O => true
  | S n' => check z && forall_from check n' (z + 1)
  end.

(** [reward * SATOSHIS_PER_BTC] *)
Definition reward_satoshis_at (epoch : Z) : outcome Py.float :=
  reward <- reward_at epoch ;;
  Py.fmuli reward SATOSHIS_PER_BTC.

(** The reward of epoch [e] is at least one satoshi exactly when [e] is
    below the number of halvings the constructor counts. *)
Definition satoshi_check (e : Z) : bool :=
  match reward_satoshis_at e with
  | Ok sat => Bool.eqb (Py.geb sat f_one) (e <? total_halvings btc)
  | _ => false
  end.

(** At epoch [e] with supply [s]: the reward is [25 * 2^(1 - e)] and the
    supply is a multiple of [2^-27]. *)
Definition search_check (s : Py.float) (e : Z) : bool :=
  match reward_at e with
  | Ok rew => (scaled rew =? 25 * 2 ^ (1075 - e)) && (scaled s mod 2 ^ 1047 =? 0)
  | _ => false
  end.

(** ** Statements about the search of [blocks_to_percentage] *)

(** What the search returns for the target [tgt]: a height [b] from [lo]
    up to the end of the schedule, the supply [c] there, which does not
    exceed the target, and a supply one block later that reaches it. *)
Definition search_result (tgt : Py.float) (lo b : Z) (c : Py.float) : Prop :=
  supply_at_block b = Ok c
  /\ lo <= b <= 33 * HALVING_INTERVAL
  /\ good c /\ scaled c <= scaled tgt
  /\ exists s', supply_at_block (b + 1) = Ok s' /\ good s'
                /\ scaled tgt <= scaled s'.

(** The height returned for the percentage [p] brackets the target supply:
    [supply_at_block(blocks) <= target_supply <= supply_at_block(blocks + 1)]. *)
Definition brackets_target (self : BitcoinTokenomics) (p : Py.num) : Prop :=
  exists t b pct s s',
    target_supply_of self p = Ok t
    /\ blocks_to_percentage self p = Ok (b, pct)
    /\ supply_at_block b = Ok s /\ supply_at_block (b + 1) = Ok s'
    /\ Py.leb s t = true /\ Py.leb t s' = true.

(** ** Statements about [time_to_percentage] *)

(** The ordinal [n] is a calendar date between 2009 and 2140 that
    [_ord2ymd] and [_ymd2ord] agree on. *)
Definition date_check (n : Z) : bool :=
  let '(y, m, d) := _ord2ymd n in
  (_ymd2ord y m d =? n) && (2009 <=? y) && (y <=? 2140)
  && (1 <=? m) && (m <=? 12) && (1 <=? d) && (d <=? _days_in_month y m).

(** [text] is the calendar date [days] days after the genesis date, a
    date of the years 2009 to 2140. *)
Definition date_after_genesis (text : String.string) (days : Z) : Prop :=
  exists y m d,
    text = format_Ymd y m d
    /\ 2009 <= y <= 2140 /\ 1 <= m <= 12 /\ 1 <= d <= _days_in_month y m
    /\ _ymd2ord y m d = _ymd2ord 2009 1 3 + days.

(** ** Statements about [halving_schedule] *)

(** [text] is the calendar date of year [y] that lies [days] days after
    the genesis date. *)
Definition date_of_year (y : Z) (text : String.string) (days : Z) : Prop :=
  exists m d,
    text = format_Ymd y m d
    /\ 1 <= m <= 12 /\ 1 <= d <= _days_in_month y m
    /\ _ymd2ord y m d = _ymd2ord 2009 1 3 + days.

(** The event [ev] of epoch [k] agrees with the queries of the engine: its
    reward is [reward_at], its supply figures are those of
    [supply_at_block] at the start of the epoch, rounded, its inflation
    rate is that of [inflation_rate_at_epoch] (start-of-epoch
    denominator), rounded, or ['N/A'] where that is infinite, and its date
    is the calendar date of its height at 144 blocks a day. *)
Definition event_agrees (self : BitcoinTokenomics) (k : Z) (ev : HalvingEvent) : Prop :=
  hs_halving ev = k
  /\ hs_block_height ev = k * HALVING_INTERVAL
  /\ reward_at k = Ok (hs_reward_btc ev)
  /\ reward_satoshis_at k = Ok (hs_reward_satoshis ev)
  /\ (exists s pct,
        supply_at_block (k * HALVING_INTERVAL) = Ok s
        /\ round_ndigits s 2 = Ok (hs_cumulative_supply_btc ev)
        /\ percent_of_total self s = Ok pct
        /\ round_ndigits pct 4 = Ok (hs_supply_percentage ev))
  /\ (exists rate,
        inflation_rate_at_epoch k false = Ok rate
        /\ if Py.eqb rate Py.inf
           then hs_inflation_rate_percent ev = NotAvailable
           else exists x, round_ndigits rate 4 = Ok x
                          /\ hs_inflation_rate_percent ev = Rate x)
  /\ date_of_year (hs_year ev) (hs_date ev) (hs_block_height ev / 144).

(** ** Statements about [inflation_rate_at_epoch] outside its domain *)

(** On a zero existing supply the rate of epoch [e] is [inf]. *)
Definition negative_epoch_check (e : Z) : bool :=
  match rate_of_supply Py.zero e with
  | Ok (S754_infinity false) => true
  | _ => false
  end.

(** * Properties *)

(** ** Fuel *)

Lemma halvings_loop_more (k fuel : nat) :
  forall r h v, halvings_loop fuel r h = Ok v -> halvings_loop (fuel + k) r h = Ok v.
Proof.
  induction fuel as [|fuel IH]; intros r h v; cbn [halvings_loop Nat.add].
  - destruct (Py.geb r f_one) eqn:E; [discriminate|].
    intros H. destruct k; cbn [halvings_loop]; rewrite E; exact H.
  - destruct (Py.geb r f_one); [|trivial].
    destruct (Py.truediv (Py.Flt r) (Py.Int 2)) as [r'| |]; cbn [bind];
      [apply IH | discriminate | discriminate].
Qed.

Lemma init_btc (fuel : nat) : (33 <= fuel)%nat -> init fuel = Ok btc.
Proof.
  intros H. replace fuel with (33 + (fuel - 33))%nat by lia.
  unfold init, _calculate_total_halvings.
  assert (E : Py.fmuli INITIAL_REWARD SATOSHIS_PER_BTC
              = Ok (Py.lit 5000000000 0)) by (vm_compute; reflexivity).
  rewrite E. cbn [bind].
  rewrite (halvings_loop_more (fuel - 33) 33 _ 0 33); [reflexivity|].
  vm_compute. reflexivity.
Qed.

(** C5: the halving loop of [_calculate_total_halvings] terminates: any
    allowance of at least 33 rounds lets it return, and the count it
    returns for the reference parameters is exactly 33. *)
Theorem total_halvings_is_33 (fuel : nat) :
  (33 <= fuel)%nat -> _calculate_total_halvings fuel = Ok 33.
Proof.
  intros H. generalize (init_btc fuel H). unfold init.
  destruct (_calculate_total_halvings fuel) as [h| |]; cbn [bind]; try discriminate.
  intros E. injection E as ->. reflexivity.
Qed.

Lemma total_halvings_is_33_witness : _calculate_total_halvings 40 = Ok 33.
Proof. apply (total_halvings_is_33 40). lia. Defined.

(** ** Binary digits *)

Lemma digits2_size (p : positive) : digits2_pos p = Pos.size p.
Proof. induction p; simpl; congruence. Qed.

Lemma Zdigits2_log2 (m : Z) : 0 < m -> Zdigits2 m = Z.log2 m + 1.
Proof.
  destruct m as [|p|p]; try lia. intros _. unfold Zdigits2.
  rewrite digits2_size. destruct p; simpl; try rewrite Pos2Z.inj_succ; lia.
Qed.

Lemma Zdigits2_bounds (m : Z) :
  0 < m -> 2 ^ (Zdigits2 m - 1) <= m < 2 ^ Zdigits2 m.
Proof.
  intros H. rewrite (Zdigits2_log2 m H).
  replace (Z.log2 m + 1 - 1) with (Z.log2 m) by lia.
  replace (Z.log2 m + 1) with (Z.succ (Z.log2 m)) by lia.
  apply Z.log2_spec. exact H.
Qed.

Lemma Zdigits2_unique (m d : Z) :
  0 < m -> 2 ^ (d - 1) <= m < 2 ^ d -> Zdigits2 m = d.
Proof.
  intros Hm [H1 H2]. rewrite (Zdigits2_log2 m Hm).
  assert (0 <= d - 1).
  { destruct (Z.le_gt_cases 1 d) as [|Hd]; [lia|].
    assert (2 ^ d <= 1); [|lia].
    destruct (Z.eq_dec d 0) as [->|]; [simpl; lia|].
    rewrite Z.pow_neg_r; lia. }
  rewrite (Z.log2_unique m (d - 1)); [lia|lia|].
  replace (Z.succ (d - 1)) with d by lia. lia.
Qed.

Lemma Zdigits2_nonneg (m : Z) : 0 <= Zdigits2 m.
Proof. destruct m; simpl; lia. Qed.

Lemma Zdigits2_pos (m : Z) : 0 < m -> 0 < Zdigits2 m.
Proof. destruct m; simpl; lia. Qed.

Lemma Zdigits2_mul_pow2 (m k : Z) :
  0 < m -> 0 <= k -> Zdigits2 (m * 2 ^ k) = Zdigits2 m + k.
Proof.
  intros Hm Hk. pose proof (Zdigits2_bounds m Hm) as [H1 H2].
  pose proof (Zdigits2_pos m Hm).
  assert (0 < 2 ^ k) by (apply Z.pow_pos_nonneg; lia).
  apply Zdigits2_unique; [nia|].
  replace (Zdigits2 m + k - 1) with (Zdigits2 m - 1 + k) by lia.
  rewrite !Z.pow_add_r by lia. nia.
Qed.

Lemma Zdigits2_le (a b : Z) : 0 <= a <= b -> Zdigits2 a <= Zdigits2 b.
Proof.
  intros [Ha Hab]. destruct (Z.eq_dec a 0) as [->|Hz].
  - apply Zdigits2_nonneg.
  - rewrite !Zdigits2_log2 by lia.
    pose proof (Z.log2_le_mono a b Hab). lia.
Qed.

Lemma Zdigits2_lt_pow2 (m d : Z) : 0 <= m -> 0 <= d -> m < 2 ^ d -> Zdigits2 m <= d.
Proof.
  intros Hm Hd H. destruct (Z.eq_dec m 0) as [->|Hz]; [simpl; lia|].
  pose proof (Zdigits2_bounds m ltac:(lia)) as [H1 _].
  destruct (Z.le_gt_cases (Zdigits2 m) d) as [|Hgt]; [assumption|].
  assert (2 ^ d <= 2 ^ (Zdigits2 m - 1)) by (apply Z.pow_le_mono_r; lia). lia.
Qed.

Lemma Zdigits2_ge_pow2 (m d : Z) : 0 <= d -> 2 ^ d <= m -> d + 1 <= Zdigits2 m.
Proof.
  intros Hd H. assert (0 < m) by (pose proof (Z.pow_pos_nonneg 2 d); lia).
  pose proof (Zdigits2_bounds m ltac:(lia)) as [_ H2].
  destruct (Z.le_gt_cases (d + 1) (Zdigits2 m)) as [|Hgt]; [assumption|].
  assert (2 ^ Zdigits2 m <= 2 ^ d).
  { apply Z.pow_le_mono_r; [lia|]. lia. }
  lia.
Qed.

(** ** Shifting a located fraction *)

Lemma shr_1_spec (q : Z) (rb sb : bool) :
  0 <= q ->
  shr_1 {| shr_m := q; shr_r := rb; shr_s := sb |}
  = {| shr_m := q / 2; shr_r := Z.odd q; shr_s := rb || sb |}.
Proof.
  intros Hq. rewrite <- Z.div2_div.
  destruct q as [|[p|p|]|p]; try reflexivity. lia.
Qed.

Lemma frac_record_fields (n d : Z) :
  0 < d ->
  frac_record n d
  = {| shr_m := n / d;
       shr_r := d <=? 2 * (n mod d);
       shr_s := negb ((n mod d =? 0) || (2 * (n mod d) =? d)) |}.
Proof.
  intros Hd. unfold frac_record, loc_frac.
  pose proof (Z.mod_pos_bound n d Hd) as Hr.
  destruct (Z.eqb_spec (n mod d) 0) as [E|E].
  - rewrite E. cbn [shr_record_of_loc orb negb].
    destruct (Z.leb_spec d (2 * 0)); [lia|reflexivity].
  - destruct (Z.compare_spec (2 * (n mod d)) d) as [C|C|C];
      cbn [shr_record_of_loc orb];
      destruct (Z.leb_spec d (2 * (n mod d)));
      destruct (Z.eqb_spec (2 * (n mod d)) d); try lia; reflexivity.
Qed.

Lemma frac_record_m (n d : Z) : shr_m (frac_record n d) = n / d.
Proof.
  unfold frac_record. destruct (loc_frac (n mod d) d) as [|[| |]]; reflexivity.
Qed.

Lemma frac_record_loc (n d : Z) :
  loc_of_shr_record (frac_record n d) = loc_frac (n mod d) d.
Proof.
  unfold frac_record. destruct (loc_frac (n mod d) d) as [|[| |]]; reflexivity.
Qed.

Lemma frac_record_exact (m : Z) : shr_record_of_loc m loc_Exact = frac_record m 1.
Proof.
  unfold frac_record, loc_frac. rewrite Z.div_1_r, Z.mod_1_r. reflexivity.
Qed.

Lemma shr_1_frac (n d : Z) :
  0 <= n -> 0 < d -> shr_1 (frac_record n d) = frac_record n (2 * d).
Proof.
  intros Hn Hd.
  rewrite (frac_record_fields n d Hd), (frac_record_fields n (2 * d)) by lia.
  rewrite shr_1_spec by (apply Z.div_pos; lia).
  assert (Hq : n / (2 * d) = n / d / 2).
  { rewrite (Z.mul_comm 2 d). symmetry. apply Z.div_div; lia. }
  assert (Hr : n mod (2 * d) = n mod d + d * ((n / d) mod 2)).
  { rewrite (Z.mul_comm 2 d). apply Z.rem_mul_r; lia. }
  rewrite Hq, Hr. rewrite (Zmod_odd (n / d)).
  pose proof (Z.mod_pos_bound n d Hd) as Hb.
  set (r := n mod d) in *. set (q := n / d) in *. clearbody r q.
  destruct (Z.odd q); f_equal.
  - symmetry. apply Z.leb_le. lia.
  - destruct (Z.leb_spec d (2 * r)); destruct (Z.eqb_spec r 0);
      destruct (Z.eqb_spec (2 * r) d);
      destruct (Z.eqb_spec (r + d * 1) 0);
      destruct (Z.eqb_spec (2 * (r + d * 1)) (2 * d)); try lia; reflexivity.
  - symmetry. apply Z.leb_gt. lia.
  - destruct (Z.leb_spec d (2 * r)); destruct (Z.eqb_spec r 0);
      destruct (Z.eqb_spec (2 * r) d);
      destruct (Z.eqb_spec (r + d * 0) 0);
      destruct (Z.eqb_spec (2 * (r + d * 0)) (2 * d)); try lia; reflexivity.
Qed.

Lemma iter_pos_shr_frac (p : positive) :
  forall n d, 0 <= n -> 0 < d ->
  iter_pos shr_1 p (frac_record n d) = frac_record n (d * 2 ^ Zpos p).
Proof.
  induction p as [p IH|p IH|]; intros n d Hn Hd; cbn [iter_pos].
  - assert (0 < 2 ^ Zpos p) by (apply Z.pow_pos_nonneg; lia).
    rewrite shr_1_frac, IH, IH by nia. f_equal.
    replace (Zpos p~1) with (Zpos p + Zpos p + 1) by lia.
    rewrite !Z.pow_add_r by lia. change (2 ^ 1) with 2. ring.
  - assert (0 < 2 ^ Zpos p) by (apply Z.pow_pos_nonneg; lia).
    rewrite IH, IH by nia. f_equal.
    replace (Zpos p~0) with (Zpos p + Zpos p) by lia.
    rewrite !Z.pow_add_r by lia. ring.
  - rewrite shr_1_frac by assumption. f_equal. change (2 ^ 1) with 2. ring.
Qed.

Lemma shr_frac (n d e k : Z) :
  0 <= n -> 0 < d ->
  shr (frac_record n d) e k
  = (frac_record n (d * 2 ^ Z.max k 0), e + Z.max k 0).
Proof.
  intros Hn Hd. destruct k as [|p|p]; cbn [shr].
  - rewrite Z.max_id. rewrite Z.mul_1_r, Z.add_0_r. reflexivity.
  - rewrite iter_pos_shr_frac by assumption.
    rewrite Z.max_l by lia. reflexivity.
  - rewrite Z.max_r by lia. rewrite Z.mul_1_r, Z.add_0_r. reflexivity.
Qed.

(** ** Nearest integer, ties to even *)

Lemma rne_eq (n d : Z) :
  0 < d ->
  rne n d
  = n / d + (if (d <? 2 * (n mod d)) || ((2 * (n mod d) =? d) && Z.odd (n / d))
             then 1 else 0).
Proof.
  intros Hd. unfold rne, loc_frac.
  pose proof (Z.mod_pos_bound n d Hd) as Hr.
  destruct (Z.eqb_spec (n mod d) 0) as [E|E].
  - rewrite E. cbn [round_nearest_even].
    destruct (Z.ltb_spec d (2 * 0)); destruct (Z.eqb_spec (2 * 0) d);
      try lia. cbn. lia.
  - destruct (Z.compare_spec (2 * (n mod d)) d) as [C|C|C];
      cbn [round_nearest_even];
      destruct (Z.ltb_spec d (2 * (n mod d)));
      destruct (Z.eqb_spec (2 * (n mod d)) d); try lia; cbn [orb andb]; try lia.
    rewrite <- Z.negb_odd. destruct (Z.odd (n / d)); cbn; lia.
Qed.

Lemma rne_near (n d : Z) : 0 < d -> n / d <= rne n d <= n / d + 1.
Proof.
  intros Hd. rewrite rne_eq by assumption.
  destruct ((d <? 2 * (n mod d)) || ((2 * (n mod d) =? d) && Z.odd (n / d))); lia.
Qed.

Lemma rne_exact (k d : Z) : 0 < d -> rne (k * d) d = k.
Proof.
  intros Hd. rewrite rne_eq by assumption.
  rewrite Z.div_mul, Z.mod_mul by lia.
  destruct (Z.ltb_spec d (2 * 0)); destruct (Z.eqb_spec (2 * 0) d); try lia.
  cbn. lia.
Qed.

Lemma rne_mono (n1 n2 d : Z) : 0 < d -> n1 <= n2 -> rne n1 d <= rne n2 d.
Proof.
  intros Hd H. pose proof (Z.div_le_mono n1 n2 d Hd H) as Hq.
  destruct (Z.eq_dec (n1 / d) (n2 / d)) as [E|E].
  - rewrite !rne_eq by assumption. rewrite <- E.
    pose proof (Z.div_mod n1 d ltac:(lia)) as D1.
    pose proof (Z.div_mod n2 d ltac:(lia)) as D2.
    rewrite <- E in D2.
    assert (n1 mod d <= n2 mod d) by lia.
    destruct (Z.odd (n1 / d));
      destruct (Z.ltb_spec d (2 * (n1 mod d)));
      destruct (Z.eqb_spec (2 * (n1 mod d)) d);
      destruct (Z.ltb_spec d (2 * (n2 mod d)));
      destruct (Z.eqb_spec (2 * (n2 mod d)) d); cbn [orb andb]; lia.
  - pose proof (rne_near n1 d Hd). pose proof (rne_near n2 d Hd). lia.
Qed.

Lemma rne_le (n d k : Z) : 0 < d -> n <= k * d -> rne n d <= k.
Proof.
  intros Hd H. rewrite <- (rne_exact k d Hd). apply rne_mono; assumption.
Qed.

Lemma rne_ge (n d k : Z) : 0 < d -> k * d <= n -> k <= rne n d.
Proof.
  intros Hd H. rewrite <- (rne_exact k d Hd). apply rne_mono; assumption.
Qed.

Lemma rne_scale (n d c : Z) : 0 < d -> 0 < c -> rne (n * c) (d * c) = rne n d.
Proof.
  intros Hd Hc. rewrite !rne_eq by nia.
  rewrite Z.div_mul_cancel_r by lia.
  rewrite Zmult_mod_distr_r.
  set (r := n mod d). set (q := n / d).
  replace (d * c <? 2 * (r * c)) with (d <? 2 * r).
  2:{ destruct (Z.ltb_spec d (2 * r)); destruct (Z.ltb_spec (d * c) (2 * (r * c)));
      try reflexivity; nia. }
  replace (2 * (r * c) =? d * c) with (2 * r =? d).
  2:{ destruct (Z.eqb_spec (2 * r) d); destruct (Z.eqb_spec (2 * (r * c)) (d * c));
      try reflexivity; nia. }
  reflexivity.
Qed.

(** ** [binary_round_aux] on a located fraction *)

Lemma fexp64_eq (x : Z) : fexp64 x = Z.max (x - 53) (-1074).
Proof. reflexivity. Qed.

Lemma rne_nonneg (n d : Z) : 0 <= n -> 0 < d -> 0 <= rne n d.
Proof.
  intros Hn Hd. pose proof (rne_near n d Hd).
  pose proof (Z.div_pos n d Hn Hd). lia.
Qed.

Lemma aux_frac (s : bool) (n d e : Z) :
  0 <= n -> 0 < d ->
  binary_round_aux Py.prec Py.emax s (n / d) e (loc_frac (n mod d) d)
  = finish s (rne n (d * 2 ^ Z.max (fexp64 (Zdigits2 (n / d) + e) - e) 0))
      (e + Z.max (fexp64 (Zdigits2 (n / d) + e) - e) 0).
Proof.
  intros Hn Hd. unfold binary_round_aux, shr_fexp.
  change (shr_record_of_loc (n / d) (loc_frac (n mod d) d)) with (frac_record n d).
  change (fexp Py.prec Py.emax) with fexp64.
  set (k := fexp64 (Zdigits2 (n / d) + e) - e).
  rewrite shr_frac by assumption.
  assert (Hp : 0 < 2 ^ Z.max k 0) by (apply Z.pow_pos_nonneg; lia).
  rewrite frac_record_m, frac_record_loc.
  change (round_nearest_even (n / (d * 2 ^ Z.max k 0))
            (loc_frac (n mod (d * 2 ^ Z.max k 0)) (d * 2 ^ Z.max k 0)))
    with (rne n (d * 2 ^ Z.max k 0)).
  set (m2 := rne n (d * 2 ^ Z.max k 0)).
  assert (Hm2 : 0 <= m2) by (apply rne_nonneg; nia).
  rewrite frac_record_exact, shr_frac by lia.
  rewrite frac_record_m. rewrite Z.mul_1_l.
  reflexivity.
Qed.

Lemma aux_exact (s : bool) (m e : Z) :
  0 <= m ->
  binary_round_aux Py.prec Py.emax s m e loc_Exact
  = finish s (rne m (2 ^ Z.max (fexp64 (Zdigits2 m + e) - e) 0))
      (e + Z.max (fexp64 (Zdigits2 m + e) - e) 0).
Proof.
  intros Hm. pose proof (aux_frac s m 1 e Hm ltac:(lia)) as H.
  rewrite Z.div_1_r, Z.mod_1_r, Z.mul_1_l in H. exact H.
Qed.

Lemma finish_keep (s : bool) (m2 e1 : Z) (p : positive) :
  m2 = Zpos p -> fexp64 (Zdigits2 m2 + e1) <= e1 -> e1 <= 971 ->
  finish s m2 e1 = S754_finite s p e1.
Proof.
  intros -> Hf He. unfold finish.
  rewrite Z.max_r by lia. rewrite Z.pow_0_r, Z.div_1_r, Z.add_0_r.
  change (Py.emax - Py.prec) with 971.
  destruct (Z.leb_spec e1 971); [reflexivity|lia].
Qed.

Lemma bounded_intro (p : positive) (e : Z) :
  fexp64 (Zdigits2 (Zpos p) + e) = e -> e <= 971 ->
  bounded Py.prec Py.emax p e = true.
Proof.
  intros Hf He. unfold bounded, canonical_mantissa.
  change (fexp Py.prec Py.emax) with fexp64.
  change (Zpos (digits2_pos p)) with (Zdigits2 (Zpos p)).
  rewrite Hf, Z.eqb_refl. change (Py.emax - Py.prec) with 971.
  apply Z.leb_le. exact He.
Qed.

Lemma bounded_elim (p : positive) (e : Z) :
  bounded Py.prec Py.emax p e = true ->
  fexp64 (Zdigits2 (Zpos p) + e) = e /\ e <= 971.
Proof.
  unfold bounded, canonical_mantissa. intros H.
  apply andb_prop in H as [H1 H2].
  apply Z.eqb_eq in H1. apply Z.leb_le in H2. split; assumption.
Qed.

(** The result of rounding [M * 2^E] when the target exponent is not below
    [E]: a valid float whose mantissa is the nearest integer on the target
    grid. *)
Lemma aux_spec (s : bool) (M E : Z) :
  0 < M -> E <= fexp64 (Zdigits2 M + E) -> Zdigits2 M + E <= 1023 ->
  let t := fexp64 (Zdigits2 M + E) in
  let m2 := rne M (2 ^ (t - E)) in
  (m2 = 0 /\ binary_round_aux Py.prec Py.emax s M E loc_Exact = S754_zero s)
  \/ (exists p e,
        binary_round_aux Py.prec Py.emax s M E loc_Exact = S754_finite s p e
        /\ bounded Py.prec Py.emax p e = true
        /\ t <= e /\ Zpos p * 2 ^ (e - t) = m2).
Proof.
  intros HM HC Hmag t m2. rewrite aux_exact by lia. fold t.
  rewrite Z.max_l by lia. replace (E + (t - E)) with t by lia. fold m2.
  pose proof (Zdigits2_bounds M HM) as [Hlo Hhi].
  set (d := Zdigits2 M) in *.
  assert (Ht : t = Z.max (d + E - 53) (-1074)) by apply fexp64_eq.
  assert (Hpk : 0 < 2 ^ (t - E)) by (apply Z.pow_pos_nonneg; lia).
  assert (Hm2 : 0 <= m2) by (apply rne_nonneg; lia).
  assert (P52 : 0 < 2 ^ 52) by reflexivity.
  assert (P53 : 2 ^ 53 = 2 * 2 ^ 52) by reflexivity.
  destruct (Z_le_gt_dec (-1074) (d + E - 53)) as [Hn|Hs].
  - (* normal range *)
    assert (Hte : t - E = d - 53) by lia.
    assert (Hm2lo : 2 ^ 52 <= m2).
    { apply rne_ge; [assumption|]. rewrite Hte, <- Z.pow_add_r by lia.
      replace (52 + (d - 53)) with (d - 1) by lia. exact Hlo. }
    assert (Hm2hi : m2 <= 2 ^ 53).
    { apply rne_le; [assumption|]. rewrite Hte, <- Z.pow_add_r by lia.
      replace (53 + (d - 53)) with d by lia. lia. }
    right. destruct (Z.eq_dec m2 (2 ^ 53)) as [E53|N53].
    + exists 4503599627370496%positive, (t + 1).
      assert (F : finish s m2 t = S754_finite s 4503599627370496 (t + 1)).
      { unfold finish. rewrite E53.
        change (Zdigits2 (2 ^ 53)) with 54. rewrite fexp64_eq.
        replace (Z.max (Z.max (54 + t - 53) (-1074) - t) 0) with 1 by lia.
        change (2 ^ 53 / 2 ^ 1) with (Zpos 4503599627370496).
        change (Py.emax - Py.prec) with 971.
        destruct (Z.leb_spec (t + 1) 971); [reflexivity|lia]. }
      split; [exact F|]. split.
      * apply bounded_intro; [|lia].
        change (Zdigits2 (Zpos 4503599627370496)) with 53.
        rewrite fexp64_eq. lia.
      * split; [lia|]. replace (t + 1 - t) with 1 by lia. rewrite E53. reflexivity.
    + destruct m2 as [|p|p] eqn:Em2; try lia.
      assert (Hd : Zdigits2 (Zpos p) = 53).
      { apply Zdigits2_unique; [lia|]. change (53 - 1) with 52. lia. }
      exists p, t. split.
      * apply finish_keep; [reflexivity| |lia]. rewrite Hd, fexp64_eq. lia.
      * split; [|split; [lia|]].
        -- apply bounded_intro; [|lia]. rewrite Hd, fexp64_eq. lia.
        -- rewrite Z.sub_diag, Z.pow_0_r. lia.
  - (* subnormal range *)
    assert (Ht' : t = -1074) by lia.
    assert (Hm2hi : m2 <= 2 ^ 52).
    { apply rne_le; [assumption|]. rewrite <- Z.pow_add_r by lia.
      assert (2 ^ d <= 2 ^ (52 + (t - E))) by (apply Z.pow_le_mono_r; lia).
      lia. }
    destruct m2 as [|p|p] eqn:Em2; try lia.
    + left. split; [reflexivity|]. rewrite Ht'. reflexivity.
    + right. exists p, t.
      assert (Hd : Zdigits2 (Zpos p) <= 53).
      { apply Zdigits2_lt_pow2; lia. }
      split.
      * apply finish_keep; [reflexivity| |lia]. rewrite fexp64_eq. lia.
      * split; [|split; [lia|]].
        -- apply bounded_intro; [|lia]. rewrite fexp64_eq. lia.
        -- rewrite Z.sub_diag, Z.pow_0_r. lia.
Qed.

(** ** Rounding depends on the value only *)

Lemma aux_shift (s : bool) (M E k : Z) :
  0 < M -> 0 <= k -> E <= fexp64 (Zdigits2 M + E) ->
  binary_round_aux Py.prec Py.emax s (M * 2 ^ k) (E - k) loc_Exact
  = binary_round_aux Py.prec Py.emax s M E loc_Exact.
Proof.
  intros HM Hk HC.
  assert (Hp : 0 < 2 ^ k) by (apply Z.pow_pos_nonneg; lia).
  rewrite !aux_exact by nia.
  rewrite Zdigits2_mul_pow2 by assumption.
  replace (Zdigits2 M + k + (E - k)) with (Zdigits2 M + E) by lia.
  set (t := fexp64 (Zdigits2 M + E)) in *.
  rewrite !Z.max_l by lia.
  replace (E - k + (t - (E - k))) with t by lia.
  replace (E + (t - E)) with t by lia.
  replace (t - (E - k)) with (t - E + k) by lia.
  rewrite Z.pow_add_r by lia.
  rewrite rne_scale; [reflexivity| |assumption].
  apply Z.pow_pos_nonneg; lia.
Qed.

Lemma iter_xO (d m : positive) : Zpos (Pos.iter xO m d) = Zpos m * 2 ^ Zpos d.
Proof.
  revert m. induction d as [|d IH] using Pos.peano_ind; intros m.
  - cbn [Pos.iter]. rewrite Pos2Z.inj_xO. change (2 ^ 1) with 2. ring.
  - rewrite Pos.iter_succ, Pos2Z.inj_xO, IH, Pos2Z.inj_succ, Z.pow_succ_r by lia.
    ring.
Qed.

Lemma binary_round_rnd (p : positive) (E : Z) :
  -1074 <= E ->
  binary_round Py.prec Py.emax false p E = rnd (Zpos p * 2 ^ (E + 1074)).
Proof.
  intros HE. unfold binary_round, rnd.
  change (Zpos (digits2_pos p)) with (Zdigits2 (Zpos p)).
  change (fexp Py.prec Py.emax) with fexp64.
  set (t := fexp64 (Zdigits2 (Zpos p) + E)).
  assert (Ht : t = Z.max (Zdigits2 (Zpos p) + E - 53) (-1074)) by apply fexp64_eq.
  unfold shl_align.
  destruct (t - E) as [|q|q] eqn:Eq.
  - rewrite <- (aux_shift false (Zpos p) E (E + 1074)) by lia.
    f_equal. lia.
  - rewrite <- (aux_shift false (Zpos p) E (E + 1074)) by lia.
    f_equal. lia.
  - rewrite iter_xO.
    assert (Hq : Zpos q = E - t) by lia.
    assert (Hp : 0 < 2 ^ Zpos q) by (apply Z.pow_pos_nonneg; lia).
    rewrite <- (aux_shift false (Zpos p * 2 ^ Zpos q) t (t + 1074)).
    + f_equal; [|lia]. rewrite <- Z.mul_assoc, <- Z.pow_add_r by lia.
      f_equal. f_equal. lia.
    + nia.
    + lia.
    + rewrite Zdigits2_mul_pow2 by lia.
      replace (Zdigits2 (Zpos p) + Zpos q + t) with (Zdigits2 (Zpos p) + E) by lia.
      fold t. lia.
Qed.

(** ** Order and identity of valid floats, on their multipliers *)

Lemma good_scaled_nonneg (x : Py.float) : good x -> 0 <= scaled x.
Proof.
  destruct x as [s|s| |s m e]; cbn [good scaled]; try lia.
  intros [-> [Hb _]]. apply bounded_elim in Hb as [Hf _].
  rewrite fexp64_eq in Hf.
  assert (0 < 2 ^ (e + 1074)) by (apply Z.pow_pos_nonneg; lia). nia.
Qed.

Lemma canon_lt (m1 m2 : positive) (e1 e2 : Z) :
  bounded Py.prec Py.emax m1 e1 = true -> bounded Py.prec Py.emax m2 e2 = true ->
  e1 < e2 ->
  Zpos m1 * 2 ^ (e1 + 1074) < Zpos m2 * 2 ^ (e2 + 1074).
Proof.
  intros B1 B2 Hlt.
  apply bounded_elim in B1 as [F1 _]. apply bounded_elim in B2 as [F2 _].
  rewrite fexp64_eq in F1, F2.
  pose proof (Zdigits2_bounds (Zpos m1) ltac:(lia)) as [_ U1].
  pose proof (Zdigits2_bounds (Zpos m2) ltac:(lia)) as [L2 _].
  assert (D2 : Zdigits2 (Zpos m2) = 53) by lia.
  rewrite D2 in L2. change (53 - 1) with 52 in L2.
  assert (U1' : Zpos m1 < 2 ^ 53).
  { assert (2 ^ Zdigits2 (Zpos m1) <= 2 ^ 53) by (apply Z.pow_le_mono_r; lia). lia. }
  assert (P53 : 2 ^ 53 = 2 * 2 ^ 52) by reflexivity.
  assert (Pa : 0 < 2 ^ (e1 + 1074)) by (apply Z.pow_pos_nonneg; lia).
  assert (Pb : 2 * 2 ^ (e1 + 1074) <= 2 ^ (e2 + 1074)).
  { replace (2 * 2 ^ (e1 + 1074)) with (2 ^ (e1 + 1074 + 1))
      by (rewrite Z.pow_add_r by lia; change (2 ^ 1) with 2; ring).
    apply Z.pow_le_mono_r; lia. }
  assert (P52 : 0 < 2 ^ 52) by reflexivity.
  nia.
Qed.

Lemma compare_good (x y : Py.float) :
  good x -> good y -> SFcompare x y = Some (scaled x ?= scaled y).
Proof.
  intros Gx Gy.
  destruct x as [sx|sx| |sx mx ex]; cbn [good] in Gx; try contradiction;
    destruct y as [sy|sy| |sy my ey]; cbn [good] in Gy; try contradiction.
  - reflexivity.
  - destruct Gy as [-> [By _]]. cbn [SFcompare scaled].
    apply bounded_elim in By as [F _]. rewrite fexp64_eq in F.
    assert (0 < 2 ^ (ey + 1074)) by (apply Z.pow_pos_nonneg; lia).
    f_equal. symmetry. apply Z.compare_lt_iff. nia.
  - destruct Gx as [-> [Bx _]]. cbn [SFcompare scaled].
    apply bounded_elim in Bx as [F _]. rewrite fexp64_eq in F.
    assert (0 < 2 ^ (ex + 1074)) by (apply Z.pow_pos_nonneg; lia).
    f_equal. symmetry. apply Z.compare_gt_iff. nia.
  - destruct Gx as [-> [Bx _]]. destruct Gy as [-> [By _]].
    cbn [SFcompare scaled]. f_equal. rewrite !Z.mul_1_l.
    destruct (Z.compare_spec ex ey) as [E|E|E].
    + subst ey. rewrite Pos.compare_cont_spec. cbn [Pos.switch_Eq].
      pose proof (bounded_elim _ _ Bx) as [F _]. rewrite fexp64_eq in F.
      assert (0 < 2 ^ (ex + 1074)) by (apply Z.pow_pos_nonneg; lia).
      change (Pos.compare mx my) with (Zpos mx ?= Zpos my).
      destruct (Z.compare_spec (Zpos mx) (Zpos my)) as [C|C|C]; symmetry.
      * apply Z.compare_eq_iff. rewrite C. reflexivity.
      * apply Z.compare_lt_iff. nia.
      * apply Z.compare_gt_iff. nia.
    + symmetry. apply Z.compare_lt_iff. apply canon_lt; assumption.
    + symmetry. apply Z.compare_gt_iff. apply canon_lt; assumption.
Qed.

Lemma leb_good (x y : Py.float) :
  good x -> good y -> Py.leb x y = (scaled x <=? scaled y).
Proof.
  intros Gx Gy. unfold Py.leb, SFleb. rewrite (compare_good x y Gx Gy).
  unfold Z.leb. destruct (scaled x ?= scaled y); reflexivity.
Qed.

Lemma ltb_good (x y : Py.float) :
  good x -> good y -> Py.ltb x y = (scaled x <? scaled y).
Proof.
  intros Gx Gy. unfold Py.ltb, SFltb. rewrite (compare_good x y Gx Gy).
  unfold Z.ltb. destruct (scaled x ?= scaled y); reflexivity.
Qed.

Lemma scaled_inj (x y : Py.float) :
  good x -> good y -> scaled x = scaled y -> x = y.
Proof.
  intros Gx Gy H. pose proof (compare_good x y Gx Gy) as C.
  rewrite H, Z.compare_refl in C.
  destruct x as [sx|sx| |sx mx ex]; cbn [good] in Gx; try contradiction;
    destruct y as [sy|sy| |sy my ey]; cbn [good] in Gy; try contradiction;
    cbn [SFcompare] in C.
  - congruence.
  - destruct sy; discriminate.
  - destruct sx; discriminate.
  - destruct Gx as [-> [Bx _]]. destruct Gy as [-> [By _]].
    cbn [scaled] in H. rewrite !Z.mul_1_l in H.
    destruct (Z.compare_spec ex ey) as [E|E|E]; try discriminate.
    subst ey. pose proof (bounded_elim _ _ Bx) as [F _]. rewrite fexp64_eq in F.
    assert (0 < 2 ^ (ex + 1074)) by (apply Z.pow_pos_nonneg; lia).
    assert (Zpos mx = Zpos my) by nia. congruence.
Qed.

(** ** The rounding function [rnd] *)

Lemma grid_nonneg (v : Z) : 0 <= grid v.
Proof. unfold grid. lia. Qed.

Lemma grid_pow_le (v : Z) : 0 < v -> 2 ^ grid v <= v.
Proof.
  intros Hv. unfold grid. pose proof (Zdigits2_bounds v Hv) as [L _].
  pose proof (Zdigits2_pos v Hv).
  assert (2 ^ Z.max (Zdigits2 v - 53) 0 <= 2 ^ (Zdigits2 v - 1))
    by (apply Z.pow_le_mono_r; lia).
  lia.
Qed.

Lemma digits_bound (v : Z) : 0 <= v <= scaled_bound -> Zdigits2 v <= 2001.
Proof.
  intros [H0 H]. apply Zdigits2_lt_pow2; [lia|lia|].
  unfold scaled_bound in H.
  assert (2 ^ 2000 < 2 ^ 2001) by (apply Z.pow_lt_mono_r; lia). lia.
Qed.

Lemma rg_le_bound (v : Z) : 0 <= v <= scaled_bound -> rg v <= scaled_bound.
Proof.
  intros H. pose proof (digits_bound v H) as Hd.
  pose proof (grid_nonneg v) as Hg. unfold rg.
  assert (Hg2 : grid v <= 2000) by (unfold grid; lia).
  assert (Hp : 0 < 2 ^ grid v) by (apply Z.pow_pos_nonneg; lia).
  assert (Hs : scaled_bound = 2 ^ (2000 - grid v) * 2 ^ grid v).
  { unfold scaled_bound. rewrite <- Z.pow_add_r by lia. f_equal. lia. }
  assert (rne v (2 ^ grid v) <= 2 ^ (2000 - grid v)).
  { apply rne_le; [assumption|]. rewrite <- Hs. lia. }
  rewrite Hs. nia.
Qed.

Lemma rnd_good (v : Z) :
  0 <= v <= scaled_bound -> good (rnd v) /\ scaled (rnd v) = rg v.
Proof.
  intros [H0 Hb]. destruct (Z.eq_dec v 0) as [->|Hz].
  - split; reflexivity.
  - assert (Hv : 0 < v) by lia.
    pose proof (digits_bound v (conj H0 Hb)) as Hd.
    pose proof (rg_le_bound v (conj H0 Hb)) as Hr.
    pose proof (grid_pow_le v Hv) as Hgp.
    assert (Hg : fexp64 (Zdigits2 v + -1074) - -1074 = grid v).
    { rewrite fexp64_eq. unfold grid. lia. }
    pose proof (grid_nonneg v) as Hgn.
    assert (Hp : 0 < 2 ^ grid v) by (apply Z.pow_pos_nonneg; lia).
    destruct (aux_spec false v (-1074) Hv) as [[Z0 _]|(p & e & R & B & Ht & Hm)].
    + rewrite fexp64_eq. lia.
    + lia.
    + rewrite Hg in Z0.
      assert (1 <= rne v (2 ^ grid v)) by (apply rne_ge; lia). lia.
    + rewrite Hg in Hm. unfold rnd. rewrite R.
      assert (Hsc : Zpos p * 2 ^ (e + 1074) = rg v).
      { unfold rg. rewrite <- Hm.
        replace (e + 1074) with (e - fexp64 (Zdigits2 v + -1074) + grid v) by lia.
        rewrite Z.pow_add_r by lia. ring. }
      split.
      * cbn [good scaled]. rewrite Z.mul_1_l, Hsc. auto.
      * cbn [scaled]. rewrite Z.mul_1_l. exact Hsc.
Qed.

Lemma rg_mono (v1 v2 : Z) : 0 <= v1 <= v2 -> rg v1 <= rg v2.
Proof.
  intros [H0 H]. unfold rg.
  pose proof (Zdigits2_le v1 v2 (conj H0 H)) as Hd.
  pose proof (grid_nonneg v1) as G1. pose proof (grid_nonneg v2) as G2.
  assert (P1 : 0 < 2 ^ grid v1) by (apply Z.pow_pos_nonneg; lia).
  assert (P2 : 0 < 2 ^ grid v2) by (apply Z.pow_pos_nonneg; lia).
  destruct (Z.eq_dec (grid v1) (grid v2)) as [E|N].
  - rewrite E. pose proof (rne_mono v1 v2 (2 ^ grid v2) P2 H). nia.
  - assert (Hlt : grid v1 < grid v2) by (unfold grid in *; lia).
    assert (Hv2 : 0 < v2).
    { destruct (Z.eq_dec v2 0) as [->|]; [|lia]. unfold grid in Hlt.
      cbn [Zdigits2] in Hlt. lia. }
    set (d1 := Zdigits2 v1) in *. set (d2 := Zdigits2 v2) in *.
    assert (Hd12 : d1 < d2) by (unfold grid in Hlt; lia).
    assert (Hg1 : grid v1 <= d1) by (unfold grid; pose proof (Zdigits2_nonneg v1); lia).
    assert (Hg2 : grid v2 = d2 - 53) by (unfold grid in *; lia).
    assert (U1 : v1 < 2 ^ d1).
    { destruct (Z.eq_dec v1 0) as [->|].
      - apply Z.pow_pos_nonneg; [lia|apply Zdigits2_nonneg].
      - apply Zdigits2_bounds. lia. }
    pose proof (Zdigits2_nonneg v1) as Hd1.
    assert (L2 : 2 ^ (d2 - 1) <= v2) by (apply Zdigits2_bounds; lia).
    assert (A : rne v1 (2 ^ grid v1) * 2 ^ grid v1 <= 2 ^ d1).
    { assert (E1 : 2 ^ d1 = 2 ^ (d1 - grid v1) * 2 ^ grid v1).
      { rewrite <- Z.pow_add_r by lia. f_equal. lia. }
      assert (rne v1 (2 ^ grid v1) <= 2 ^ (d1 - grid v1)).
      { apply rne_le; [assumption|]. rewrite <- E1. lia. }
      rewrite E1. nia. }
    assert (B : 2 ^ (d2 - 1) <= rne v2 (2 ^ grid v2) * 2 ^ grid v2).
    { assert (E2 : 2 ^ (d2 - 1) = 2 ^ 52 * 2 ^ grid v2).
      { rewrite <- Z.pow_add_r by lia. f_equal. lia. }
      assert (2 ^ 52 <= rne v2 (2 ^ grid v2)).
      { apply rne_ge; [assumption|]. rewrite <- E2. lia. }
      rewrite E2. nia. }
    assert (2 ^ d1 <= 2 ^ (d2 - 1)) by (apply Z.pow_le_mono_r; lia).
    lia.
Qed.

Lemma rg_fix (x : Py.float) : good x -> rg (scaled x) = scaled x.
Proof.
  destruct x as [s|s| |s m e]; cbn [good]; try contradiction.
  - intros _. reflexivity.
  - intros [-> [B _]]. cbn [scaled]. rewrite Z.mul_1_l.
    apply bounded_elim in B as [F _]. rewrite fexp64_eq in F.
    unfold rg.
    assert (G : grid (Zpos m * 2 ^ (e + 1074)) = e + 1074).
    { unfold grid. rewrite Zdigits2_mul_pow2 by lia. lia. }
    rewrite G. rewrite rne_exact; [reflexivity|].
    apply Z.pow_pos_nonneg; lia.
Qed.

Lemma rnd_scaled (x : Py.float) : good x -> rnd (scaled x) = x.
Proof.
  intros G.
  assert (Hb : 0 <= scaled x <= scaled_bound).
  { split; [apply good_scaled_nonneg; assumption|].
    destruct x as [s|s| |s m e]; cbn [good] in G; try contradiction.
    - cbn [scaled]. unfold scaled_bound. apply Z.pow_nonneg. lia.
    - apply G. }
  destruct (rnd_good (scaled x) Hb) as [G' S'].
  apply scaled_inj; [assumption|assumption|].
  rewrite S'. apply rg_fix. assumption.
Qed.

Lemma rg_nonneg (v : Z) : 0 <= v -> 0 <= rg v.
Proof.
  intros H. unfold rg. pose proof (grid_nonneg v).
  assert (0 < 2 ^ grid v) by (apply Z.pow_pos_nonneg; lia).
  pose proof (rne_nonneg v (2 ^ grid v) H ltac:(lia)). nia.
Qed.

(** ** The arithmetic operations on valid non-negative floats *)

Lemma shl_align_fst (m : positive) (e ez : Z) :
  ez <= e -> Zpos (fst (shl_align m e ez)) = Zpos m * 2 ^ (e - ez).
Proof.
  intros H. unfold shl_align. destruct (ez - e) as [|q|q] eqn:Eq; cbn [fst].
  - replace (e - ez) with 0 by lia. rewrite Z.pow_0_r. lia.
  - lia.
  - rewrite iter_xO. f_equal. f_equal. lia.
Qed.

Lemma good_finite (s : bool) (m : positive) (e : Z) :
  good (S754_finite s m e) ->
  s = false /\ bounded Py.prec Py.emax m e = true /\ -1074 <= e
  /\ scaled (S754_finite s m e) = Zpos m * 2 ^ (e + 1074).
Proof.
  cbn [good]. intros [-> [B _]]. split; [reflexivity|]. split; [assumption|].
  apply bounded_elim in B as [F _]. rewrite fexp64_eq in F.
  split; [lia|]. cbn [scaled]. lia.
Qed.

Lemma add_spec (x y : Py.float) :
  good x -> good y -> Py.add x y = rnd (scaled x + scaled y).
Proof.
  intros Gx Gy.
  destruct x as [sx|sx| |sx mx ex]; try contradiction;
    destruct y as [sy|sy| |sy my ey]; try contradiction.
  - cbn [good] in Gx, Gy. subst. reflexivity.
  - cbn [good] in Gx. subst sx.
    change (scaled (S754_zero false)) with 0.
    rewrite Z.add_0_l, rnd_scaled by assumption. reflexivity.
  - cbn [good] in Gy. subst sy.
    change (scaled (S754_zero false)) with 0.
    rewrite Z.add_0_r, rnd_scaled by assumption. reflexivity.
  - destruct (good_finite _ _ _ Gx) as (-> & Bx & Ex & Sx).
    destruct (good_finite _ _ _ Gy) as (-> & By & Ey & Sy).
    rewrite Sx, Sy. unfold Py.add, SFadd. cbn [cond_Zopp].
    set (ez := Z.min ex ey).
    rewrite !shl_align_fst by lia.
    assert (Px : 0 < 2 ^ (ex - ez)) by (apply Z.pow_pos_nonneg; lia).
    assert (Py' : 0 < 2 ^ (ey - ez)) by (apply Z.pow_pos_nonneg; lia).
    destruct (Zpos mx * 2 ^ (ex - ez) + Zpos my * 2 ^ (ey - ez)) as [|p|p] eqn:Es;
      try nia.
    cbn [binary_normalize]. rewrite binary_round_rnd by lia. f_equal.
    rewrite <- Es, Z.mul_add_distr_r, <- !Z.mul_assoc, <- !Z.pow_add_r by lia.
    f_equal; f_equal; f_equal; lia.
Qed.

Lemma sub_spec (x y : Py.float) :
  good x -> good y -> scaled y < scaled x ->
  Py.sub x y = rnd (scaled x - scaled y).
Proof.
  intros Gx Gy Hlt. pose proof (good_scaled_nonneg y Gy) as Hy.
  destruct x as [sx|sx| |sx mx ex]; try contradiction;
    [cbn [scaled] in Hlt; lia|].
  destruct y as [sy|sy| |sy my ey]; try contradiction.
  - change (scaled (S754_zero sy)) with 0.
    rewrite Z.sub_0_r, rnd_scaled by assumption. reflexivity.
  - destruct (good_finite _ _ _ Gx) as (-> & Bx & Ex & Sx).
    destruct (good_finite _ _ _ Gy) as (-> & By & Ey & Sy).
    rewrite Sx, Sy in *. unfold Py.sub, SFsub. cbn [cond_Zopp].
    set (ez := Z.min ex ey).
    rewrite !shl_align_fst by lia.
    assert (Pz : 0 < 2 ^ (ez + 1074)) by (apply Z.pow_pos_nonneg; lia).
    assert (Hx : Zpos mx * 2 ^ (ex + 1074)
                 = Zpos mx * 2 ^ (ex - ez) * 2 ^ (ez + 1074)).
    { rewrite <- Z.mul_assoc, <- Z.pow_add_r by lia. f_equal. f_equal. lia. }
    assert (Hy' : Zpos my * 2 ^ (ey + 1074)
                 = Zpos my * 2 ^ (ey - ez) * 2 ^ (ez + 1074)).
    { rewrite <- Z.mul_assoc, <- Z.pow_add_r by lia. f_equal. f_equal. lia. }
    destruct (Zpos mx * 2 ^ (ex - ez) - Zpos my * 2 ^ (ey - ez)) as [|p|p] eqn:Es;
      try nia.
    cbn [binary_normalize]. rewrite binary_round_rnd by lia. f_equal.
    rewrite <- Es, Hx, Hy'. ring.
Qed.

Lemma mul_spec (mx my : positive) (ex ey v : Z) :
  bounded Py.prec Py.emax mx ex = true -> bounded Py.prec Py.emax my ey = true ->
  2 ^ 52 <= Zpos mx ->
  v * 2 ^ 1074 = (Zpos mx * 2 ^ (ex + 1074)) * (Zpos my * 2 ^ (ey + 1074)) ->
  Py.mul (S754_finite false mx ex) (S754_finite false my ey) = rnd v.
Proof.
  intros Bx By Hn Hv.
  apply bounded_elim in Bx as [Fx _]. apply bounded_elim in By as [Fy _].
  rewrite fexp64_eq in Fx, Fy.
  unfold Py.mul, SFmul, rnd. cbn [xorb]. rewrite Pos2Z.inj_mul.
  set (M := Zpos mx * Zpos my). set (E := ex + ey).
  assert (HM : 0 < M) by (unfold M; lia).
  assert (HM52 : 2 ^ 52 <= M) by (unfold M; nia).
  assert (HC : E <= fexp64 (Zdigits2 M + E)).
  { rewrite fexp64_eq. pose proof (Zdigits2_ge_pow2 M 52 ltac:(lia) HM52). lia. }
  assert (P : 0 < 2 ^ 1074) by (apply Z.pow_pos_nonneg; lia).
  assert (Hv' : v * 2 ^ 1074 = M * 2 ^ (E + 2148)).
  { rewrite Hv. unfold M, E.
    replace (ex + ey + 2148) with ((ex + 1074) + (ey + 1074)) by lia.
    rewrite (Z.pow_add_r 2 (ex + 1074) (ey + 1074)) by lia. ring. }
  destruct (Z_le_gt_dec 0 (E + 1074)) as [Hp|Hn'].
  - rewrite <- (aux_shift false M E (E + 1074)) by lia.
    f_equal; [|lia].
    replace (E + 2148) with (E + 1074 + 1074) in Hv' by lia.
    rewrite Z.pow_add_r in Hv' by lia. nia.
  - set (k := - (E + 1074)).
    assert (Hk : 0 < k) by (unfold k; lia).
    assert (Pk : 0 < 2 ^ k) by (apply Z.pow_pos_nonneg; lia).
    assert (PE : 0 < 2 ^ (E + 2148)) by (apply Z.pow_pos_nonneg; unfold E; lia).
    assert (Hs : 2 ^ 1074 = 2 ^ k * 2 ^ (E + 2148)).
    { rewrite <- Z.pow_add_r by (unfold E; lia). f_equal. unfold k. lia. }
    assert (HMv : M = v * 2 ^ k) by (rewrite Hs in Hv'; nia).
    assert (Hvpos : 0 < v) by nia.
    replace E with (-1074 - k) by (unfold k; lia).
    rewrite HMv. apply aux_shift; try lia.
    rewrite fexp64_eq. lia.
Qed.

Lemma float_of_int_spec (r : Z) :
  0 <= r <= two_926 -> Py.float_of_int r = Ok (rnd (r * 2 ^ 1074)).
Proof.
  intros [H0 Hb]. unfold two_926 in Hb.
  assert (Hsb : r * 2 ^ 1074 <= scaled_bound).
  { unfold scaled_bound. replace 2000 with (926 + 1074) by lia.
    rewrite Z.pow_add_r by lia.
    assert (0 < 2 ^ 1074) by (apply Z.pow_pos_nonneg; lia). nia. }
  assert (Hd : Zdigits2 r <= 1024).
  { apply Zdigits2_lt_pow2; [lia|lia|].
    assert (2 ^ 926 < 2 ^ 1024) by (apply Z.pow_lt_mono_r; lia). lia. }
  unfold Py.float_of_int. change Py.emax with 1024.
  destruct (Z.ltb_spec 1024 (Zdigits2 r)); [lia|].
  assert (Hr : Py.of_scaled r 0 = rnd (r * 2 ^ 1074)).
  { destruct r as [|p|p]; [reflexivity| |lia].
    unfold Py.of_scaled. cbn [binary_normalize].
    rewrite binary_round_rnd by lia. reflexivity. }
  rewrite Hr.
  assert (0 <= r * 2 ^ 1074).
  { assert (0 < 2 ^ 1074) by (apply Z.pow_pos_nonneg; lia). nia. }
  destruct (rnd_good (r * 2 ^ 1074) ltac:(lia)) as [G _].
  destruct (rnd (r * 2 ^ 1074)); try reflexivity. contradiction.
Qed.

Lemma rg_int (r : Z) : 0 <= r < 2 ^ 53 -> rg (r * 2 ^ 1074) = r * 2 ^ 1074.
Proof.
  intros [H0 H]. destruct (Z.eq_dec r 0) as [->|Hz]; [reflexivity|].
  assert (Hr : 0 < r) by lia.
  pose proof (Zdigits2_pos r Hr) as Hd.
  pose proof (Zdigits2_lt_pow2 r 53 ltac:(lia) ltac:(lia) H) as Hd'.
  unfold rg.
  assert (G : grid (r * 2 ^ 1074) = Zdigits2 r + 1021).
  { unfold grid. rewrite Zdigits2_mul_pow2 by lia. lia. }
  rewrite G.
  replace (r * 2 ^ 1074) with (r * 2 ^ (53 - Zdigits2 r) * 2 ^ (Zdigits2 r + 1021)).
  - rewrite rne_exact; [reflexivity|]. apply Z.pow_pos_nonneg; lia.
  - rewrite <- Z.mul_assoc, <- Z.pow_add_r by lia. f_equal. f_equal. lia.
Qed.

Lemma good_b_good (x : Py.float) : good_b x = true -> good x.
Proof.
  destruct x as [s|s| |s m e]; cbn [good_b good]; try discriminate.
  - destruct s; [discriminate|reflexivity].
  - intros H. apply andb_prop in H as [H H3]. apply andb_prop in H as [H1 H2].
    destruct s; [discriminate|]. apply Z.leb_le in H3. auto.
Qed.

Lemma imul_spec (r : Z) (y : Py.float) :
  0 <= r < 2 ^ 53 -> good y -> 0 < scaled y ->
  Py.imul r y = Ok (rnd (r * scaled y)).
Proof.
  intros [H0 H] Gy Py'. unfold Py.imul.
  assert (Hb : r <= two_926).
  { unfold two_926. assert (2 ^ 53 < 2 ^ 926) by (apply Z.pow_lt_mono_r; lia). lia. }
  rewrite float_of_int_spec by lia. cbn [bind]. f_equal.
  destruct y as [sy|sy| |sy my ey]; try contradiction;
    [cbn [scaled] in Py'; lia|].
  destruct (good_finite _ _ _ Gy) as (-> & By & Ey & Sy).
  destruct (Z.eq_dec r 0) as [->|Hz]; [reflexivity|].
  assert (P : 0 < 2 ^ 1074) by (apply Z.pow_pos_nonneg; lia).
  assert (Hsb : 0 <= r * 2 ^ 1074 <= scaled_bound).
  { split; [nia|]. unfold scaled_bound. replace 2000 with (926 + 1074) by lia.
    rewrite Z.pow_add_r by lia. unfold two_926 in Hb. nia. }
  destruct (rnd_good _ Hsb) as [G S]. rewrite rg_int in S by lia.
  destruct (rnd (r * 2 ^ 1074)) as [s|s| |s p e] eqn:Er; try contradiction.
  - cbn [scaled] in S. nia.
  - destruct (good_finite _ _ _ G) as (-> & Bp & Ep & Sp).
    rewrite Sp in S.
    apply mul_spec; try assumption.
    + pose proof (bounded_elim _ _ Bp) as [F _]. rewrite fexp64_eq in F.
      pose proof (Zdigits2_bounds (Zpos p) ltac:(lia)) as [L U].
      destruct (Z_le_gt_dec 53 (Zdigits2 (Zpos p))) as [Hd|Hd].
      * assert (2 ^ 52 <= 2 ^ (Zdigits2 (Zpos p) - 1))
          by (apply Z.pow_le_mono_r; lia). lia.
      * exfalso. assert (e = -1074) by lia. subst e.
        change (-1074 + 1074) with 0 in S. rewrite Z.pow_0_r in S.
        assert (2 ^ Zdigits2 (Zpos p) <= 2 ^ 53) by (apply Z.pow_le_mono_r; lia).
        assert (2 ^ 53 < 2 ^ 1074) by (apply Z.pow_lt_mono_r; lia).
        nia.
    + rewrite S, Sy. ring.
Qed.

(** ** The walk over whole epochs *)

Lemma walk_snoc (n : nat) :
  forall s e,
  walk (S n) s e
  = (s' <- walk n s e ;;
     reward <- reward_at (e + Z.of_nat n) ;;
     inc <- Py.imul HALVING_INTERVAL reward ;;
     Ok (Py.add s' inc)).
Proof.
  induction n as [|n IH]; intros s e.
  - cbn [walk bind Z.of_nat]. rewrite Z.add_0_r.
    destruct (reward_at e) as [rew| |]; reflexivity.
  - change (walk (S (S n)) s e)
      with (reward <- reward_at e ;;
            inc <- Py.imul HALVING_INTERVAL reward ;;
            walk (S n) (Py.add s inc) (e + 1)).
    change (walk (S n) s e)
      with (reward <- reward_at e ;;
            inc <- Py.imul HALVING_INTERVAL reward ;;
            walk n (Py.add s inc) (e + 1)).
    destruct (reward_at e) as [rew| |]; cbn [bind]; try reflexivity.
    destruct (Py.imul HALVING_INTERVAL rew) as [inc| |]; cbn [bind]; try reflexivity.
    rewrite IH. replace (e + 1 + Z.of_nat n) with (e + Z.of_nat (S n)) by lia.
    reflexivity.
Qed.

(** The facts about epoch [j] of the walk from [(s, e)]. *)
Lemma epochs_ok_facts (n : nat) :
  forall s e, epochs_ok n s e = true ->
  forall j, (j < n)%nat ->
  exists sj rew full,
    walk j s e = Ok sj /\ good sj
    /\ reward_at (e + Z.of_nat j) = Ok rew /\ good rew /\ 0 < scaled rew
    /\ Py.imul HALVING_INTERVAL rew = Ok full
    /\ scaled full = HALVING_INTERVAL * scaled rew
    /\ scaled sj + HALVING_INTERVAL * scaled rew <= scaled_bound.
Proof.
  induction n as [|n IH]; intros s e Hok j Hj; [lia|].
  cbn [epochs_ok] in Hok. unfold epoch_ok in Hok.
  destruct (reward_at e) as [rew| |] eqn:Er; try discriminate.
  destruct (Py.imul HALVING_INTERVAL rew) as [full| |] eqn:Ef; try discriminate.
  destruct (good_b s && good_b rew && (0 <? scaled rew)
            && (scaled full =? HALVING_INTERVAL * scaled rew)
            && (scaled s + HALVING_INTERVAL * scaled rew <=? scaled_bound))
    eqn:Ec; try discriminate.
  destruct j as [|j].
  - apply andb_prop in Ec as [Ec C5]. apply andb_prop in Ec as [Ec C4].
    apply andb_prop in Ec as [Ec C3]. apply andb_prop in Ec as [C1 C2].
    exists s, rew, full. cbn [walk Z.of_nat]. rewrite Z.add_0_r.
    repeat split; try assumption.
    + apply good_b_good; assumption.
    + apply good_b_good; assumption.
    + apply Z.ltb_lt; assumption.
    + apply Z.eqb_eq; assumption.
    + apply Z.leb_le; assumption.
  - destruct (IH _ _ Hok j ltac:(lia)) as (sj & rewj & fullj & W & Hrest).
    exists sj, rewj, fullj. split.
    + cbn [walk]. rewrite Er. cbn [bind]. rewrite Ef. cbn [bind]. exact W.
    + replace (e + Z.of_nat (S j)) with (e + 1 + Z.of_nat j) by lia. exact Hrest.
Qed.

Lemma all_epochs_ok : epochs_ok 1024 Py.zero 0 = true.
Proof. vm_compute. reflexivity. Qed.

(** ** The loop of [supply_at_block] *)

Lemma HI_pos : 0 < HALVING_INTERVAL.
Proof. reflexivity. Qed.

Lemma HI_small : HALVING_INTERVAL < 2 ^ 53.
Proof. reflexivity. Qed.

Lemma supply_loop_done (fuel : nat) (h : Z) (s : Py.float) (p e : Z) :
  h <= p -> supply_loop fuel h s p e = Ok s.
Proof.
  intros H. destruct fuel; cbn [supply_loop];
    destruct (Z.ltb_spec p h); try lia; reflexivity.
Qed.

Lemma supply_loop_step (fuel : nat) (h : Z) (s : Py.float) (p e : Z) :
  p < h ->
  supply_loop (S fuel) h s p e
  = (reward <- reward_at e ;;
     inc <- Py.imul (Z.min HALVING_INTERVAL (h - p)) reward ;;
     supply_loop fuel h (Py.add s inc) (p + Z.min HALVING_INTERVAL (h - p)) (e + 1)).
Proof.
  intros H. cbn [supply_loop]. destruct (Z.ltb_spec p h); [reflexivity|lia].
Qed.

Lemma supply_loop_walk (n : nat) :
  forall fuel h s p e,
  p + Z.of_nat n * HALVING_INTERVAL <= h ->
  supply_loop (n + fuel) h s p e
  = (s' <- walk n s e ;;
     supply_loop fuel h s' (p + Z.of_nat n * HALVING_INTERVAL) (e + Z.of_nat n)).
Proof.
  pose proof HI_pos as HP.
  induction n as [|n IH]; intros fuel h s p e H.
  - cbn [walk bind Nat.add Z.of_nat]. rewrite Z.mul_0_l, !Z.add_0_r. reflexivity.
  - change (S n + fuel)%nat with (S (n + fuel)).
    rewrite supply_loop_step by nia.
    rewrite Z.min_l by nia. cbn [walk].
    destruct (reward_at e) as [rew| |]; cbn [bind]; try reflexivity.
    destruct (Py.imul HALVING_INTERVAL rew) as [inc| |]; cbn [bind]; try reflexivity.
    rewrite IH by nia.
    replace (p + HALVING_INTERVAL + Z.of_nat n * HALVING_INTERVAL)
      with (p + Z.of_nat (S n) * HALVING_INTERVAL) by nia.
    replace (e + 1 + Z.of_nat n) with (e + Z.of_nat (S n)) by lia.
    reflexivity.
Qed.

(** A positive height is [j] whole epochs and [r] more blocks,
    [0 < r <= HALVING_INTERVAL]; the loop adds them in that order. *)
Lemma supply_at_block_split (j : nat) (r : Z) :
  (j < 1025)%nat -> 0 < r <= HALVING_INTERVAL ->
  supply_at_block (Z.of_nat j * HALVING_INTERVAL + r)
  = (s <- epoch_supply j ;;
     reward <- reward_at (Z.of_nat j) ;;
     inc <- Py.imul r reward ;;
     Ok (Py.add s inc)).
Proof.
  intros Hj Hr. unfold supply_at_block, supply_at_block_fuel, walk_fuel, epoch_supply.
  replace 1025%nat with (j + S (1024 - j))%nat by lia.
  rewrite supply_loop_walk by lia. rewrite !Z.add_0_l.
  destruct (walk j Py.zero 0) as [s| |]; cbn [bind]; try reflexivity.
  rewrite supply_loop_step by lia.
  replace (Z.of_nat j * HALVING_INTERVAL + r - Z.of_nat j * HALVING_INTERVAL)
    with r by lia.
  rewrite Z.min_r by lia.
  destruct (reward_at (Z.of_nat j)) as [rew| |]; cbn [bind]; try reflexivity.
  destruct (Py.imul r rew) as [inc| |]; cbn [bind]; try reflexivity.
  apply supply_loop_done. lia.
Qed.

Lemma supply_at_block_nonpos (h : Z) : h <= 0 -> supply_at_block h = Ok Py.zero.
Proof. intros H. apply supply_loop_done. exact H. Qed.

(** ** The supply inside an epoch *)

Lemma epoch_facts (j : nat) :
  (j < 1024)%nat ->
  exists sj rew full,
    epoch_supply j = Ok sj /\ good sj
    /\ reward_at (Z.of_nat j) = Ok rew /\ good rew /\ 0 < scaled rew
    /\ Py.imul HALVING_INTERVAL rew = Ok full
    /\ scaled full = HALVING_INTERVAL * scaled rew
    /\ scaled sj + HALVING_INTERVAL * scaled rew <= scaled_bound.
Proof.
  intros Hj. exact (epochs_ok_facts 1024 Py.zero 0 all_epochs_ok j Hj).
Qed.

Lemma in_epoch (j : nat) (r : Z) :
  (j < 1024)%nat -> 0 <= r <= HALVING_INTERVAL ->
  exists sj rew x,
    epoch_supply j = Ok sj /\ good sj
    /\ reward_at (Z.of_nat j) = Ok rew /\ good rew /\ 0 < scaled rew
    /\ Py.imul r rew = Ok x /\ good x /\ scaled x = rg (r * scaled rew)
    /\ scaled x <= HALVING_INTERVAL * scaled rew
    /\ scaled sj + HALVING_INTERVAL * scaled rew <= scaled_bound
    /\ good (Py.add sj x)
    /\ scaled (Py.add sj x) = rg (scaled sj + rg (r * scaled rew)).
Proof.
  intros Hj [Hr0 Hr]. pose proof HI_pos as HP. pose proof HI_small as HS.
  destruct (epoch_facts j Hj) as (sj & rew & full & E & Gs & R & Gr & Pr & F & SF & B).
  pose proof (good_scaled_nonneg sj Gs) as Ns.
  exists sj, rew, (rnd (r * scaled rew)).
  assert (Hx : Py.imul r rew = Ok (rnd (r * scaled rew)))
    by (apply imul_spec; [lia|assumption|assumption]).
  assert (Hf : full = rnd (HALVING_INTERVAL * scaled rew)).
  { rewrite imul_spec in F by (try assumption; lia). congruence. }
  destruct (rnd_good (r * scaled rew) ltac:(nia)) as [Gx Sx].
  destruct (rnd_good (HALVING_INTERVAL * scaled rew) ltac:(nia)) as [_ Sfull].
  rewrite <- Hf, SF in Sfull.
  assert (Hle : scaled (rnd (r * scaled rew)) <= HALVING_INTERVAL * scaled rew).
  { rewrite Sx, Sfull. apply rg_mono. nia. }
  pose proof (good_scaled_nonneg _ Gx) as Nx.
  assert (Ha : Py.add sj (rnd (r * scaled rew))
               = rnd (scaled sj + scaled (rnd (r * scaled rew))))
    by (apply add_spec; assumption).
  destruct (rnd_good (scaled sj + scaled (rnd (r * scaled rew))) ltac:(lia))
    as [Ga Sa].
  rewrite <- Ha in Ga, Sa. rewrite Sx in Sa.
  repeat split; try assumption; lia.
Qed.

Lemma epoch_next (j : nat) :
  (j < 1024)%nat ->
  exists sj rew s',
    epoch_supply j = Ok sj /\ reward_at (Z.of_nat j) = Ok rew
    /\ epoch_supply (S j) = Ok s' /\ good s'
    /\ scaled s' = rg (scaled sj + rg (HALVING_INTERVAL * scaled rew)).
Proof.
  intros Hj. pose proof HI_pos as HP.
  destruct (in_epoch j HALVING_INTERVAL Hj ltac:(lia))
    as (sj & rew & x & E & _ & R & _ & _ & X & _ & _ & _ & _ & Ga & Sa).
  exists sj, rew, (Py.add sj x). repeat split; try assumption.
  unfold epoch_supply in *. rewrite walk_snoc, E. cbn [bind].
  rewrite Z.add_0_l, R. cbn [bind]. rewrite X. reflexivity.
Qed.

Lemma epoch_supply_good (j : nat) :
  (j <= 1024)%nat -> exists s, epoch_supply j = Ok s /\ good s.
Proof.
  intros Hj. destruct j as [|j].
  - exists Py.zero. split; reflexivity.
  - destruct (epoch_next j ltac:(lia)) as (_ & _ & s' & _ & _ & E & G & _).
    exists s'. split; assumption.
Qed.

Lemma epoch_supply_step_le (j : nat) (a b : Py.float) :
  (j < 1024)%nat -> epoch_supply j = Ok a -> epoch_supply (S j) = Ok b ->
  scaled a <= scaled b.
Proof.
  intros Hj Ea Eb.
  destruct (epoch_next j Hj) as (sj & rew & s' & E & R & E' & G & S').
  destruct (epoch_facts j Hj) as (sj' & rew' & _ & E2 & Gs & R2 & _ & Pr & _).
  assert (sj = a) by congruence. assert (s' = b) by congruence.
  assert (sj' = a) by congruence. assert (rew' = rew) by congruence. subst.
  rewrite S'. rewrite <- (rg_fix a Gs) at 1. apply rg_mono.
  pose proof (good_scaled_nonneg a Gs). pose proof HI_pos.
  pose proof (rg_nonneg (HALVING_INTERVAL * scaled rew) ltac:(nia)). lia.
Qed.

Lemma epoch_supply_mono (k j : nat) (a b : Py.float) :
  (j + k <= 1024)%nat -> epoch_supply j = Ok a -> epoch_supply (j + k) = Ok b ->
  scaled a <= scaled b.
Proof.
  revert b. induction k as [|k IH]; intros b Hk Ea Eb.
  - rewrite Nat.add_0_r in Eb. assert (a = b) by congruence. subst. lia.
  - destruct (epoch_supply_good (j + k) ltac:(lia)) as (c & Ec & _).
    pose proof (IH c ltac:(lia) Ea Ec).
    replace (j + S k)%nat with (S (j + k)) in Eb by lia.
    pose proof (epoch_supply_step_le (j + k) c b ltac:(lia) Ec Eb). lia.
Qed.

(** ** The supply as a function of the height *)

Lemma supply_pos_value (h : Z) :
  0 < h <= max_height ->
  exists (j : nat) (r : Z) (sj rew s : Py.float),
    (j < 1024)%nat /\ 0 < r <= HALVING_INTERVAL
    /\ h = Z.of_nat j * HALVING_INTERVAL + r
    /\ epoch_supply j = Ok sj /\ good sj
    /\ reward_at (Z.of_nat j) = Ok rew /\ 0 < scaled rew
    /\ supply_at_block h = Ok s /\ good s
    /\ scaled s = rg (scaled sj + rg (r * scaled rew)).
Proof.
  intros [H0 H]. pose proof HI_pos as HP. unfold max_height in H.
  set (q := (h - 1) / HALVING_INTERVAL).
  assert (Hq : 0 <= q) by (apply Z.div_pos; lia).
  pose proof (Z.div_mod (h - 1) HALVING_INTERVAL ltac:(lia)) as D.
  pose proof (Z.mod_pos_bound (h - 1) HALVING_INTERVAL HP) as M.
  fold q in D.
  assert (Hq' : q < 1024) by nia.
  set (j := Z.to_nat q). set (r := h - q * HALVING_INTERVAL).
  assert (Hj : Z.of_nat j = q) by (unfold j; lia).
  assert (Hr : 0 < r <= HALVING_INTERVAL) by (unfold r; lia).
  destruct (in_epoch j r ltac:(lia) ltac:(lia))
    as (sj & rew & x & E & Gs & R & _ & Pr & X & _ & _ & _ & _ & Ga & Sa).
  exists j, r, sj, rew, (Py.add sj x).
  assert (Hh : h = Z.of_nat j * HALVING_INTERVAL + r) by (unfold r; lia).
  repeat split; try assumption; try lia.
  rewrite Hh at 1. rewrite supply_at_block_split by lia.
  rewrite E. cbn [bind]. rewrite R. cbn [bind]. rewrite X. reflexivity.
Qed.

Lemma supply_good (h : Z) :
  h <= max_height -> exists s, supply_at_block h = Ok s /\ good s.
Proof.
  intros H. destruct (Z_le_gt_dec h 0) as [Hn|Hp].
  - exists Py.zero. split; [apply supply_at_block_nonpos; assumption|reflexivity].
  - destruct (supply_pos_value h ltac:(lia))
      as (_ & _ & _ & _ & s & _ & _ & _ & _ & _ & _ & _ & S & G & _).
    exists s. split; assumption.
Qed.

(** Monotonicity of the supply, on the multipliers. *)
Lemma supply_le (h1 h2 : Z) (s1 s2 : Py.float) :
  h1 <= h2 -> h2 <= max_height ->
  supply_at_block h1 = Ok s1 -> supply_at_block h2 = Ok s2 ->
  good s1 /\ good s2 /\ scaled s1 <= scaled s2.
Proof.
  intros H12 H2 E1 E2. pose proof HI_pos as HP.
  destruct (supply_good h1 ltac:(lia)) as (s1' & E1' & G1).
  destruct (supply_good h2 ltac:(lia)) as (s2' & E2' & G2).
  assert (s1' = s1) by congruence. assert (s2' = s2) by congruence. subst.
  split; [assumption|]. split; [assumption|].
  destruct (Z_le_gt_dec h1 0) as [Hn|Hp].
  - rewrite supply_at_block_nonpos in E1 by assumption.
    injection E1 as <-. cbn [scaled Py.zero]. apply good_scaled_nonneg. assumption.
  - destruct (supply_pos_value h1 ltac:(lia))
      as (j1 & r1 & a1 & w1 & t1 & J1 & R1 & D1 & A1 & GA1 & W1 & PW1 & S1 & _ & V1).
    destruct (supply_pos_value h2 ltac:(lia))
      as (j2 & r2 & a2 & w2 & t2 & J2 & R2 & D2 & A2 & GA2 & W2 & PW2 & S2 & _ & V2).
    assert (t1 = s1) by congruence. assert (t2 = s2) by congruence. subst t1 t2.
    rewrite V1, V2.
    pose proof (good_scaled_nonneg a1 GA1) as N1.
    pose proof (good_scaled_nonneg a2 GA2) as N2.
    assert (Hj : (j1 <= j2)%nat) by nia.
    destruct (Nat.eq_dec j1 j2) as [Ej|Nj].
    + subst j2. assert (a2 = a1) by congruence. assert (w2 = w1) by congruence.
      subst. assert (r1 <= r2) by lia.
      apply rg_mono. split.
      * pose proof (rg_nonneg (r1 * scaled w1) ltac:(nia)). lia.
      * pose proof (rg_mono (r1 * scaled w1) (r2 * scaled w1) ltac:(nia)). lia.
    + destruct (epoch_next j1 J1) as (a1' & w1' & b & A1' & W1' & B & GB & SB).
      assert (a1' = a1) by congruence. assert (w1' = w1) by congruence. subst.
      assert (Hb : scaled b <= scaled a2).
      { apply (epoch_supply_mono (j2 - S j1) (S j1) b a2); try assumption; try lia.
        replace (S j1 + (j2 - S j1))%nat with j2 by lia. assumption. }
      assert (L : rg (scaled a1 + rg (r1 * scaled w1)) <= scaled b).
      { rewrite SB. apply rg_mono. split.
        - pose proof (rg_nonneg (r1 * scaled w1) ltac:(nia)). lia.
        - pose proof (rg_mono (r1 * scaled w1) (HALVING_INTERVAL * scaled w1)
                        ltac:(nia)). lia. }
      assert (U : scaled a2 <= rg (scaled a2 + rg (r2 * scaled w2))).
      { rewrite <- (rg_fix a2 GA2) at 1. apply rg_mono.
        pose proof (rg_nonneg (r2 * scaled w2) ltac:(nia)). lia. }
      lia.
Qed.

(** ** The claims about [supply_at_block] *)

(** C10 (amended): [supply_at_block] returns [0.0] for every height [<= 0],
    negative heights included: the loop condition fails at once, so no
    round of the loop runs (an allowance of zero rounds is enough) and
    nothing is raised.  The call is not total over all integers, see
    [supply_not_total]. *)
Theorem supply_nonpositive_height (h : Z) :
  h <= 0 ->
  supply_at_block h = Ok Py.zero /\ supply_at_block_fuel 0 h = Ok Py.zero.
Proof.
  intros H. split; [apply supply_at_block_nonpos; exact H|].
  apply supply_loop_done. exact H.
Qed.

Lemma supply_nonpositive_height_witness :
  supply_at_block (-7) = Ok Py.zero /\ supply_at_block_fuel 0 (-7) = Ok Py.zero.
Proof. apply (supply_nonpositive_height (-7)). lia. Defined.

(** C6, as stated, fails one block past epoch 1024: the call raises
    [OverflowError] (the conversion of [2 ** 1024] to a float), so there is
    no supply to compare. *)
Lemma supply_monotone_fails_beyond : ~ supply_monotone_at 0 (max_height + 1).
Proof.
  intros (s1 & s2 & _ & E & _).
  assert (R : supply_at_block (max_height + 1) = Raise OverflowError)
    by (vm_compute; reflexivity).
  rewrite R in E. discriminate E.
Qed.

(** C6 (amended): for every pair of heights [h1 <= h2] with
    [h2 <= 1024 * HALVING_INTERVAL], both calls return and
    [supply_at_block(h1) <= supply_at_block(h2)]; the supply at height 0 is
    [0.0]. *)
Theorem supply_monotone (h1 h2 : Z) :
  h1 <= h2 -> h2 <= max_height ->
  supply_monotone_at h1 h2 /\ supply_at_block 0 = Ok Py.zero.
Proof.
  intros H12 H2. split; [|reflexivity].
  destruct (supply_good h1 ltac:(lia)) as (s1 & E1 & _).
  destruct (supply_good h2 H2) as (s2 & E2 & _).
  destruct (supply_le h1 h2 s1 s2 H12 H2 E1 E2) as (G1 & G2 & L).
  exists s1, s2. split; [assumption|]. split; [assumption|].
  rewrite leb_good by assumption. apply Z.leb_le. exact L.
Qed.

Lemma supply_monotone_witness :
  supply_monotone_at 100000 840000 /\ supply_at_block 0 = Ok Py.zero.
Proof.
  apply (supply_monotone 100000 840000); [lia|].
  vm_compute. discriminate.
Defined.

(** C3, as stated, fails one block past the last counted epoch:
    [supply_at_block(33 * 210000 + 1)] is above [total_supply()]. *)
Lemma supply_exceeds_total :
  ~ supply_capped_at btc (total_halvings btc * HALVING_INTERVAL + 1).
Proof.
  intros (s & t & Es & Et & L).
  assert (R : supply_at_block (total_halvings btc * HALVING_INTERVAL + 1)
              = Ok (S754_finite false 5637144575343752 (-28)))
    by (vm_compute; reflexivity).
  assert (T : total_supply btc = Ok (S754_finite false 5637144575343750 (-28)))
    by (vm_compute; reflexivity).
  rewrite R in Es. rewrite T in Et.
  injection Es as <-. injection Et as <-. vm_compute in L. discriminate L.
Qed.

(** C3 (amended): for every height from [total_epochs * HALVING_INTERVAL]
    up to [1024 * HALVING_INTERVAL] the call returns a supply between
    [total_supply()] and [21000000.0]; it is strictly above
    [total_supply()] past [total_epochs * HALVING_INTERVAL] and is exactly
    [21000000.0] from [53 * HALVING_INTERVAL] on. *)
Theorem supply_saturates (h : Z) :
  total_halvings btc * HALVING_INTERVAL <= h -> h <= max_height ->
  supply_saturated_at btc h.
Proof.
  intros Hlo Hhi.
  destruct (supply_good h Hhi) as (s & E & G).
  set (t := S754_finite false 5637144575343750 (-28)).
  assert (T : total_supply btc = Ok t) by (vm_compute; reflexivity).
  assert (S33 : supply_at_block (total_halvings btc * HALVING_INTERVAL) = Ok t)
    by (vm_compute; reflexivity).
  assert (Smax : supply_at_block max_height = Ok f_21e6)
    by (vm_compute; reflexivity).
  destruct (supply_le _ h t s Hlo Hhi S33 E) as (Gt & _ & L1).
  destruct (supply_le h max_height s f_21e6 Hhi ltac:(lia) E Smax) as (_ & G21 & L2).
  exists s, t. split; [assumption|]. split; [assumption|].
  split; [rewrite leb_good by assumption; apply Z.leb_le; exact L1|].
  split; [rewrite leb_good by assumption; apply Z.leb_le; exact L2|].
  split.
  - intros Hgt.
    set (u := S754_finite false 5637144575343752 (-28)).
    assert (S33' : supply_at_block (total_halvings btc * HALVING_INTERVAL + 1) = Ok u)
      by (vm_compute; reflexivity).
    destruct (supply_le (total_halvings btc * HALVING_INTERVAL + 1) h u s
                ltac:(lia) Hhi S33' E) as (_ & _ & L3).
    rewrite ltb_good by assumption. apply Z.ltb_lt.
    assert (scaled t < scaled u) by (vm_compute; reflexivity). lia.
  - intros H53.
    assert (S53 : supply_at_block (53 * HALVING_INTERVAL) = Ok f_21e6)
      by (vm_compute; reflexivity).
    destruct (supply_le _ h f_21e6 s H53 Hhi S53 E) as (_ & _ & L4).
    apply scaled_inj; [assumption|assumption|lia].
Qed.

Lemma supply_saturates_witness : supply_saturated_at btc 7000000.
Proof.
  apply (supply_saturates 7000000); vm_compute; discriminate.
Defined.

(** ** The claims about [total_supply] and the percentage boundaries *)

(** C4: the closed form [total_supply()] is within [0.001] of the explicit
    summation over epochs [0 .. total_epochs - 1] (the two floats are in
    fact equal) and within [1] of [21000000]. *)
Theorem closed_form_matches_sum :
  exists t e,
    total_supply btc = Ok t /\ explicit_summation btc = Ok e
    /\ within t e f_0_001 = true /\ within t f_21e6 f_one = true
    /\ t = e.
Proof.
  exists (S754_finite false 5637144575343750 (-28)),
         (S754_finite false 5637144575343750 (-28)).
  repeat split; vm_compute; reflexivity.
Qed.

(** C2: [blocks_to_percentage(0)] is [(0, 0.0)]; [blocks_to_percentage(100)]
    returns after exactly [total_epochs] rounds of its loop, at height
    [total_epochs * HALVING_INTERVAL] with the epoch counter at
    [total_epochs], and the supply at that height is at least [99.999]
    percent of the total supply. *)
Theorem percentage_boundaries :
  blocks_to_percentage btc (Py.Int 0) = Ok (0, Py.zero)
  /\ blocks_to_percentage_walk 0 btc (Py.Int 0) = Ok (0, Py.zero, 0)
  /\ blocks_to_percentage_walk (Z.to_nat (total_halvings btc)) btc (Py.Int 100)
     = Ok (total_halvings btc * HALVING_INTERVAL, f_100, total_halvings btc)
  /\ blocks_to_percentage btc (Py.Int 100)
     = Ok (total_halvings btc * HALVING_INTERVAL, f_100)
  /\ exists s pct,
       supply_at_block (total_halvings btc * HALVING_INTERVAL) = Ok s
       /\ percent_of_total btc s = Ok pct
       /\ Py.leb f_99_999 pct = true.
Proof.
  split; [vm_compute; reflexivity|].
  split; [vm_compute; reflexivity|].
  split; [vm_compute; reflexivity|].
  split; [vm_compute; reflexivity|].
  exists (S754_finite false 5637144575343750 (-28)), f_100.
  repeat split; vm_compute; reflexivity.
Qed.

(** ** The inflation rate, epoch by epoch *)

Lemma inflation_unfold (e : Z) (b : bool) :
  inflation_rate_at_epoch e b
  = (s <- supply_at_block (denominator_height e b) ;; rate_of_supply s e).
Proof. reflexivity. Qed.

Lemma supply_at_boundary (j : nat) :
  (j <= 1024)%nat ->
  supply_at_block (Z.of_nat j * HALVING_INTERVAL) = epoch_supply j.
Proof.
  intros Hj. unfold supply_at_block, supply_at_block_fuel, walk_fuel, epoch_supply.
  replace 1025%nat with (j + (1025 - j))%nat by lia.
  rewrite supply_loop_walk by lia.
  destruct (walk j Py.zero 0) as [s| |]; cbn [bind]; try reflexivity.
  apply supply_loop_done. lia.
Qed.

Lemma walk_S_1 (j : nat) (s s' : Py.float) (e : Z) :
  walk 1 s e = Ok s' -> walk (S j) s e = walk j s' (e + 1).
Proof.
  cbn [walk]. destruct (reward_at e) as [rew| |]; cbn [bind]; try discriminate.
  destruct (Py.imul HALVING_INTERVAL rew) as [inc| |]; cbn [bind]; try discriminate.
  intros H. injection H as <-. reflexivity.
Qed.

Lemma walk_succ (j : nat) (s : Py.float) (e : Z) :
  walk (S j) s e = (s' <- walk j s e ;; walk 1 s' (e + Z.of_nat j)).
Proof.
  rewrite walk_snoc. destruct (walk j s e); reflexivity.
Qed.

Lemma epochs_all_sound (check : Py.float -> Z -> bool) (n : nat) :
  forall s e, epochs_all check n s e = true ->
  forall j, (j < n)%nat ->
  exists sj, walk j s e = Ok sj /\ check sj (e + Z.of_nat j) = true.
Proof.
  induction n as [|n IH]; intros s e H j Hj; [lia|].
  cbn [epochs_all] in H. apply andb_prop in H as [Hc Hn].
  destruct (walk 1 s e) as [s'| |] eqn:W; try discriminate Hn.
  destruct j as [|j].
  - exists s. cbn [walk Z.of_nat]. rewrite Z.add_0_r. split; [reflexivity|assumption].
  - destruct (IH s' (e + 1) Hn j ltac:(lia)) as (sj & Wj & Cj).
    exists sj. rewrite (walk_S_1 j s s' e W).
    replace (e + Z.of_nat (S j)) with (e + 1 + Z.of_nat j) by lia.
    split; assumption.
Qed.

Lemma all_decreasing : epochs_all decreasing_check 1023 Py.zero 0 = true.
Proof. vm_compute. reflexivity. Qed.

Lemma all_defined : epochs_all defined_check 1024 Py.zero 0 = true.
Proof. vm_compute. reflexivity. Qed.

Lemma epoch_supply_succ (j : nat) (sj s' : Py.float) :
  epoch_supply j = Ok sj -> walk 1 sj (Z.of_nat j) = Ok s' ->
  epoch_supply (S j) = Ok s'.
Proof.
  unfold epoch_supply. intros E W. rewrite walk_succ, E. cbn [bind].
  rewrite Z.add_0_l. exact W.
Qed.

(** C7, as stated for every epoch [>= 1], fails at epoch 1023: the call for
    epoch 1024 raises [OverflowError]. *)
Lemma inflation_decreasing_fails_at_1023 : ~ inflation_decreasing_at 1023.
Proof.
  intros (r1 & r2 & _ & E & _).
  assert (R : inflation_rate_at_epoch (1023 + 1) false = Raise OverflowError)
    by (vm_compute; reflexivity).
  rewrite R in E. discriminate E.
Qed.

(** C7 (amended): for every epoch [e] with [1 <= e <= 1022], both calls
    return and [inflation_rate_at_epoch(e + 1) < inflation_rate_at_epoch(e)]
    (start-of-epoch denominator). *)
Theorem inflation_decreasing (e : Z) :
  1 <= e <= 1022 -> inflation_decreasing_at e.
Proof.
  intros He. set (j := Z.to_nat e).
  assert (Hj : Z.of_nat j = e) by (unfold j; lia).
  destruct (epochs_all_sound decreasing_check 1023 Py.zero 0 all_decreasing j
              ltac:(lia)) as (sj & W & C).
  rewrite Z.add_0_l, Hj in C. unfold decreasing_check in C.
  destruct (rate_of_supply sj e) as [r1| |] eqn:R1; try discriminate C.
  destruct (walk 1 sj e) as [s'| |] eqn:W1; try discriminate C.
  destruct (rate_of_supply s' (e + 1)) as [r2| |] eqn:R2; try discriminate C.
  exists r1, r2. rewrite !inflation_unfold. unfold denominator_height.
  rewrite <- Hj in W1.
  pose proof (epoch_supply_succ j sj s' W W1) as W2.
  assert (B1 : supply_at_block (e * HALVING_INTERVAL) = Ok sj).
  { rewrite <- Hj, supply_at_boundary by lia. exact W. }
  assert (B2 : supply_at_block ((e + 1) * HALVING_INTERVAL) = Ok s').
  { replace (e + 1) with (Z.of_nat (S j)) by lia.
    rewrite supply_at_boundary by lia. exact W2. }
  rewrite B1, B2. cbn [bind]. repeat split; assumption.
Qed.

Lemma inflation_decreasing_witness : inflation_decreasing_at 4.
Proof. apply (inflation_decreasing 4). lia. Defined.

(** C8, as stated for all inputs, fails at epoch 1024: the call raises
    [OverflowError] instead of returning a percentage. *)
Lemma inflation_raises_at_1024 : ~ inflation_defined_at 1024 false.
Proof.
  intros (s & r & _ & E & _).
  assert (R : inflation_rate_at_epoch 1024 false = Raise OverflowError)
    by (vm_compute; reflexivity).
  rewrite R in E. discriminate E.
Qed.

(** C8 (amended): for every epoch [0 <= e <= 1023] and either denominator
    the call returns a float: [inf] when the existing supply is zero, which
    is the case exactly for epoch 0 with the start-of-epoch denominator,
    and a positive finite percentage in every other case. *)
Theorem inflation_defined (e : Z) (use_end_supply : bool) :
  0 <= e <= 1023 -> inflation_defined_at e use_end_supply.
Proof.
  intros He. set (j := Z.to_nat e).
  assert (Hj : Z.of_nat j = e) by (unfold j; lia).
  destruct (epochs_all_sound defined_check 1024 Py.zero 0 all_defined j
              ltac:(lia)) as (sj & W & C).
  rewrite Z.add_0_l, Hj in C. unfold defined_check in C.
  destruct (rate_of_supply sj e) as [r1| |] eqn:R1; try discriminate C.
  destruct (walk 1 sj e) as [s'| |] eqn:W1; try discriminate C.
  destruct (rate_of_supply s' e) as [r2| |] eqn:R2; try discriminate C.
  apply andb_prop in C as [C C3]. apply andb_prop in C as [C1 C2].
  rewrite <- Hj in W1.
  pose proof (epoch_supply_succ j sj s' W W1) as W2.
  assert (B1 : supply_at_block (e * HALVING_INTERVAL) = Ok sj).
  { rewrite <- Hj, supply_at_boundary by lia. exact W. }
  assert (B2 : supply_at_block ((e + 1) * HALVING_INTERVAL) = Ok s').
  { replace (e + 1) with (Z.of_nat (S j)) by lia.
    rewrite supply_at_boundary by lia. exact W2. }
  unfold inflation_defined_at. rewrite inflation_unfold.
  destruct use_end_supply; cbn [denominator_height negb].
  - exists s', r2. rewrite B2. cbn [bind]. rewrite andb_false_r.
    split; [reflexivity|]. split; [assumption|].
    split; [apply negb_true_iff; assumption|assumption].
  - exists sj, r1. rewrite B1. cbn [bind]. rewrite andb_true_r.
    split; [reflexivity|]. split; [assumption|].
    destruct (e =? 0).
    + apply andb_prop in C1 as [Ca Cb]. split; [assumption|].
      destruct r1 as [| [|] | |]; try discriminate Cb. reflexivity.
    + apply andb_prop in C1 as [Ca Cb].
      split; [apply negb_true_iff; assumption|assumption].
Qed.

Lemma inflation_defined_witness : inflation_defined_at 0 false.
Proof. apply (inflation_defined 0 false). lia. Defined.

(** ** The percentage search outside its range *)

Lemma aux_sign (m e : Z) (l : location) :
  neg_class (binary_round_aux Py.prec Py.emax true m e l) = true.
Proof.
  unfold binary_round_aux.
  destruct (shr_fexp Py.prec Py.emax m e l) as [mrs' e'].
  destruct (shr_fexp Py.prec Py.emax
              (round_nearest_even (shr_m mrs') (loc_of_shr_record mrs')) e' loc_Exact)
    as [mrs'' e''].
  destruct (shr_m mrs'') as [|p|p]; try reflexivity.
  destruct (e'' <=? Py.emax - Py.prec); reflexivity.
Qed.

Lemma div_neg (x : Py.float) (my : positive) (ey : Z) :
  Py.ltb x Py.zero = true ->
  neg_class (SFdiv Py.prec Py.emax x (S754_finite false my ey)) = true.
Proof.
  destruct x as [s|s| |s m e]; cbn [Py.ltb SFltb SFcompare Py.zero];
    try discriminate.
  - destruct s; [reflexivity|discriminate].
  - destruct s; [|discriminate]. intros _. unfold SFdiv.
    destruct (SFdiv_core_binary Py.prec Py.emax (Zpos m) e (Zpos my) ey)
      as [[mz ez] lz].
    apply aux_sign.
Qed.

Lemma mul_neg (mt : positive) (et : Z) (f : Py.float) :
  neg_class f = true -> neg_class (Py.mul (S754_finite false mt et) f) = true.
Proof.
  destruct f as [s|s| |s m e]; cbn [neg_class]; try discriminate;
    try (destruct s; [|discriminate]); intros _; try reflexivity.
  unfold Py.mul, SFmul. apply aux_sign.
Qed.

Lemma ltb_zero_neg (x : Py.float) : neg_class x = true -> Py.ltb Py.zero x = false.
Proof.
  destruct x as [s|s| |s m e]; cbn [neg_class]; try discriminate;
    try (destruct s; [|discriminate]); reflexivity.
Qed.

Lemma blocks_loop_done (fuel : nat) (t : Py.float) (b : Z) (c : Py.float) (e : Z) :
  Py.ltb c t = false -> blocks_loop fuel t b c e = Ok (b, c, e).
Proof. intros H. destruct fuel; cbn [blocks_loop]; rewrite H; reflexivity. Qed.

Lemma total_supply_btc :
  total_supply btc = Ok (S754_finite false 5637144575343750 (-28)).
Proof. vm_compute. reflexivity. Qed.

Lemma float_of_int_100 : Py.float_of_int 100 = Ok f_100.
Proof. vm_compute. reflexivity. Qed.

(** The result once the loop has not run. *)
Lemma walk_not_entered (fuel : nat) (p : Py.num) (t : Py.float) :
  target_supply_of btc p = Ok t -> Py.ltb Py.zero t = false ->
  blocks_to_percentage_walk fuel btc p = Ok (0, Py.zero, 0).
Proof.
  intros T L. unfold blocks_to_percentage_walk. rewrite T. cbn [bind].
  rewrite blocks_loop_done by assumption. cbn [bind].
  vm_compute. reflexivity.
Qed.

Lemma target_of_float (x : Py.float) :
  target_supply_of btc (Py.Flt x)
  = Ok (Py.mul (S754_finite false 5637144575343750 (-28))
          (SFdiv Py.prec Py.emax x f_100)).
Proof.
  unfold target_supply_of. rewrite total_supply_btc. cbn [bind].
  unfold Py.truediv. cbn [Py.to_float bind]. rewrite float_of_int_100.
  cbn [bind]. reflexivity.
Qed.

(** ** Division, bounded from above *)

Lemma new_location_frac (d r : Z) :
  0 < d -> 0 <= r < d -> new_location d r = loc_frac r d.
Proof.
  intros Hd Hr. unfold new_location, new_location_even, new_location_odd, loc_frac.
  destruct (Z.even d) eqn:Ev; destruct (Z.eqb_spec r 0); try reflexivity.
  f_equal.
  destruct (Z.compare_spec (2 * r + 1) d) as [C|C|C];
    destruct (Z.compare_spec (2 * r) d) as [C'|C'|C']; try reflexivity; try lia.
  subst d. rewrite Z.even_mul in Ev. discriminate Ev.
Qed.

Lemma div_eucl_frac (a d e' : Z) :
  0 < d ->
  (let '(q, r) := Z.div_eucl a d in (q, e', new_location d r))
  = (a / d, e', loc_frac (a mod d) d).
Proof.
  intros Hd. pose proof (Z.mod_pos_bound a d Hd) as Hb.
  unfold Z.div, Z.modulo in *. destruct (Z.div_eucl a d) as [q r].
  cbn [fst snd] in *. rewrite new_location_frac by assumption. reflexivity.
Qed.

Lemma div_core_spec (mx my : positive) (ex ey : Z) :
  let e' := Z.min (fexp64 (Zdigits2 (Zpos mx) + ex - (Zdigits2 (Zpos my) + ey)))
              (ex - ey) in
  let N := Zpos mx * 2 ^ (ex - ey - e') in
  SFdiv_core_binary Py.prec Py.emax (Zpos mx) ex (Zpos my) ey
  = (N / Zpos my, e', loc_frac (N mod Zpos my) (Zpos my)).
Proof.
  intros e' N. unfold SFdiv_core_binary.
  change (fexp Py.prec Py.emax) with fexp64. fold e'.
  assert (Hs : 0 <= ex - ey - e') by (unfold e'; lia).
  unfold N. destruct (ex - ey - e') as [|p|p] eqn:Es; try lia.
  - rewrite div_eucl_frac by lia. rewrite Z.pow_0_r, Z.mul_1_r. reflexivity.
  - rewrite div_eucl_frac by lia. rewrite Z.shiftl_mul_pow2 by lia. reflexivity.
Qed.

Lemma pow2_lt_exp (a b : Z) : 0 <= b -> 2 ^ a < 2 ^ b -> a < b.
Proof.
  intros Hb H. destruct (Z_lt_ge_dec a b) as [|Hge]; [assumption|].
  assert (2 ^ b <= 2 ^ a) by (apply Z.pow_le_mono_r; lia). lia.
Qed.

(** [x / y] for a positive [y] when [|x| <= K * y]: the quotient is a zero
    or a finite float of magnitude at most [K], with the sign of [x]. *)
Lemma div_le (s : bool) (mx my : positive) (ex ey c K : Z) :
  c <= ex -> c <= ey -> 1 <= K <= 2 ^ 40 ->
  Zpos mx * 2 ^ (ex - c) <= K * (Zpos my * 2 ^ (ey - c)) ->
  SFdiv Py.prec Py.emax (S754_finite s mx ex) (S754_finite false my ey)
  = S754_zero s
  \/ exists m e,
       SFdiv Py.prec Py.emax (S754_finite s mx ex) (S754_finite false my ey)
       = S754_finite s m e
       /\ e <= 0 /\ Zpos m <= K * 2 ^ (- e).
Proof.
  intros Hcx Hcy [HK1 HK2] Hle.
  unfold SFdiv. rewrite div_core_spec. rewrite xorb_false_r.
  set (dx := Zdigits2 (Zpos mx)). set (dy := Zdigits2 (Zpos my)).
  set (e' := Z.min (fexp64 (dx + ex - (dy + ey))) (ex - ey)).
  set (N := Zpos mx * 2 ^ (ex - ey - e')).
  set (D := Zpos my).
  assert (HD : 0 < D) by (unfold D; lia).
  pose proof (Zdigits2_bounds (Zpos mx) ltac:(lia)) as [Lx Ux]. fold dx in Lx, Ux.
  pose proof (Zdigits2_bounds (Zpos my) ltac:(lia)) as [Ly Uy]. fold dy in Ly, Uy.
  pose proof (Zdigits2_pos (Zpos mx) ltac:(lia)) as Pdx. fold dx in Pdx.
  pose proof (Zdigits2_pos (Zpos my) ltac:(lia)) as Pdy. fold dy in Pdy.
  assert (Pa : 0 < 2 ^ (ex - c)) by (apply Z.pow_pos_nonneg; lia).
  assert (Pb : 0 < 2 ^ (ey - c)) by (apply Z.pow_pos_nonneg; lia).
  (* magnitude of the quotient *)
  assert (Hmag : dx + ex - (dy + ey) <= 41).
  { assert (H1 : 2 ^ (dx - 1 + (ex - c)) < 2 ^ (40 + dy + (ey - c))).
    { rewrite !Z.pow_add_r by lia.
      assert (0 < 2 ^ 40) by reflexivity.
      assert (0 < 2 ^ (dx - 1)) by (apply Z.pow_pos_nonneg; lia).
      assert (0 < 2 ^ dy) by (apply Z.pow_pos_nonneg; lia).
      assert (2 ^ (dx - 1) * 2 ^ (ex - c) <= Zpos mx * 2 ^ (ex - c)) by nia.
      assert (K * Zpos my < 2 ^ 40 * 2 ^ dy).
      { apply Z.le_lt_trans with (2 ^ 40 * Zpos my);
          [apply Z.mul_le_mono_nonneg_r; lia|apply Z.mul_lt_mono_pos_l; lia]. }
      assert (K * Zpos my * 2 ^ (ey - c) < 2 ^ 40 * 2 ^ dy * 2 ^ (ey - c))
        by (apply Z.mul_lt_mono_pos_r; lia).
      lia. }
    apply pow2_lt_exp in H1; lia. }
  assert (He' : e' <= -12).
  { unfold e'. rewrite fexp64_eq. lia. }
  assert (Hs : 0 <= ex - ey - e') by (unfold e'; lia).
  assert (Ps : 0 < 2 ^ (ex - ey - e')) by (apply Z.pow_pos_nonneg; lia).
  assert (Pe : 0 < 2 ^ (- e')) by (apply Z.pow_pos_nonneg; lia).
  assert (HN0 : 0 < N) by (unfold N; nia).
  (* the exact quotient is at most K *)
  assert (HN : N <= K * D * 2 ^ (- e')).
  { assert (E1 : N * 2 ^ (ey - c) = Zpos mx * 2 ^ (ex - c) * 2 ^ (- e')).
    { unfold N. rewrite <- !Z.mul_assoc, <- !Z.pow_add_r by lia.
      f_equal. f_equal. lia. }
    unfold D. nia. }
  rewrite aux_frac by lia.
  set (q := N / D).
  assert (Hq0 : 0 <= q) by (apply Z.div_pos; lia).
  assert (Hq : q <= K * 2 ^ (- e')).
  { unfold q. apply Z.div_le_upper_bound; [lia|]. nia. }
  assert (P41 : 2 ^ (41 - e') = 2 * 2 ^ 40 * 2 ^ (- e')).
  { replace (41 - e') with (1 + 40 + - e') by lia.
    rewrite !Z.pow_add_r by lia. reflexivity. }
  assert (Hdq : Zdigits2 q + e' <= 41).
  { assert (Zdigits2 q <= 41 - e'); [|lia].
    apply Zdigits2_lt_pow2; [lia|lia|]. rewrite P41.
    assert (0 < 2 ^ 40) by reflexivity. nia. }
  set (k := Z.max (fexp64 (Zdigits2 q + e') - e') 0).
  assert (Hk : 0 <= k) by (unfold k; lia).
  assert (He1 : e' + k <= -12) by (unfold k; rewrite fexp64_eq; lia).
  set (e1 := e' + k) in *.
  assert (Pk : 0 < 2 ^ k) by (apply Z.pow_pos_nonneg; lia).
  assert (Pe1 : 0 < 2 ^ (- e1)) by (apply Z.pow_pos_nonneg; lia).
  assert (Esplit : 2 ^ (- e') = 2 ^ (- e1) * 2 ^ k).
  { rewrite <- Z.pow_add_r by lia. f_equal. unfold e1. lia. }
  set (m2 := rne N (D * 2 ^ k)).
  assert (Hm2 : m2 <= K * 2 ^ (- e1)).
  { apply rne_le; [nia|]. rewrite Esplit in HN. nia. }
  assert (Hm20 : 0 <= m2) by (apply rne_nonneg; nia).
  assert (P41' : 2 ^ (41 - e1) = 2 * 2 ^ 40 * 2 ^ (- e1)).
  { replace (41 - e1) with (1 + 40 + - e1) by lia.
    rewrite !Z.pow_add_r by lia. reflexivity. }
  assert (Hdm : Zdigits2 m2 + e1 <= 41).
  { assert (Zdigits2 m2 <= 41 - e1); [|lia].
    apply Zdigits2_lt_pow2; [lia|lia|]. rewrite P41'.
    assert (0 < 2 ^ 40) by reflexivity. nia. }
  unfold finish.
  set (k2 := Z.max (fexp64 (Zdigits2 m2 + e1) - e1) 0).
  assert (Hk2 : 0 <= k2) by (unfold k2; lia).
  assert (He3 : e1 + k2 <= -12) by (unfold k2; rewrite fexp64_eq; lia).
  assert (Pk2 : 0 < 2 ^ k2) by (apply Z.pow_pos_nonneg; lia).
  assert (Esplit2 : 2 ^ (- e1) = 2 ^ (- (e1 + k2)) * 2 ^ k2).
  { rewrite <- Z.pow_add_r by lia. f_equal. lia. }
  assert (Hm3 : m2 / 2 ^ k2 <= K * 2 ^ (- (e1 + k2))).
  { apply Z.div_le_upper_bound; [lia|]. rewrite Esplit2 in Hm2. nia. }
  destruct (m2 / 2 ^ k2) as [|p|p] eqn:Em3.
  - left. reflexivity.
  - right. exists p, (e1 + k2). change (Py.emax - Py.prec) with 971.
    destruct (Z.leb_spec (e1 + k2) 971); [|lia].
    split; [reflexivity|]. split; [lia|assumption].
  - exfalso. assert (0 <= m2 / 2 ^ k2) by (apply Z.div_pos; lia). lia.
Qed.

(** ** Multiplication by a factor at most one, and truncation *)

Lemma mul_le (mx my : positive) (ex ey : Z) :
  good (S754_finite false mx ex) -> 2 ^ 52 <= Zpos mx ->
  ey <= 0 -> Zpos my <= 2 ^ (- ey) ->
  good (Py.mul (S754_finite false mx ex) (S754_finite false my ey))
  /\ scaled (Py.mul (S754_finite false mx ex) (S754_finite false my ey))
     <= scaled (S754_finite false mx ex).
Proof.
  intros Gx Hn Hey Hmy.
  destruct (good_finite _ _ _ Gx) as (_ & Bx & Ex & Sx).
  assert (Hb : scaled (S754_finite false mx ex) <= scaled_bound) by apply Gx.
  rewrite Sx in *. unfold Py.mul, SFmul. cbn [xorb]. rewrite Pos2Z.inj_mul.
  set (M := Zpos mx * Zpos my). set (E := ex + ey).
  assert (HM : 0 < M) by (unfold M; lia).
  assert (HM52 : 2 ^ 52 <= M) by (unfold M; nia).
  pose proof (Zdigits2_ge_pow2 M 52 ltac:(lia) HM52) as Hd53.
  pose proof (Zdigits2_bounds (Zpos mx) ltac:(lia)) as [_ Ux].
  pose proof (bounded_elim _ _ Bx) as [Fx _]. rewrite fexp64_eq in Fx.
  assert (Hdx : Zdigits2 (Zpos mx) <= 53) by lia.
  assert (Pey : 0 < 2 ^ (- ey)) by (apply Z.pow_pos_nonneg; lia).
  assert (HMle : M <= Zpos mx * 2 ^ (- ey)) by (unfold M; nia).
  assert (HdM : Zdigits2 M <= 53 - ey).
  { apply Zdigits2_lt_pow2; [lia|lia|].
    replace (53 - ey) with (53 + - ey) by lia. rewrite Z.pow_add_r by lia.
    assert (2 ^ Zdigits2 (Zpos mx) <= 2 ^ 53) by (apply Z.pow_le_mono_r; lia).
    nia. }
  assert (Hex : ex <= 874).
  { assert (H : 2 ^ (52 + (ex + 1074)) <= 2 ^ 2000).
    { rewrite Z.pow_add_r by lia. unfold scaled_bound in Hb.
      assert (0 < 2 ^ (ex + 1074)) by (apply Z.pow_pos_nonneg; lia). nia. }
    destruct (Z_le_gt_dec ex 874) as [|Hgt]; [assumption|].
    assert (2 ^ 2000 < 2 ^ (52 + (ex + 1074))) by (apply Z.pow_lt_mono_r; lia).
    lia. }
  set (t := fexp64 (Zdigits2 M + E)).
  assert (Ht : t = Z.max (Zdigits2 M + E - 53) (-1074)) by apply fexp64_eq.
  assert (HtE : E <= t) by (unfold E in *; lia).
  assert (Htx : t <= ex) by (unfold E in *; lia).
  destruct (aux_spec false M E HM HtE ltac:(unfold E; lia))
    as [[_ R]|(p & e & R & B & Hte & Hm)]; rewrite R.
  - split; [reflexivity|]. cbn [scaled].
    assert (0 < 2 ^ (ex + 1074)) by (apply Z.pow_pos_nonneg; lia). nia.
  - fold t in Hte, Hm.
    assert (Pt : 0 < 2 ^ (t - E)) by (apply Z.pow_pos_nonneg; lia).
    assert (Hr : rne M (2 ^ (t - E)) <= Zpos mx * 2 ^ (ex - t)).
    { apply rne_le; [assumption|].
      rewrite <- Z.mul_assoc, <- Z.pow_add_r by lia.
      replace (ex - t + (t - E)) with (- ey) by (unfold E; lia). exact HMle. }
    assert (Hsc : Zpos p * 2 ^ (e + 1074) <= Zpos mx * 2 ^ (ex + 1074)).
    { replace (e + 1074) with (e - t + (t + 1074)) by lia.
      replace (ex + 1074) with (ex - t + (t + 1074)) by lia.
      rewrite (Z.pow_add_r 2 (e - t) (t + 1074)) by lia.
      rewrite (Z.pow_add_r 2 (ex - t) (t + 1074)) by lia.
      rewrite !Z.mul_assoc, Hm.
      apply Z.mul_le_mono_nonneg_r; [|exact Hr].
      apply Z.pow_nonneg. lia. }
    cbn [good scaled]. rewrite Z.mul_1_l. split; [|assumption].
    split; [reflexivity|]. split; [assumption|lia].
Qed.

Lemma trunc_le (m : positive) (e K : Z) :
  e <= 0 -> Zpos m <= K * 2 ^ (- e) ->
  exists bn, Py.trunc (S754_finite false m e) = Ok bn /\ 0 <= bn <= K.
Proof.
  intros He Hm. unfold Py.trunc. destruct e as [|k|k]; try lia.
  - exists (Zpos m). cbn [Z.opp] in Hm. rewrite Z.pow_0_r in Hm.
    split; [reflexivity|lia].
  - exists (Z.shiftr (Zpos m) (Zpos k)). split; [reflexivity|].
    rewrite Z.shiftr_div_pow2 by lia. cbn [Z.opp] in Hm.
    assert (0 < 2 ^ Zpos k) by (apply Z.pow_pos_nonneg; lia).
    split; [apply Z.div_pos; lia|].
    apply Z.div_le_upper_bound; [lia|]. nia.
Qed.

Lemma leb_bounded (m m' : positive) (e e' : Z) :
  bounded Py.prec Py.emax m e = true -> bounded Py.prec Py.emax m' e' = true ->
  Py.leb (S754_finite false m e) (S754_finite false m' e') = true ->
  Zpos m * 2 ^ (e + 1074) <= Zpos m' * 2 ^ (e' + 1074).
Proof.
  intros B B' H. unfold Py.leb, SFleb, SFcompare in H.
  destruct (Z.compare_spec e e') as [E|E|E].
  - subst e'. rewrite Pos.compare_cont_spec in H. cbn [Pos.switch_Eq] in H.
    pose proof (bounded_elim _ _ B) as [F _]. rewrite fexp64_eq in F.
    assert (0 < 2 ^ (e + 1074)) by (apply Z.pow_pos_nonneg; lia).
    change (Pos.compare m m') with (Zpos m ?= Zpos m') in H.
    destruct (Z.compare_spec (Zpos m) (Zpos m')) as [C|C|C];
      try discriminate H; nia.
  - pose proof (canon_lt m m' e e' B B' E). lia.
  - discriminate H.
Qed.

(** ** The target supply of a percentage in range *)

Lemma f_total_good : good f_total.
Proof.
  cbn [good f_total]. split; [reflexivity|]. split; [reflexivity|].
  vm_compute. discriminate.
Qed.

Lemma f_total_normal : 2 ^ 52 <= Zpos 5637144575343750.
Proof. vm_compute. discriminate. Qed.

Lemma target_of_frac (frac : Py.float) :
  frac = S754_zero false
  \/ (exists m e, frac = S754_finite false m e /\ e <= 0 /\ Zpos m <= 1 * 2 ^ (- e)) ->
  good (Py.mul f_total frac) /\ scaled (Py.mul f_total frac) <= scaled f_total.
Proof.
  intros [->|(m & e & -> & He & Hm)].
  - split; [reflexivity|]. apply (good_scaled_nonneg f_total f_total_good).
  - apply mul_le; [exact f_total_good|exact f_total_normal|assumption|lia].
Qed.

Lemma target_in_range (p : Py.num) :
  in_range p ->
  exists t,
    target_supply_of btc p = Ok t
    /\ (Py.ltb Py.zero t = false \/ (good t /\ scaled t <= scaled f_total)).
Proof.
  destruct p as [z|x]; cbn [in_range].
  - intros [Hz0 Hz].
    unfold target_supply_of. rewrite total_supply_btc. cbn [bind].
    unfold Py.truediv. change (100 =? 0) with false. cbv iota.
    destruct z as [|q|q]; try lia.
    + eexists. split; [reflexivity|]. left. reflexivity.
    + cbn [Py.raw_of_int].
      destruct (div_le false q 100 0 0 0 1 ltac:(lia) ltac:(lia)
                  ltac:(split; [lia|vm_compute; discriminate]) ltac:(cbn; lia))
        as [E|(m & e & E & He & Hm)]; rewrite E; cbn [bind].
      * eexists. split; [reflexivity|]. left. reflexivity.
      * eexists. split; [reflexivity|]. right.
        apply (target_of_frac (S754_finite false m e)). right.
        exists m, e. auto.
  - intros (V & L0 & L100). rewrite target_of_float.
    eexists. split; [reflexivity|].
    change (S754_finite false 5637144575343750 (-28)) with f_total.
    destruct x as [s|s| |s m e].
    + left. destruct s; reflexivity.
    + destruct s; [discriminate L0|discriminate L100].
    + discriminate L0.
    + destruct s; [discriminate L0|]. cbn [valid_binary] in V.
      assert (B100 : bounded Py.prec Py.emax 7036874417766400 (-46) = true)
        by reflexivity.
      pose proof (leb_bounded m 7036874417766400 e (-46) V B100 L100) as Hle.
      pose proof (bounded_elim _ _ V) as [F _]. rewrite fexp64_eq in F.
      right. apply target_of_frac.
      destruct (div_le false m 7036874417766400 e (-46) (-1074) 1 ltac:(lia) ltac:(lia)
                  ltac:(split; [lia|vm_compute; discriminate]))
        as [E|(mq & eq & E & He & Hm)].
      * replace (e - -1074) with (e + 1074) by lia.
        replace (-46 - -1074) with (-46 + 1074) by lia. lia.
      * left. exact E.
      * right. exists mq, eq. auto.
Qed.

(** ** The loop of [blocks_to_percentage] *)

Lemma blocks_loop_step (fuel : nat) (t : Py.float) (b : Z) (c : Py.float) (e : Z) :
  Py.ltb c t = true ->
  blocks_loop (S fuel) t b c e
  = (reward <- reward_at e ;;
     full <- Py.imul HALVING_INTERVAL reward ;;
     if Py.geb (Py.sub t c) full then
       inc <- Py.imul HALVING_INTERVAL reward ;;
       blocks_loop fuel t (b + HALVING_INTERVAL) (Py.add c inc) (e + 1)
     else
       q <- Py.div (Py.sub t c) reward ;;
       blocks_needed <- Py.trunc q ;;
       inc <- Py.imul blocks_needed reward ;;
       Ok (b + blocks_needed, Py.add c inc, e)).
Proof. intros H. cbn [blocks_loop]. rewrite H. reflexivity. Qed.

Lemma epoch_supply_33 : epoch_supply 33 = Ok f_total.
Proof. vm_compute. reflexivity. Qed.

Lemma rg_one : rg 1 = 1.
Proof. reflexivity. Qed.

(** From the state at the start of epoch [j], the search returns a height
    and a cumulative supply that [supply_at_block] reproduces. *)
Lemma blocks_loop_spec (k : nat) :
  forall (j fuel : nat) (tgt sj : Py.float),
  (j + k = 33)%nat -> (k <= fuel)%nat ->
  good tgt -> scaled tgt <= scaled f_total ->
  epoch_supply j = Ok sj ->
  exists b c e',
    blocks_loop fuel tgt (Z.of_nat j * HALVING_INTERVAL) sj (Z.of_nat j)
    = Ok (b, c, e')
    /\ supply_at_block b = Ok c.
Proof.
  pose proof HI_pos as HP. pose proof HI_small as HS.
  induction k as [|k IH]; intros j fuel tgt sj Hjk Hf Gt Ht Ej.
  - assert (j = 33)%nat by lia. subst j.
    rewrite epoch_supply_33 in Ej. injection Ej as <-.
    assert (L : Py.ltb f_total tgt = false).
    { rewrite ltb_good by (try assumption; apply f_total_good).
      apply Z.ltb_ge. exact Ht. }
    rewrite blocks_loop_done by assumption.
    eexists _, _, _. split; [reflexivity|].
    rewrite supply_at_boundary by lia. exact epoch_supply_33.
  - destruct (Py.ltb sj tgt) eqn:L.
    2:{ rewrite blocks_loop_done by assumption.
        eexists _, _, _. split; [reflexivity|].
        rewrite supply_at_boundary by lia. exact Ej. }
    destruct fuel as [|fuel]; [lia|].
    destruct (in_epoch j HALVING_INTERVAL ltac:(lia) ltac:(lia))
      as (sj' & rew & full & E' & Gs & R & Gr & Pr & X & Gfull & Sfull & _ & Bd & _ & _).
    assert (sj' = sj) by congruence. subst sj'.
    destruct (epoch_facts j ltac:(lia))
      as (sj' & rew' & full' & E2 & _ & R2 & _ & _ & X2 & SF & _).
    assert (rew' = rew) by congruence. subst rew'.
    assert (full' = full) by congruence. subst full'.
    rewrite ltb_good in L by assumption. apply Z.ltb_lt in L.
    pose proof (good_scaled_nonneg sj Gs) as Ns.
    assert (Hsub : Py.sub tgt sj = rnd (scaled tgt - scaled sj))
      by (apply sub_spec; assumption).
    assert (Htb : scaled tgt <= scaled_bound).
    { destruct tgt as [s|s| |s m e]; try contradiction.
      - cbn [scaled] in L. lia.
      - apply Gt. }
    destruct (rnd_good (scaled tgt - scaled sj) ltac:(lia)) as [Grem Srem].
    assert (Prem : 0 < scaled (rnd (scaled tgt - scaled sj))).
    { rewrite Srem. pose proof (rg_mono 1 (scaled tgt - scaled sj) ltac:(lia)).
      rewrite rg_one in H. lia. }
    rewrite blocks_loop_step by (rewrite ltb_good by assumption; apply Z.ltb_lt; exact L).
    rewrite R. cbn [bind]. rewrite X. cbn [bind]. rewrite Hsub.
    unfold Py.geb. change SFleb with Py.leb. rewrite leb_good by assumption.
    destruct (Z.leb_spec (scaled full) (scaled (rnd (scaled tgt - scaled sj))))
      as [Hfull|Hpart]; cbv iota.
    + (* a whole epoch *)
      assert (W1 : walk 1 sj (Z.of_nat j) = Ok (Py.add sj full)).
      { cbn [walk]. rewrite R. cbn [bind]. rewrite X. reflexivity. }
      pose proof (epoch_supply_succ j sj _ Ej W1) as Esucc.
      destruct (IH (S j) fuel tgt (Py.add sj full) ltac:(lia) ltac:(lia) Gt Ht Esucc)
        as (b & c & e' & Hloop & Hsup).
      exists b, c, e'. split; [|exact Hsup].
      replace (Z.of_nat j * HALVING_INTERVAL + HALVING_INTERVAL)
        with (Z.of_nat (S j) * HALVING_INTERVAL) by lia.
      replace (Z.of_nat j + 1) with (Z.of_nat (S j)) by lia.
      exact Hloop.
    + (* the partial epoch *)
      destruct (rnd (scaled tgt - scaled sj)) as [s|s| |s mr er] eqn:Erem;
        try contradiction; [cbn [scaled] in Prem; lia|].
      destruct rew as [s'|s'| |s' mw ew]; try contradiction;
        [cbn [scaled] in Pr; lia|].
      destruct (good_finite _ _ _ Grem) as (-> & Br & Er & Sr).
      destruct (good_finite _ _ _ Gr) as (-> & Bw & Ew & Sw).
      unfold Py.div. cbn [Py.is_zero bind].
      assert (Hq : Zpos mr * 2 ^ (er - -1074)
                   <= HALVING_INTERVAL * (Zpos mw * 2 ^ (ew - -1074))).
      { replace (er - -1074) with (er + 1074) by lia.
        replace (ew - -1074) with (ew + 1074) by lia.
        rewrite <- Sr, <- Sw. rewrite SF in Hpart. lia. }
      assert (Hbn : exists bn,
                 Py.trunc (SFdiv Py.prec Py.emax (S754_finite false mr er)
                             (S754_finite false mw ew)) = Ok bn
                 /\ 0 <= bn <= HALVING_INTERVAL).
      { destruct (div_le false mr mw er ew (-1074) HALVING_INTERVAL ltac:(lia) ltac:(lia)
                    ltac:(split; [lia|vm_compute; discriminate]) Hq)
          as [E0|(m & e & E0 & He & Hm)]; rewrite E0.
        - exists 0. split; [reflexivity|lia].
        - apply trunc_le; assumption. }
      destruct Hbn as (bn & Tbn & Hbn). rewrite Tbn. cbn [bind].
      destruct (Z.eq_dec bn 0) as [->|Nz].
      * assert (I0 : Py.imul 0 (S754_finite false mw ew) = Ok Py.zero)
          by reflexivity.
        rewrite I0. cbn [bind].
        assert (A0 : Py.add sj Py.zero = sj).
        { rewrite add_spec by (try assumption; reflexivity).
          change (scaled Py.zero) with 0. rewrite Z.add_0_r.
          apply rnd_scaled. assumption. }
        rewrite A0. eexists _, _, _. split; [reflexivity|].
        rewrite Z.add_0_r, supply_at_boundary by lia. exact Ej.
      * destruct (in_epoch j bn ltac:(lia) ltac:(lia))
          as (sj3 & rew3 & x & E3 & _ & R3 & _ & _ & X3 & _).
        assert (sj3 = sj) by congruence. subst sj3.
        assert (rew3 = S754_finite false mw ew) by congruence. subst rew3.
        rewrite X3. cbn [bind].
        eexists _, _, _. split; [reflexivity|].
        rewrite supply_at_block_split by lia.
        rewrite Ej. cbn [bind]. rewrite R. cbn [bind]. rewrite X3. reflexivity.
Qed.

Lemma percent_of_total_eq (c : Py.float) :
  percent_of_total btc c = Ok (Py.mul (SFdiv Py.prec Py.emax c f_total) f_100).
Proof.
  unfold percent_of_total. rewrite total_supply_btc. cbn [bind].
  unfold Py.div. cbn [Py.is_zero bind]. unfold Py.fmuli.
  rewrite float_of_int_100. reflexivity.
Qed.

Lemma walk_result (fuel : nat) (p : Py.num) (t : Py.float) (b : Z)
    (c : Py.float) (e' : Z) :
  target_supply_of btc p = Ok t ->
  blocks_loop fuel t 0 Py.zero 0 = Ok (b, c, e') ->
  blocks_to_percentage_walk fuel btc p
  = Ok (b, Py.mul (SFdiv Py.prec Py.emax c f_total) f_100, e').
Proof.
  intros T L. unfold blocks_to_percentage_walk. rewrite T. cbn [bind].
  rewrite L. cbn [bind]. rewrite total_supply_btc. cbn [bind].
  unfold Py.div. cbn [Py.is_zero bind]. unfold Py.fmuli.
  rewrite float_of_int_100. reflexivity.
Qed.

(** C9: for every percentage in [[0, 100]] the call returns, and the exact
    percentage it returns is [supply_at_block(h) / total_supply() * 100]
    for the returned height [h]: the supply accumulated by the search is
    the float that [supply_at_block] computes at that height. *)
Theorem percentage_consistent (p : Py.num) :
  in_range p -> percentage_consistent_at btc p.
Proof.
  intros Hp. destruct (target_in_range p Hp) as (t & T & [L|[Gt Ht]]).
  - exists 0, (Py.mul (SFdiv Py.prec Py.emax Py.zero f_total) f_100), Py.zero.
    split; [|split].
    + unfold blocks_to_percentage.
      rewrite (walk_result walk_fuel p t 0 Py.zero 0 T
                 (blocks_loop_done walk_fuel t 0 Py.zero 0 L)).
      reflexivity.
    + reflexivity.
    + apply percent_of_total_eq.
  - destruct (blocks_loop_spec 33 0 walk_fuel t Py.zero ltac:(lia)
                ltac:(unfold walk_fuel; lia) Gt Ht ltac:(reflexivity))
      as (b & c & e' & Hloop & Hsup).
    change (Z.of_nat 0 * HALVING_INTERVAL) with 0 in Hloop.
    change (Z.of_nat 0) with 0 in Hloop.
    exists b, (Py.mul (SFdiv Py.prec Py.emax c f_total) f_100), c.
    split; [|split].
    + unfold blocks_to_percentage.
      rewrite (walk_result walk_fuel p t b c e' T Hloop). reflexivity.
    + exact Hsup.
    + apply percent_of_total_eq.
Qed.

Lemma percentage_consistent_witness : percentage_consistent_at btc (Py.Int 90).
Proof. apply (percentage_consistent (Py.Int 90)). cbn [in_range]. lia. Defined.

(** ** The claim about out-of-range percentages *)

Lemma target_of_negative (p : Py.num) :
  negative_arg p ->
  exists t, target_supply_of btc p = Ok t /\ Py.ltb Py.zero t = false.
Proof.
  destruct p as [z|x]; cbn [negative_arg].
  - intros [Hlo Hz]. destruct z as [|q|q]; try lia.
    unfold target_supply_of. rewrite total_supply_btc. cbn [bind].
    unfold Py.truediv. change (100 =? 0) with false. cbv iota.
    cbn [Py.raw_of_int].
    assert (Hq : Zpos q <= 2 ^ 40) by lia.
    destruct (div_le true q 100 0 0 0 (2 ^ 40) ltac:(lia) ltac:(lia)
                ltac:(split; [vm_compute; discriminate|lia]))
      as [E|(m & e & E & _ & _)].
    + rewrite Z.sub_0_r, Z.pow_0_r. lia.
    + rewrite E. cbn [bind]. eexists. split; [reflexivity|]. reflexivity.
    + rewrite E. cbn [bind]. eexists. split; [reflexivity|].
      apply ltb_zero_neg, mul_neg. reflexivity.
  - intros Hx. rewrite target_of_float. eexists. split; [reflexivity|].
    apply ltb_zero_neg, mul_neg. apply div_neg. exact Hx.
Qed.

(** C1, as stated, fails at [-5.0]: the call is not rejected, it returns
    [(0, 0.0)]; and at [150] the loop is entered (an allowance of zero
    rounds runs out) instead of the call being rejected before it. *)
Lemma percentage_not_validated :
  ~ rejected_before_loop btc (Py.Flt f_minus_5)
  /\ ~ rejected_before_loop btc (Py.Int 150).
Proof.
  split; intros (e & E).
  - assert (R : blocks_to_percentage_walk 0 btc (Py.Flt f_minus_5)
                = Ok (0, Py.zero, 0)) by (vm_compute; reflexivity).
    rewrite R in E. discriminate E.
  - assert (R : blocks_to_percentage_walk 0 btc (Py.Int 150) = OutOfFuel)
      by (vm_compute; reflexivity).
    rewrite R in E. discriminate E.
Qed.

(** C1 (amended): [blocks_to_percentage] does not validate its argument.
    For every negative float percentage ([-inf] included) and every
    negative int percentage down to [-2^40] it reports no failure: no
    round of the epoch-walking loop runs and the result is [(0, 0.0)]. *)
Theorem negative_percentage_returns_zero (p : Py.num) :
  negative_arg p ->
  blocks_to_percentage_walk 0 btc p = Ok (0, Py.zero, 0)
  /\ blocks_to_percentage btc p = Ok (0, Py.zero).
Proof.
  intros Hp. destruct (target_of_negative p Hp) as (t & T & L). split.
  - apply (walk_not_entered 0 p t T L).
  - unfold blocks_to_percentage.
    rewrite (walk_not_entered walk_fuel p t T L). reflexivity.
Qed.

Lemma negative_percentage_returns_zero_witness :
  blocks_to_percentage_walk 0 btc (Py.Int (-5)) = Ok (0, Py.zero, 0)
  /\ blocks_to_percentage btc (Py.Int (-5)) = Ok (0, Py.zero).
Proof.
  apply (negative_percentage_returns_zero (Py.Int (-5))).
  cbn [negative_arg]. split; [vm_compute; discriminate|lia].
Defined.

(** ** The allowance of 1025 rounds is never exhausted *)

Lemma reward_at_overflow (e : Z) : 1024 <= e -> reward_at e = Raise OverflowError.
Proof.
  intros He. unfold reward_at, Py.pow2.
  destruct (Z.leb_spec 0 e); [|lia].
  unfold Py.truediv. cbn [Py.to_float bind]. unfold Py.float_of_int.
  assert (D : Zdigits2 (2 ^ e) = e + 1).
  { rewrite <- (Z.mul_1_l (2 ^ e)). rewrite Zdigits2_mul_pow2 by lia.
    cbn [Zdigits2 digits2_pos]. lia. }
  rewrite D. change Py.emax with 1024.
  destruct (Z.ltb_spec 1024 (e + 1)); [reflexivity|lia].
Qed.

Lemma supply_loop_overflow (j : nat) (h : Z) :
  j = 1024%nat -> Z.of_nat j * HALVING_INTERVAL < h ->
  supply_loop (j + 1) h Py.zero 0 0 = Raise OverflowError.
Proof.
  intros Hj H. pose proof HI_pos as HP.
  rewrite supply_loop_walk by lia.
  destruct (epoch_supply_good j ltac:(lia)) as (s & E & _).
  unfold epoch_supply in E. rewrite E. cbn [bind].
  rewrite supply_loop_step by lia.
  rewrite reward_at_overflow by lia. reflexivity.
Qed.

Lemma supply_at_block_unfold (h : Z) :
  supply_at_block h = supply_loop walk_fuel h Py.zero 0 0.
Proof. reflexivity. Qed.

Lemma supply_beyond (h : Z) :
  max_height < h -> supply_at_block h = Raise OverflowError.
Proof.
  intros H. unfold max_height in H.
  rewrite supply_at_block_unfold. unfold walk_fuel.
  replace 1025%nat with (1024 + 1)%nat by lia.
  apply supply_loop_overflow; [reflexivity|lia].
Qed.

(** C10, as stated, fails: [supply_at_block] is not total over the
    integers.  One block past epoch 1024 the call raises [OverflowError]
    instead of returning a supply. *)
Lemma supply_not_total : ~ supply_returns_at (max_height + 1).
Proof.
  intros (s & E).
  rewrite supply_beyond in E by (unfold max_height, HALVING_INTERVAL; lia).
  discriminate E.
Qed.

Lemma supply_returns (h : Z) : supply_at_block h <> OutOfFuel.
Proof.
  destruct (Z_le_gt_dec h max_height) as [Hle|Hgt].
  - destruct (supply_good h Hle) as (s & E & _). rewrite E. discriminate.
  - rewrite supply_beyond by lia. discriminate.
Qed.

Lemma supply_loop_more (k fuel : nat) :
  forall h s p e,
  supply_loop fuel h s p e <> OutOfFuel ->
  supply_loop (fuel + k) h s p e = supply_loop fuel h s p e.
Proof.
  induction fuel as [|fuel IH]; intros h s p e H; cbn [supply_loop Nat.add] in *.
  - destruct (p <? h) eqn:E; [contradiction H; reflexivity|].
    destruct k; cbn [supply_loop]; rewrite E; reflexivity.
  - destruct (p <? h); [|reflexivity].
    destruct (reward_at e) as [rew| |]; cbn [bind] in *; try reflexivity.
    destruct (Py.imul (Z.min HALVING_INTERVAL (h - p)) rew) as [inc| |];
      cbn [bind] in *; try reflexivity.
    apply IH. exact H.
Qed.

(** Any larger allowance gives [supply_at_block] the same result. *)
Lemma supply_fuel_enough (fuel : nat) (h : Z) :
  (1025 <= fuel)%nat -> supply_at_block_fuel fuel h = supply_at_block h.
Proof.
  intros H. rewrite supply_at_block_unfold. unfold supply_at_block_fuel.
  replace fuel with (walk_fuel + (fuel - 1025))%nat by (unfold walk_fuel; lia).
  apply supply_loop_more. rewrite <- supply_at_block_unfold.
  apply supply_returns.
Qed.

Lemma float_of_int_returns (z : Z) : Py.float_of_int z <> OutOfFuel.
Proof.
  unfold Py.float_of_int. destruct (Py.emax <? Zdigits2 z); [discriminate|].
  destruct (Py.of_scaled z 0); discriminate.
Qed.

Lemma imul_returns (n : Z) (x : Py.float) : Py.imul n x <> OutOfFuel.
Proof.
  unfold Py.imul. pose proof (float_of_int_returns n) as H.
  destruct (Py.float_of_int n); cbn [bind]; try discriminate. contradiction.
Qed.

Lemma div_returns (x y : Py.float) : Py.div x y <> OutOfFuel.
Proof. unfold Py.div. destruct (Py.is_zero y); discriminate. Qed.

Lemma trunc_returns (x : Py.float) : Py.trunc x <> OutOfFuel.
Proof. destruct x; discriminate. Qed.

Lemma truediv_returns (a b : Py.num) : Py.truediv a b <> OutOfFuel.
Proof.
  destruct a as [x|x]; destruct b as [y|y]; unfold Py.truediv; cbn [Py.to_float bind].
  - destruct (y =? 0); [discriminate|].
    destruct (SFdiv Py.prec Py.emax (Py.raw_of_int x) (Py.raw_of_int y)); discriminate.
  - pose proof (float_of_int_returns x) as H.
    destruct (Py.float_of_int x); cbn [bind]; try discriminate;
      [apply div_returns|contradiction].
  - pose proof (float_of_int_returns y) as H.
    destruct (Py.float_of_int y); cbn [bind]; try discriminate;
      [apply div_returns|contradiction].
  - apply div_returns.
Qed.

Lemma reward_at_returns (e : Z) : reward_at e <> OutOfFuel.
Proof. apply truediv_returns. Qed.

Lemma blocks_loop_returns (fuel : nat) :
  forall t b c e,
  0 <= e <= 1024 -> 1025 - e <= Z.of_nat fuel ->
  blocks_loop fuel t b c e <> OutOfFuel.
Proof.
  induction fuel as [|fuel IH]; intros t b c e He Hf; [cbn [Z.of_nat] in Hf; lia|].
  cbn [blocks_loop]. destruct (Py.ltb c t); [|discriminate].
  destruct (Z.eq_dec e 1024) as [->|Ne].
  - rewrite reward_at_overflow by lia. discriminate.
  - pose proof (reward_at_returns e) as Hr.
    destruct (reward_at e) as [rew| |]; cbn [bind]; try discriminate;
      [|contradiction].
    pose proof (imul_returns HALVING_INTERVAL rew) as Hi.
    destruct (Py.imul HALVING_INTERVAL rew) as [full| |]; cbn [bind];
      try discriminate; [|contradiction].
    destruct (Py.geb (Py.sub t c) full).
    + apply IH; lia.
    + pose proof (div_returns (Py.sub t c) rew) as Hd.
      destruct (Py.div (Py.sub t c) rew) as [q| |]; cbn [bind];
        try discriminate; [|contradiction].
      pose proof (trunc_returns q) as Ht.
      destruct (Py.trunc q) as [bn| |]; cbn [bind]; try discriminate;
        [|contradiction].
      pose proof (imul_returns bn rew) as Hb.
      destruct (Py.imul bn rew) as [inc| |]; cbn [bind]; try discriminate.
      contradiction.
Qed.

(** [blocks_to_percentage] returns or raises for every argument. *)
Lemma blocks_to_percentage_returns (p : Py.num) :
  blocks_to_percentage btc p <> OutOfFuel.
Proof.
  unfold blocks_to_percentage, blocks_to_percentage_walk, target_supply_of.
  rewrite total_supply_btc. cbn [bind].
  pose proof (truediv_returns p (Py.Int 100)) as Hd.
  destruct (Py.truediv p (Py.Int 100)) as [frac| |]; cbn [bind];
    try discriminate; [|contradiction].
  pose proof (blocks_loop_returns walk_fuel
                (Py.mul (S754_finite false 5637144575343750 (-28)) frac)
                0 Py.zero 0 ltac:(lia) ltac:(unfold walk_fuel; lia)) as Hl.
  destruct (blocks_loop walk_fuel _ 0 Py.zero 0) as [[[b c] e]| |]; cbn [bind];
    [|intros Q; discriminate Q|contradiction].
  unfold Py.div. cbn [Py.is_zero bind]. unfold Py.fmuli.
  rewrite float_of_int_100. cbn [bind]. intros Q. discriminate Q.
Qed.

(** * Further properties of the engine *)

(** ** Values that round to themselves *)

Lemma rg_exact (M k : Z) : 0 <= M < 2 ^ 53 -> 0 <= k -> rg (M * 2 ^ k) = M * 2 ^ k.
Proof.
  intros [H0 H] Hk. destruct (Z.eq_dec M 0) as [->|Hz]; [reflexivity|].
  assert (HM : 0 < M) by lia.
  pose proof (Zdigits2_pos M HM) as Hd.
  pose proof (Zdigits2_lt_pow2 M 53 ltac:(lia) ltac:(lia) H) as Hd'.
  unfold rg.
  assert (G : grid (M * 2 ^ k) = Z.max (Zdigits2 M + k - 53) 0).
  { unfold grid. rewrite Zdigits2_mul_pow2 by lia. reflexivity. }
  rewrite G. set (g := Z.max (Zdigits2 M + k - 53) 0).
  assert (Hg : 0 <= g <= k) by (unfold g; lia).
  replace (M * 2 ^ k) with (M * 2 ^ (k - g) * 2 ^ g).
  - rewrite rne_exact; [reflexivity|]. apply Z.pow_pos_nonneg; lia.
  - rewrite <- Z.mul_assoc, <- Z.pow_add_r by lia. f_equal. f_equal. lia.
Qed.

Lemma mul_comm (x y : Py.float) : Py.mul x y = Py.mul y x.
Proof.
  unfold Py.mul, SFmul.
  destruct x as [sx|sx| |sx mx ex]; destruct y as [sy|sy| |sy my ey];
    try reflexivity; try (rewrite xorb_comm; reflexivity).
  rewrite xorb_comm, Pos.mul_comm, Z.add_comm. reflexivity.
Qed.

Lemma forall_from_sound (check : Z -> bool) (n : nat) :
  forall e, forall_from check n e = true ->
  forall j, (j < n)%nat -> check (e + Z.of_nat j) = true.
Proof.
  induction n as [|n IH]; intros e H j Hj; [lia|].
  cbn [forall_from] in H. apply andb_prop in H as [H1 H2].
  destruct j as [|j].
  - rewrite Z.add_0_r. exact H1.
  - replace (e + Z.of_nat (S j)) with (e + 1 + Z.of_nat j) by lia.
    apply IH; [exact H2|lia].
Qed.

(** ** [supply_at_block] beyond its domain *)

(** X1: above [1024 * HALVING_INTERVAL] the epoch walk reaches epoch 1024,
    where [2 ** 1024] does not convert to a float: [supply_at_block]
    raises [OverflowError], whatever the number of rounds allowed. *)
Theorem supply_overflow_beyond (h : Z) :
  max_height < h ->
  supply_at_block h = Raise OverflowError
  /\ forall fuel, (1025 <= fuel)%nat ->
     supply_at_block_fuel fuel h = Raise OverflowError.
Proof.
  intros H. split.
  - apply supply_beyond. exact H.
  - intros fuel Hf. rewrite supply_fuel_enough by exact Hf.
    apply supply_beyond. exact H.
Qed.

Lemma supply_overflow_beyond_witness :
  supply_at_block 215040001 = Raise OverflowError
  /\ forall fuel, (1025 <= fuel)%nat ->
     supply_at_block_fuel fuel 215040001 = Raise OverflowError.
Proof. apply (supply_overflow_beyond 215040001). unfold max_height. reflexivity. Defined.

(** ** The supply at the halvings *)

Lemma all_halvings : epochs_all halving_check 34 Py.zero 0 = true.
Proof. vm_compute. reflexivity. Qed.

(** X2: at the [j]-th halving, for every [j] up to [total_halvings], the
    supply computed is exactly [21000000 * (1 - 2^-j)], with no rounding
    error; at the last one it is the float [total_supply()] returns. *)
Theorem supply_at_halving (j : Z) :
  0 <= j <= total_halvings btc ->
  exists s,
    supply_at_block (j * HALVING_INTERVAL) = Ok s
    /\ scaled s * 2 ^ j = 21000000 * (2 ^ j - 1) * 2 ^ 1074
    /\ (j = total_halvings btc -> total_supply btc = Ok s).
Proof.
  cbn [total_halvings btc]. intros Hj.
  destruct (epochs_all_sound halving_check 34 Py.zero 0 all_halvings
              (Z.to_nat j) ltac:(lia)) as (s & W & C).
  rewrite Z2Nat.id, Z.add_0_l in C by lia.
  exists s. split; [|split].
  - rewrite <- (Z2Nat.id j) at 1 by lia.
    rewrite supply_at_boundary by lia. exact W.
  - unfold halving_check in C. apply Z.eqb_eq in C. exact C.
  - intros ->. change (Z.to_nat 33) with 33%nat in W.
    change (walk 33 Py.zero 0) with (epoch_supply 33) in W.
    rewrite epoch_supply_33 in W. injection W as <-.
    exact total_supply_btc.
Qed.

Lemma supply_at_halving_witness :
  exists s,
    supply_at_block (1 * HALVING_INTERVAL) = Ok s
    /\ scaled s * 2 ^ 1 = 21000000 * (2 ^ 1 - 1) * 2 ^ 1074
    /\ (1 = total_halvings btc -> total_supply btc = Ok s).
Proof. apply (supply_at_halving 1). cbn [total_halvings btc]. lia. Defined.

(** ** Heights whose supply is computed without rounding *)

Lemma all_exact : epochs_all exact_check 30 Py.zero 0 = true.
Proof. vm_compute. reflexivity. Qed.

(** X3: up to 30 epochs (6300000 blocks) every product and every sum of
    [supply_at_block] is exact: the float returned is the real-number sum
    of the rewards of the first [h] blocks. *)
Theorem supply_exact (h : Z) :
  0 <= h <= 30 * HALVING_INTERVAL ->
  exists s, supply_at_block h = Ok s /\ scaled s = exact_supply_scaled h.
Proof.
  intros [H0 H]. pose proof HI_pos as HP.
  destruct (Z.eq_dec h 0) as [->|Hz].
  - exists Py.zero. split; [apply supply_at_block_nonpos; lia|reflexivity].
  - destruct (supply_pos_value h) as (j & r & sj & rew & s & Hj & Hr & Eh & Ej & Gj
                                      & R & Pr & Es & Gs & Ss).
    { unfold max_height. lia. }
    assert (Hj30 : (j < 30)%nat) by nia.
    destruct (epochs_all_sound exact_check 30 Py.zero 0 all_exact j Hj30)
      as (sj' & W & C).
    change (walk j Py.zero 0) with (epoch_supply j) in W.
    assert (sj' = sj) by congruence. subst sj'.
    rewrite Z.add_0_l in C. unfold exact_check in C. rewrite R in C.
    apply andb_prop in C as [C C4]. apply andb_prop in C as [C C3].
    apply andb_prop in C as [C1 C2].
    apply Z.eqb_eq in C1, C2, C3. apply Z.ltb_lt in C4.
    rewrite Nat2Z.id in C2.
    exists s. split; [exact Es|]. rewrite Ss.
    set (c := 1075 - Z.of_nat j) in *.
    assert (Hc : 0 <= c) by (unfold c; lia).
    assert (Pc : 0 < 2 ^ c) by (apply Z.pow_pos_nonneg; lia).
    assert (ER : scaled rew = 25 * 2 ^ c).
    { rewrite C1. unfold exact_reward_scaled, c.
      replace (1075 - Z.of_nat j) with (1 + (1074 - Z.of_nat j)) by lia.
      rewrite Z.pow_add_r by lia. change (2 ^ 1) with 2. ring. }
    assert (EQ : scaled sj = scaled sj / 2 ^ c * 2 ^ c).
    { pose proof (Z.div_mod (scaled sj) (2 ^ c) ltac:(lia)). lia. }
    assert (HQ : 0 <= scaled sj / 2 ^ c).
    { apply Z.div_pos; [apply good_scaled_nonneg; assumption|lia]. }
    assert (E1 : rg (r * scaled rew) = r * scaled rew).
    { rewrite ER. replace (r * (25 * 2 ^ c)) with (25 * r * 2 ^ c) by ring.
      apply rg_exact; [|lia]. unfold HALVING_INTERVAL in *.
      assert (2 ^ 53 = 9007199254740992) by reflexivity. lia. }
    rewrite E1.
    assert (E2 : rg (scaled sj + r * scaled rew) = scaled sj + r * scaled rew).
    { rewrite ER. rewrite EQ at 1 2.
      replace (scaled sj / 2 ^ c * 2 ^ c + r * (25 * 2 ^ c))
        with ((scaled sj / 2 ^ c + 25 * r) * 2 ^ c) by ring.
      apply rg_exact; [|lia]. lia. }
    rewrite E2. unfold exact_supply_scaled.
    destruct (Z.eq_dec r HALVING_INTERVAL) as [->|Nr].
    + replace (h / HALVING_INTERVAL) with (Z.of_nat (S j)).
      2:{ apply Z.div_unique_exact; lia. }
      replace (h mod HALVING_INTERVAL) with 0.
      2:{ apply Z.mod_unique with (Z.of_nat (S j)); lia. }
      rewrite Nat2Z.id. cbn [exact_epochs]. rewrite C1, C2. ring.
    + replace (h / HALVING_INTERVAL) with (Z.of_nat j).
      2:{ apply Z.div_unique with r; lia. }
      replace (h mod HALVING_INTERVAL) with r.
      2:{ apply Z.mod_unique with (Z.of_nat j); lia. }
      rewrite Nat2Z.id, C1, C2. ring.
Qed.

Lemma supply_exact_witness :
  exists s, supply_at_block 840000 = Ok s /\ scaled s = exact_supply_scaled 840000.
Proof. apply (supply_exact 840000). unfold HALVING_INTERVAL. lia. Defined.

(** ** The reward in satoshis *)

Lemma all_satoshi : forall_from satoshi_check 1024 0 = true.
Proof. vm_compute. reflexivity. Qed.

(** X4: the count of the constructor agrees with the reward formula of the
    queries: [INITIAL_REWARD / (2 ** e) * SATOSHIS_PER_BTC >= 1] holds
    exactly for the epochs [e] below [total_halvings]. *)
Theorem reward_below_satoshi (e : Z) :
  0 <= e <= 1023 ->
  exists sat,
    reward_satoshis_at e = Ok sat
    /\ Py.geb sat f_one = (e <? total_halvings btc).
Proof.
  intros He.
  pose proof (forall_from_sound satoshi_check 1024 0 all_satoshi
                (Z.to_nat e) ltac:(lia)) as C.
  rewrite Z2Nat.id, Z.add_0_l in C by lia. unfold satoshi_check in C.
  destruct (reward_satoshis_at e) as [sat| |]; try discriminate C.
  exists sat. split; [reflexivity|]. apply eqb_prop. exact C.
Qed.

Lemma reward_below_satoshi_witness :
  exists sat,
    reward_satoshis_at 33 = Ok sat
    /\ Py.geb sat f_one = (33 <? total_halvings btc).
Proof. apply (reward_below_satoshi 33). lia. Defined.

(** ** [inflation_rate_at_epoch] beyond its domain *)

(** X5: from epoch 1024 on, with either denominator,
    [inflation_rate_at_epoch] raises [OverflowError]. *)
Theorem inflation_overflow (e : Z) (use_end_supply : bool) :
  1024 <= e -> inflation_rate_at_epoch e use_end_supply = Raise OverflowError.
Proof.
  intros He. rewrite inflation_unfold. pose proof HI_pos as HP.
  destruct (Z_le_gt_dec (denominator_height e use_end_supply) max_height) as [Hle|Hgt].
  - destruct (supply_good _ Hle) as (s & E & _). rewrite E. cbn [bind].
    unfold rate_of_supply. rewrite reward_at_overflow by exact He. reflexivity.
  - rewrite supply_beyond by lia. reflexivity.
Qed.

Lemma inflation_overflow_witness :
  inflation_rate_at_epoch 1024 true = Raise OverflowError.
Proof. apply (inflation_overflow 1024 true). lia. Defined.

(** ** Division followed by truncation *)

Lemma rne_lt_half (n d a : Z) :
  0 < d -> 2 * n < (2 * a - 1) * d -> rne n d <= a - 1.
Proof.
  intros Hd H. rewrite rne_eq by assumption.
  pose proof (Z.div_mod n d ltac:(lia)) as E.
  pose proof (Z.mod_pos_bound n d Hd) as [M0 M1].
  set (q := n / d) in *. set (r := n mod d) in *.
  assert (Hq : q <= a - 1).
  { destruct (Z_le_gt_dec q (a - 1)) as [|Hgt]; [assumption|exfalso].
    assert (a * d <= q * d) by (apply Z.mul_le_mono_nonneg_r; lia). lia. }
  destruct (Z.eq_dec q (a - 1)) as [Eq|Nq].
  - assert (Hr : 2 * r < d) by (subst q; lia).
    destruct (Z.ltb_spec d (2 * r)); [lia|].
    destruct (Z.eqb_spec (2 * r) d); [lia|]. cbn. lia.
  - destruct ((d <? 2 * r) || ((2 * r =? d) && Z.odd q)); lia.
Qed.

Lemma margin_pos (a b : Z) : 0 < a -> a < 2 ^ 53 * (b - a) -> a < b.
Proof.
  intros Ha H. destruct (Z_lt_le_dec a b) as [|Hle]; [assumption|exfalso].
  assert (2 ^ 53 * (b - a) <= 0); [|lia].
  apply Z.mul_nonneg_nonpos; [|lia]. apply Z.pow_nonneg. lia.
Qed.

Lemma div_floor (mx my : positive) (ex ey c n : Z) :
  c <= ex -> c <= ey -> Zpos mx < 2 ^ 53 -> 0 <= n < 2 ^ 40 ->
  n * (Zpos my * 2 ^ (ey - c)) <= Zpos mx * 2 ^ (ex - c) ->
  Zpos mx * 2 ^ (ex - c)
  < 2 ^ 53 * ((n + 1) * (Zpos my * 2 ^ (ey - c)) - Zpos mx * 2 ^ (ex - c)) ->
  Py.trunc (SFdiv Py.prec Py.emax (S754_finite false mx ex) (S754_finite false my ey))
  = Ok n.
Proof.
  intros Hcx Hcy Hmx [Hn0 Hn] Hlo Hmargin.
  unfold SFdiv. rewrite div_core_spec. cbn [xorb].
  set (dx := Zdigits2 (Zpos mx)). set (dy := Zdigits2 (Zpos my)).
  set (e' := Z.min (fexp64 (dx + ex - (dy + ey))) (ex - ey)).
  set (N := Zpos mx * 2 ^ (ex - ey - e')).
  set (D := Zpos my).
  assert (HD : 0 < D) by (unfold D; lia).
  pose proof (Zdigits2_bounds (Zpos mx) ltac:(lia)) as [Lx Ux]. fold dx in Lx, Ux.
  pose proof (Zdigits2_bounds (Zpos my) ltac:(lia)) as [Ly Uy]. fold dy in Ly, Uy.
  pose proof (Zdigits2_pos (Zpos mx) ltac:(lia)) as Pdx. fold dx in Pdx.
  pose proof (Zdigits2_pos (Zpos my) ltac:(lia)) as Pdy. fold dy in Pdy.
  assert (Hdx : dx <= 53).
  { unfold dx. apply Zdigits2_lt_pow2; lia. }
  assert (Pa : 0 < 2 ^ (ex - c)) by (apply Z.pow_pos_nonneg; lia).
  assert (Pb : 0 < 2 ^ (ey - c)) by (apply Z.pow_pos_nonneg; lia).
  assert (P40 : 0 < 2 ^ 40) by reflexivity.
  assert (P53 : 0 < 2 ^ 53) by reflexivity.
  set (Vx := Zpos mx * 2 ^ (ex - c)) in *.
  set (Vy := Zpos my * 2 ^ (ey - c)) in *.
  assert (HVx : 0 < Vx) by (apply Z.mul_pos_pos; lia).
  assert (HVy : 0 < Vy) by (apply Z.mul_pos_pos; lia).
  assert (Hup : Vx < (n + 1) * Vy) by (apply margin_pos; assumption).
  (* magnitude of the quotient *)
  assert (Hmag : dx + ex - (dy + ey) <= 41).
  { assert (H1 : 2 ^ (dx - 1 + (ex - c)) < 2 ^ (40 + dy + (ey - c))).
    { rewrite !Z.pow_add_r by lia.
      assert (0 < 2 ^ (dx - 1)) by (apply Z.pow_pos_nonneg; lia).
      assert (0 < 2 ^ dy) by (apply Z.pow_pos_nonneg; lia).
      assert (2 ^ (dx - 1) * 2 ^ (ex - c) <= Vx)
        by (apply Z.mul_le_mono_nonneg_r; lia).
      assert ((n + 1) * Zpos my < 2 ^ 40 * 2 ^ dy).
      { apply Z.le_lt_trans with (2 ^ 40 * Zpos my);
          [apply Z.mul_le_mono_nonneg_r; lia|apply Z.mul_lt_mono_pos_l; lia]. }
      assert ((n + 1) * Zpos my * 2 ^ (ey - c) < 2 ^ 40 * 2 ^ dy * 2 ^ (ey - c))
        by (apply Z.mul_lt_mono_pos_r; lia).
      unfold Vy in Hup. lia. }
    apply pow2_lt_exp in H1; lia. }
  assert (He' : e' <= -12).
  { unfold e'. rewrite fexp64_eq. lia. }
  assert (He'2 : e' <= ex - ey) by (unfold e'; lia).
  assert (Hs : 0 <= ex - ey - e') by lia.
  assert (Ps : 0 < 2 ^ (ex - ey - e')) by (apply Z.pow_pos_nonneg; lia).
  assert (Pe : 0 < 2 ^ (- e')) by (apply Z.pow_pos_nonneg; lia).
  assert (HN0 : 0 < N) by (apply Z.mul_pos_pos; lia).
  set (W := D * 2 ^ (- e')).
  assert (HW : 0 < W) by (apply Z.mul_pos_pos; lia).
  assert (E1 : N * 2 ^ (ey - c) = Vx * 2 ^ (- e')).
  { unfold N, Vx. rewrite <- !Z.mul_assoc, <- !Z.pow_add_r by lia.
    f_equal. f_equal. lia. }
  assert (E2 : W * 2 ^ (ey - c) = Vy * 2 ^ (- e')).
  { unfold W, Vy, D. ring. }
  assert (HNlo : n * W <= N).
  { apply Z.mul_le_mono_pos_r with (2 ^ (ey - c)); [assumption|].
    rewrite <- Z.mul_assoc, E1, E2. rewrite Z.mul_assoc.
    apply Z.mul_le_mono_nonneg_r; lia. }
  assert (HNm : N < 2 ^ 53 * ((n + 1) * W - N)).
  { apply Z.mul_lt_mono_pos_r with (2 ^ (ey - c)); [assumption|].
    rewrite E1.
    replace (2 ^ 53 * ((n + 1) * W - N) * 2 ^ (ey - c))
      with (2 ^ 53 * ((n + 1) * (W * 2 ^ (ey - c)) - N * 2 ^ (ey - c))) by ring.
    rewrite E1, E2.
    replace (2 ^ 53 * ((n + 1) * (Vy * 2 ^ (- e')) - Vx * 2 ^ (- e')))
      with (2 ^ 53 * ((n + 1) * Vy - Vx) * 2 ^ (- e')) by ring.
    apply Z.mul_lt_mono_pos_r; assumption. }
  assert (HNup : N < (n + 1) * W) by (apply margin_pos; assumption).
  rewrite aux_frac by lia.
  set (q := N / D).
  assert (Hq0 : 0 <= q) by (apply Z.div_pos; lia).
  assert (HqD : q * D <= N < (q + 1) * D).
  { unfold q. pose proof (Z.div_mod N D ltac:(lia)).
    pose proof (Z.mod_pos_bound N D HD). lia. }
  pose proof (Zdigits2_nonneg q) as Hdq0.
  (* the exponent of the rounding is at least e' *)
  assert (Hfe : e' <= fexp64 (Zdigits2 q + e')).
  { rewrite fexp64_eq.
    destruct (Z_le_gt_dec e' (-1074)) as [Hc|Hc]; [lia|].
    (* not clamped: the quotient has at least 53 digits *)
    assert (Ee' : e' = dx + ex - (dy + ey) - 53).
    { unfold e' in *. rewrite fexp64_eq in *. lia. }
    assert (HNb : 2 ^ 52 * 2 ^ dy <= N).
    { unfold N. replace (ex - ey - e') with (53 + dy - dx) by lia.
      assert (E : 2 ^ (dx - 1) * 2 ^ (53 + dy - dx) = 2 ^ 52 * 2 ^ dy).
      { rewrite <- !Z.pow_add_r by lia. f_equal. lia. }
      rewrite <- E. apply Z.mul_le_mono_nonneg_r; [|assumption].
      apply Z.pow_nonneg. lia. }
    assert (Hq52 : 2 ^ 52 <= q).
    { unfold q. apply Z.div_le_lower_bound; [lia|].
      apply Z.le_trans with (2 ^ 52 * 2 ^ dy); [|assumption].
      rewrite Z.mul_comm. apply Z.mul_le_mono_nonneg_l; [|unfold D; lia].
      apply Z.pow_nonneg. lia. }
    pose proof (Zdigits2_ge_pow2 q 52 ltac:(lia) Hq52). lia. }
  set (k := Z.max (fexp64 (Zdigits2 q + e') - e') 0).
  assert (Ek : k = fexp64 (Zdigits2 q + e') - e') by (unfold k; lia).
  assert (Hk : 0 <= k) by lia.
  assert (Hqn : q < (n + 1) * 2 ^ (- e')).
  { apply Z.mul_lt_mono_pos_r with D; [assumption|]. unfold W in HNup. lia. }
  assert (Hqn' : q < 2 ^ 40 * 2 ^ (- e')).
  { apply Z.lt_le_trans with ((n + 1) * 2 ^ (- e')); [assumption|].
    apply Z.mul_le_mono_nonneg_r; lia. }
  assert (P41 : 2 ^ (40 - e') = 2 ^ 40 * 2 ^ (- e')).
  { replace (40 - e') with (40 + - e') by lia.
    rewrite !Z.pow_add_r by lia. reflexivity. }
  assert (Hdq : Zdigits2 q + e' <= 40).
  { assert (Zdigits2 q <= 40 - e'); [|lia].
    apply Zdigits2_lt_pow2; [lia|lia|]. rewrite P41. assumption. }
  assert (He1 : e' + k <= -12) by (rewrite Ek, fexp64_eq; lia).
  set (e1 := e' + k) in *.
  assert (Pk : 0 < 2 ^ k) by (apply Z.pow_pos_nonneg; lia).
  assert (Pe1 : 0 < 2 ^ (- e1)) by (apply Z.pow_pos_nonneg; lia).
  assert (Esplit : 2 ^ (- e') = 2 ^ (- e1) * 2 ^ k).
  { rewrite <- Z.pow_add_r by lia. f_equal. unfold e1. lia. }
  set (m2 := rne N (D * 2 ^ k)).
  assert (HDk : 0 < D * 2 ^ k) by (apply Z.mul_pos_pos; lia).
  assert (Hm2lo : n * 2 ^ (- e1) <= m2).
  { apply rne_ge; [assumption|]. unfold W in HNlo. rewrite Esplit in HNlo. lia. }
  assert (HnW : 0 <= n * W) by (apply Z.mul_nonneg_nonneg; lia).
  assert (Hm2up : m2 <= (n + 1) * 2 ^ (- e1) - 1).
  { apply rne_lt_half; [assumption|].
    (* half a unit of the rounding grid is below the distance to n + 1 *)
    assert (Hhalf : D * 2 ^ k < 2 * ((n + 1) * W - N)).
    { set (DY := D * 2 ^ k) in *.
      destruct (Z_le_gt_dec (Zdigits2 q + e' - 53) (-1074)) as [Hsub|Hnorm].
      - (* subnormal quotient *)
        assert (Ee1 : e1 = -1074) by (unfold e1; rewrite Ek, fexp64_eq; lia).
        assert (Hq' : q + 1 <= 2 ^ (53 + k)).
        { assert (q < 2 ^ (53 + k)); [|lia].
          destruct (Z.eq_dec q 0) as [->|Hqz]; [apply Z.pow_pos_nonneg; lia|].
          pose proof (Zdigits2_bounds q ltac:(lia)) as [_ U].
          assert (2 ^ Zdigits2 q <= 2 ^ (53 + k)) by (apply Z.pow_le_mono_r; lia).
          lia. }
        assert (E53 : 2 ^ (53 + k) = 2 ^ 53 * 2 ^ k) by (apply Z.pow_add_r; lia).
        assert (HNq : N < 2 ^ 53 * DY).
        { apply Z.lt_le_trans with ((q + 1) * D); [apply HqD|].
          unfold DY. rewrite (Z.mul_comm D), Z.mul_assoc, <- E53.
          apply Z.mul_le_mono_nonneg_r; lia. }
        assert (B : 2 ^ 55 * DY <= W).
        { unfold W. rewrite Esplit, Ee1. unfold DY. change (- -1074) with 1074.
          replace (D * (2 ^ 1074 * 2 ^ k)) with (2 ^ 1074 * (D * 2 ^ k)) by ring.
          apply Z.mul_le_mono_nonneg_r; [lia|].
          apply Z.pow_le_mono_r; lia. }
        change (2 ^ 55) with 36028797018963968 in B.
        change (2 ^ 53) with 9007199254740992 in HNq.
        lia.
      - (* normal quotient: at least 2^(52+k) *)
        assert (Edq : Zdigits2 q = 53 + k) by (rewrite Ek, fexp64_eq; lia).
        assert (Hqp : 0 < q).
        { destruct (Z.eq_dec q 0) as [Hq|]; [|lia].
          rewrite Hq in Edq. cbn [Zdigits2] in Edq. lia. }
        pose proof (Zdigits2_bounds q Hqp) as [Lq _]. rewrite Edq in Lq.
        replace (53 + k - 1) with (52 + k) in Lq by lia.
        rewrite Z.pow_add_r in Lq by lia.
        assert (H52 : 2 ^ 52 * DY <= N).
        { apply Z.le_trans with (q * D); [|apply HqD].
          unfold DY. rewrite (Z.mul_comm D), Z.mul_assoc.
          apply Z.mul_le_mono_nonneg_r; lia. }
        change (2 ^ 52) with 4503599627370496 in H52.
        change (2 ^ 53) with 9007199254740992 in HNm.
        lia. }
    unfold W in Hhalf. rewrite Esplit in Hhalf.
    assert (E : (2 * ((n + 1) * 2 ^ (- e1)) - 1) * (D * 2 ^ k)
                = 2 * ((n + 1) * (D * (2 ^ (- e1) * 2 ^ k))) - D * 2 ^ k) by ring.
    rewrite E. lia. }
  assert (Hm20 : 0 <= m2).
  { apply Z.le_trans with (n * 2 ^ (- e1)); [|assumption].
    apply Z.mul_nonneg_nonneg; lia. }
  assert (Hm2' : m2 < 2 ^ 40 * 2 ^ (- e1)).
  { assert ((n + 1) * 2 ^ (- e1) <= 2 ^ 40 * 2 ^ (- e1))
      by (apply Z.mul_le_mono_nonneg_r; lia). lia. }
  assert (Hdm : Zdigits2 m2 + e1 <= 40).
  { assert (Zdigits2 m2 <= 40 - e1); [|lia].
    apply Zdigits2_lt_pow2; [lia|lia|].
    replace (40 - e1) with (40 + - e1) by lia. rewrite Z.pow_add_r by lia.
    assumption. }
  unfold finish.
  set (k2 := Z.max (fexp64 (Zdigits2 m2 + e1) - e1) 0).
  assert (Hk2 : 0 <= k2) by (unfold k2; lia).
  assert (He3 : e1 + k2 <= -12) by (unfold k2; rewrite fexp64_eq; lia).
  assert (Pk2 : 0 < 2 ^ k2) by (apply Z.pow_pos_nonneg; lia).
  set (e3 := e1 + k2) in *.
  assert (Pe3 : 0 < 2 ^ (- e3)) by (apply Z.pow_pos_nonneg; lia).
  assert (Esplit2 : 2 ^ (- e1) = 2 ^ (- e3) * 2 ^ k2).
  { rewrite <- Z.pow_add_r by lia. f_equal. unfold e3. lia. }
  assert (Hm3 : n * 2 ^ (- e3) <= m2 / 2 ^ k2 < (n + 1) * 2 ^ (- e3)).
  { split.
    - apply Z.div_le_lower_bound; [lia|]. rewrite Esplit2 in Hm2lo. lia.
    - apply Z.div_lt_upper_bound; [lia|]. rewrite Esplit2 in Hm2up. lia. }
  destruct (m2 / 2 ^ k2) as [|p|p] eqn:Em3.
  - cbn [Py.trunc]. f_equal.
    destruct (Z.eq_dec n 0) as [->|Nz]; [reflexivity|].
    assert (0 < n * 2 ^ (- e3)) by (apply Z.mul_pos_pos; lia). lia.
  - change (Py.emax - Py.prec) with 971.
    destruct (Z.leb_spec e3 971); [|lia].
    cbn [Py.trunc]. destruct e3 as [|pe|pe] eqn:Ee3; try lia.
    f_equal. rewrite Z.shiftr_div_pow2 by lia.
    change (- Z.neg pe) with (Zpos pe) in *.
    symmetry. apply Z.div_unique with (Zpos p - n * 2 ^ Zpos pe); lia.
  - lia.
Qed.
(** ** The search of [blocks_to_percentage] *)

Lemma all_search : epochs_all search_check 34 Py.zero 0 = true.
Proof. vm_compute. reflexivity. Qed.

Lemma search_facts (j : nat) :
  (j < 34)%nat ->
  exists sj rew,
    epoch_supply j = Ok sj /\ reward_at (Z.of_nat j) = Ok rew
    /\ scaled rew = 25 * 2 ^ (1075 - Z.of_nat j)
    /\ scaled sj mod 2 ^ 1047 = 0.
Proof.
  intros Hj.
  destruct (epochs_all_sound search_check 34 Py.zero 0 all_search j Hj)
    as (sj & W & C).
  rewrite Z.add_0_l in C. unfold search_check in C.
  destruct (reward_at (Z.of_nat j)) as [rew| |]; try discriminate C.
  apply andb_prop in C as [C1 C2]. apply Z.eqb_eq in C1, C2.
  exists sj, rew. auto.
Qed.

Lemma good_mantissa (m : positive) (e : Z) :
  good (S754_finite false m e) ->
  Zpos m < 2 ^ 53 /\ -1074 <= e /\ (2 ^ 52 <= Zpos m \/ e = -1074).
Proof.
  intros G. destruct (good_finite _ _ _ G) as (_ & B & He & _).
  apply bounded_elim in B as [F _]. rewrite fexp64_eq in F.
  pose proof (Zdigits2_bounds (Zpos m) ltac:(lia)) as [L U].
  set (d := Zdigits2 (Zpos m)) in *.
  assert (Hd : d <= 53) by lia.
  split; [|split; [assumption|]].
  - assert (2 ^ d <= 2 ^ 53) by (apply Z.pow_le_mono_r; lia). lia.
  - destruct (Z.eq_dec e (-1074)) as [|Ne]; [right; assumption|left].
    assert (d = 53) by lia.
    assert (2 ^ 52 <= 2 ^ (d - 1)) by (apply Z.pow_le_mono_r; lia). lia.
Qed.

Lemma scaled_f_total : scaled f_total = 5637144575343750 * 2 ^ 1046.
Proof. reflexivity. Qed.

(** The remaining supply [target_supply - cumulative_supply] is computed
    without rounding. *)
Lemma sub_exact (tgt sj : Py.float) :
  good tgt -> good sj -> scaled sj < scaled tgt ->
  scaled tgt <= scaled f_total -> scaled sj mod 2 ^ 1047 = 0 ->
  exists mr er,
    Py.sub tgt sj = S754_finite false mr er
    /\ good (S754_finite false mr er)
    /\ Zpos mr * 2 ^ (er + 1074) = scaled tgt - scaled sj.
Proof.
  intros Gt Gs Hlt Hle Hmod.
  pose proof (good_scaled_nonneg sj Gs) as Ns.
  rewrite sub_spec by assumption.
  assert (Htb : scaled tgt <= scaled_bound).
  { destruct tgt as [s|s| |s m e]; try contradiction.
    - cbn [scaled] in Hlt. lia.
    - apply Gt. }
  destruct (rnd_good (scaled tgt - scaled sj) ltac:(lia)) as [Gr Sr].
  assert (Ex : rg (scaled tgt - scaled sj) = scaled tgt - scaled sj).
  { destruct tgt as [s|s| |s mt et]; try contradiction;
      [cbn [scaled] in Hlt; lia|].
    destruct (good_finite _ _ _ Gt) as (-> & _ & _ & St).
    destruct (good_mantissa _ _ Gt) as (Hm & He & Hn).
    rewrite St in *. set (a := et + 1074) in *.
    assert (Ha : 0 <= a <= 1047).
    { split; [unfold a; lia|]. destruct Hn as [Hn|Hn]; [|unfold a; lia].
      rewrite scaled_f_total in Hle.
      assert (Pa : 0 < 2 ^ a) by (apply Z.pow_pos_nonneg; unfold a; lia).
      assert (H1 : 2 ^ 52 * 2 ^ a <= Zpos mt * 2 ^ a)
        by (apply Z.mul_le_mono_nonneg_r; lia).
      assert (H2 : 5637144575343750 * 2 ^ 1046 < 2 ^ 53 * 2 ^ 1046)
        by (apply Z.mul_lt_mono_pos_r; [apply Z.pow_pos_nonneg; lia|reflexivity]).
      rewrite <- !Z.pow_add_r in * by (unfold a; lia).
      assert (H3 : 2 ^ (52 + a) < 2 ^ (53 + 1046)) by lia.
      apply pow2_lt_exp in H3; lia. }
    assert (Pa : 0 < 2 ^ a) by (apply Z.pow_pos_nonneg; lia).
    assert (Hdiv : (2 ^ a | scaled sj)).
    { apply Z.divide_trans with (2 ^ 1047).
      - exists (2 ^ (1047 - a)). rewrite <- Z.pow_add_r by lia. f_equal. lia.
      - apply Z.mod_divide; [|assumption].
        apply Z.pow_nonzero; lia. }
    destruct Hdiv as [z Hz]. rewrite Hz in *.
    replace (Zpos mt * 2 ^ a - z * 2 ^ a) with ((Zpos mt - z) * 2 ^ a) by ring.
    apply rg_exact; [|lia].
    assert (0 <= z).
    { destruct (Z_le_gt_dec 0 z); [assumption|exfalso].
      assert (z * 2 ^ a < 0) by (apply Z.mul_neg_pos; lia). lia. }
    assert (z < Zpos mt).
    { apply Z.mul_lt_mono_pos_r with (2 ^ a); assumption. }
    lia. }
  rewrite Ex in Sr.
  destruct (rnd (scaled tgt - scaled sj)) as [s|s| |s mr er] eqn:Er;
    try contradiction; [cbn [scaled] in Sr; lia|].
  destruct (good_finite _ _ _ Gr) as (-> & _ & _ & S').
  exists mr, er. split; [reflexivity|]. split; [assumption|].
  rewrite <- S'. exact Sr.
Qed.

(** Half a unit of the quotient's last place is below the distance from
    [remaining_supply / reward] to the next integer. *)
Lemma search_margin (mr b c n : Z) :
  0 <= b -> 0 <= c -> 0 < mr < 2 ^ 53 -> 0 <= n < HALVING_INTERVAL ->
  mr * 2 ^ b < (n + 1) * (25 * 2 ^ c) ->
  mr * 2 ^ b < 2 ^ 53 * ((n + 1) * (25 * 2 ^ c) - mr * 2 ^ b).
Proof.
  intros Hb Hc [Hm0 Hm] [Hn0 Hn] H.
  assert (Pb : 0 < 2 ^ b) by (apply Z.pow_pos_nonneg; lia).
  assert (Pc : 0 < 2 ^ c) by (apply Z.pow_pos_nonneg; lia).
  assert (P53 : 2 ^ 53 = 9007199254740992) by reflexivity.
  unfold HALVING_INTERVAL in Hn.
  destruct (Z_le_gt_dec c b) as [Hcb|Hcb].
  - assert (E : 2 ^ b = 2 ^ (b - c) * 2 ^ c).
    { rewrite <- Z.pow_add_r by lia. f_equal. lia. }
    assert (Pbc : 0 < 2 ^ (b - c)) by (apply Z.pow_pos_nonneg; lia).
    rewrite E in *. set (u := 2 ^ (b - c)) in *. set (C := 2 ^ c) in *.
    replace (mr * (u * C)) with (mr * u * C) in * by ring.
    replace ((n + 1) * (25 * C)) with ((n + 1) * 25 * C) in * by ring.
    assert (Hz : mr * u < (n + 1) * 25).
    { apply Z.mul_lt_mono_pos_r with C; assumption. }
    replace ((n + 1) * 25 * C - mr * u * C) with (((n + 1) * 25 - mr * u) * C) by ring.
    assert (H1 : 1 * C <= ((n + 1) * 25 - mr * u) * C)
      by (apply Z.mul_le_mono_nonneg_r; lia).
    assert (H2 : mr * u * C < 9007199254740992 * C).
    { apply Z.mul_lt_mono_pos_r; [assumption|]. lia. }
    rewrite P53.
    assert (H3 : 9007199254740992 * (1 * C)
                 <= 9007199254740992 * (((n + 1) * 25 - mr * u) * C))
      by (apply Z.mul_le_mono_nonneg_l; lia).
    lia.
  - assert (E : 2 ^ c = 2 ^ (c - b) * 2 ^ b).
    { rewrite <- Z.pow_add_r by lia. f_equal. lia. }
    assert (Pcb : 0 < 2 ^ (c - b)) by (apply Z.pow_pos_nonneg; lia).
    rewrite E in *. set (u := 2 ^ (c - b)) in *. set (B := 2 ^ b) in *.
    replace ((n + 1) * (25 * (u * B))) with ((n + 1) * 25 * u * B) in * by ring.
    assert (Hz : mr < (n + 1) * 25 * u).
    { apply Z.mul_lt_mono_pos_r with B; assumption. }
    replace ((n + 1) * 25 * u * B - mr * B) with (((n + 1) * 25 * u - mr) * B) by ring.
    assert (H1 : 1 * B <= ((n + 1) * 25 * u - mr) * B)
      by (apply Z.mul_le_mono_nonneg_r; lia).
    assert (H2 : mr * B < 9007199254740992 * B).
    { apply Z.mul_lt_mono_pos_r; [assumption|]. lia. }
    rewrite P53.
    assert (H3 : 9007199254740992 * (1 * B)
                 <= 9007199254740992 * (((n + 1) * 25 * u - mr) * B))
      by (apply Z.mul_le_mono_nonneg_l; lia).
    lia.
Qed.

(** The supply inside epoch [j], [r] blocks after its start. *)
Lemma supply_in_epoch (j : nat) (r : Z) (sj rew : Py.float) :
  (j < 1024)%nat -> 0 <= r <= HALVING_INTERVAL ->
  epoch_supply j = Ok sj -> reward_at (Z.of_nat j) = Ok rew ->
  exists x,
    Py.imul r rew = Ok x
    /\ supply_at_block (Z.of_nat j * HALVING_INTERVAL + r) = Ok (Py.add sj x)
    /\ good (Py.add sj x)
    /\ scaled (Py.add sj x) = rg (scaled sj + rg (r * scaled rew)).
Proof.
  intros Hj Hr Ej R.
  destruct (in_epoch j r Hj Hr)
    as (sj' & rew' & x & E' & Gs & R' & Gr & Pr & X & Gx & Sx & _ & _ & Ga & Sa).
  assert (sj' = sj) by congruence. subst sj'.
  assert (rew' = rew) by congruence. subst rew'.
  exists x. split; [exact X|]. split; [|split; assumption].
  destruct (Z.eq_dec r 0) as [->|Nz].
  - rewrite Z.add_0_r, supply_at_boundary by lia. rewrite Ej. f_equal.
    assert (x = Py.zero).
    { destruct rew as [s'|s'| |s' mw ew]; try contradiction;
        [cbn [scaled] in Pr; lia|].
      destruct (good_finite _ _ _ Gr) as (-> & _).
      assert (I0 : Py.imul 0 (S754_finite false mw ew) = Ok Py.zero) by reflexivity.
      congruence. }
    subst x. rewrite add_spec by (try assumption; reflexivity).
    change (scaled Py.zero) with 0. rewrite Z.add_0_r.
    symmetry. apply rnd_scaled. assumption.
  - rewrite supply_at_block_split by lia.
    rewrite Ej. cbn [bind]. rewrite R. cbn [bind]. rewrite X. reflexivity.
Qed.


Lemma search_exit (j : nat) (tgt sj : Py.float) :
  (j <= 33)%nat -> epoch_supply j = Ok sj ->
  scaled sj <= scaled tgt -> scaled tgt <= scaled sj ->
  search_result tgt (Z.of_nat j * HALVING_INTERVAL) (Z.of_nat j * HALVING_INTERVAL) sj.
Proof.
  intros Hj Ej H1 H2. pose proof HI_pos as HP.
  assert (B : supply_at_block (Z.of_nat j * HALVING_INTERVAL) = Ok sj).
  { rewrite supply_at_boundary by lia. exact Ej. }
  assert (Hm : Z.of_nat j * HALVING_INTERVAL + 1 <= max_height).
  { unfold max_height, HALVING_INTERVAL. lia. }
  destruct (supply_good _ Hm) as (s' & E' & G').
  destruct (supply_le (Z.of_nat j * HALVING_INTERVAL)
              (Z.of_nat j * HALVING_INTERVAL + 1) sj s' ltac:(lia) Hm B E')
    as (Gs & _ & Hle).
  unfold search_result. split; [exact B|]. split; [unfold HALVING_INTERVAL; lia|].
  split; [exact Gs|]. split; [exact H1|].
  exists s'. split; [exact E'|]. split; [exact G'|]. lia.
Qed.

Lemma blocks_loop_strong (k : nat) :
  forall (j fuel : nat) (tgt sj : Py.float),
  (j + k = 33)%nat -> (k <= fuel)%nat ->
  good tgt -> scaled tgt <= scaled f_total ->
  epoch_supply j = Ok sj -> scaled sj <= scaled tgt ->
  exists b c e',
    blocks_loop fuel tgt (Z.of_nat j * HALVING_INTERVAL) sj (Z.of_nat j)
    = Ok (b, c, e')
    /\ search_result tgt (Z.of_nat j * HALVING_INTERVAL) b c.
Proof.
  pose proof HI_pos as HP. pose proof HI_small as HS.
  induction k as [|k IH]; intros j fuel tgt sj Hjk Hf Gt Ht Ej Inv.
  - assert (j = 33)%nat by lia. subst j.
    pose proof Ej as Ej'. rewrite epoch_supply_33 in Ej'. injection Ej' as <-.
    assert (L : Py.ltb f_total tgt = false).
    { rewrite ltb_good by (try assumption; apply f_total_good).
      apply Z.ltb_ge. exact Ht. }
    rewrite blocks_loop_done by assumption.
    eexists _, _, _. split; [reflexivity|].
    apply search_exit; [lia|assumption|assumption|assumption].
  - destruct (epoch_supply_good j ltac:(lia)) as (sj0 & Ej0 & Gs).
    assert (sj0 = sj) by congruence. subst sj0.
    destruct (Py.ltb sj tgt) eqn:L.
    2:{ rewrite blocks_loop_done by assumption.
        eexists _, _, _. split; [reflexivity|].
        rewrite ltb_good in L by assumption. apply Z.ltb_ge in L.
        apply search_exit; [lia|assumption|assumption|assumption]. }
    destruct fuel as [|fuel]; [lia|].
    destruct (search_facts j ltac:(lia)) as (sj1 & rew & Ej1 & R & ER & Hmod).
    assert (sj1 = sj) by congruence. subst sj1.
    destruct (epoch_facts j ltac:(lia))
      as (sj' & rew' & full & E2 & _ & R2 & Gr & Pr & X & SF & _).
    assert (rew' = rew) by congruence. subst rew'. clear E2 sj'.
    rewrite ltb_good in L by assumption. apply Z.ltb_lt in L.
    pose proof (good_scaled_nonneg sj Gs) as Ns.
    destruct (sub_exact tgt sj Gt Gs L Ht Hmod) as (mr & er & Hsub & Grem & Srem).
    assert (Sr : scaled (S754_finite false mr er) = scaled tgt - scaled sj).
    { destruct (good_finite _ _ _ Grem) as (_ & _ & _ & S'). rewrite S'. exact Srem. }
    pose proof (rg_fix _ Grem) as Fr. rewrite Sr in Fr.
    pose proof (rg_fix _ Gt) as Ft.
    set (T := scaled tgt) in *. set (Sj := scaled sj) in *.
    set (Rw := scaled rew) in *.
    rewrite blocks_loop_step by (rewrite ltb_good by assumption; apply Z.ltb_lt; exact L).
    rewrite R. cbn [bind]. rewrite X. cbn [bind]. rewrite Hsub.
    unfold Py.geb. change SFleb with Py.leb.
    assert (Gfull : good full).
    { destruct (in_epoch j HALVING_INTERVAL ltac:(lia) ltac:(lia))
        as (_ & rew' & full' & _ & _ & R' & _ & _ & X' & Gf & _).
      assert (rew' = rew) by congruence. subst rew'. congruence. }
    rewrite leb_good by assumption. rewrite Sr, SF. fold Rw.
    destruct (Z.leb_spec (HALVING_INTERVAL * Rw) (T - Sj)) as [Hfull|Hpart]; cbv iota.
    + (* a whole epoch *)
      destruct (supply_in_epoch j HALVING_INTERVAL sj rew ltac:(lia) ltac:(lia) Ej R)
        as (x & X' & _ & Ga & Sa).
      assert (x = full) by congruence. subst x. fold Sj Rw in Sa.
      assert (W1 : walk 1 sj (Z.of_nat j) = Ok (Py.add sj full)).
      { cbn [walk]. rewrite R. cbn [bind]. rewrite X. reflexivity. }
      pose proof (epoch_supply_succ j sj _ Ej W1) as Esucc.
      assert (Inv' : scaled (Py.add sj full) <= T).
      { rewrite Sa, <- Ft.
        assert (0 <= HALVING_INTERVAL * Rw) by (apply Z.mul_nonneg_nonneg; lia).
        pose proof (rg_mono (HALVING_INTERVAL * Rw) (T - Sj) ltac:(lia)) as M1.
        rewrite Fr in M1.
        pose proof (rg_nonneg (HALVING_INTERVAL * Rw) ltac:(lia)).
        apply rg_mono. lia. }
      destruct (IH (S j) fuel tgt (Py.add sj full) ltac:(lia) ltac:(lia) Gt Ht Esucc Inv')
        as (b & c & e' & Hloop & Hres).
      exists b, c, e'. split.
      * replace (Z.of_nat j * HALVING_INTERVAL + HALVING_INTERVAL)
          with (Z.of_nat (S j) * HALVING_INTERVAL) by lia.
        replace (Z.of_nat j + 1) with (Z.of_nat (S j)) by lia.
        exact Hloop.
      * unfold search_result in *. destruct Hres as (A & B & C). split; [exact A|].
        split; [lia|exact C].
    + (* the partial epoch *)
      destruct rew as [s'|s'| |s' mw ew]; try contradiction;
        [unfold Rw in Pr; cbn [scaled] in Pr; lia|].
      destruct (good_finite _ _ _ Grem) as (_ & Br & Er & Sr').
      destruct (good_finite _ _ _ Gr) as (-> & Bw & Ew & Sw).
      destruct (good_mantissa _ _ Grem) as (Hmr & _ & _).
      fold Rw in Sw.
      unfold Py.div. cbn [Py.is_zero bind].
      assert (PR : 0 < Rw) by exact Pr.
      set (n := (T - Sj) / Rw).
      assert (Hn : n * Rw <= T - Sj < (n + 1) * Rw).
      { unfold n. pose proof (Z.div_mod (T - Sj) Rw ltac:(lia)).
        pose proof (Z.mod_pos_bound (T - Sj) Rw PR). lia. }
      assert (Hn0 : 0 <= n) by (apply Z.div_pos; lia).
      assert (HnH : n < HALVING_INTERVAL).
      { apply Z.div_lt_upper_bound; [assumption|]. lia. }
      assert (Tn : Py.trunc (SFdiv Py.prec Py.emax (S754_finite false mr er)
                               (S754_finite false mw ew)) = Ok n).
      { apply (div_floor mr mw er ew (-1074) n); try lia.
        - split; [lia|]. unfold HALVING_INTERVAL in HnH.
          assert (2 ^ 40 = 1099511627776) by reflexivity. lia.
        - replace (er - -1074) with (er + 1074) by lia.
          replace (ew - -1074) with (ew + 1074) by lia.
          rewrite <- Sw, Srem. apply Hn.
        - replace (er - -1074) with (er + 1074) by lia.
          replace (ew - -1074) with (ew + 1074) by lia.
          rewrite <- Sw. rewrite ER.
          apply search_margin; lia. }
      rewrite Tn. cbn [bind].
      destruct (supply_in_epoch j n sj _ ltac:(lia) ltac:(lia) Ej R)
        as (x & X' & Hx & Ga & Sa).
      fold Sj Rw in Sa.
      destruct (supply_in_epoch j (n + 1) sj _ ltac:(lia) ltac:(lia) Ej R)
        as (x1 & _ & Hx1 & Ga1 & Sa1).
      fold Sj Rw in Sa1.
      rewrite X'. cbn [bind].
      eexists _, _, _. split; [reflexivity|].
      assert (HnR : 0 <= n * Rw) by (apply Z.mul_nonneg_nonneg; lia).
      unfold search_result. fold T. split; [exact Hx|].
      split; [unfold HALVING_INTERVAL in *; lia|].
      split; [exact Ga|]. split.
      * rewrite Sa, <- Ft.
        pose proof (rg_mono (n * Rw) (T - Sj) ltac:(lia)) as M1. rewrite Fr in M1.
        pose proof (rg_nonneg (n * Rw) HnR).
        apply rg_mono. lia.
      * exists (Py.add sj x1).
        replace (Z.of_nat j * HALVING_INTERVAL + n + 1)
          with (Z.of_nat j * HALVING_INTERVAL + (n + 1)) by lia.
        split; [exact Hx1|]. split; [exact Ga1|].
        rewrite Sa1, <- Ft.
        pose proof (rg_mono (T - Sj) ((n + 1) * Rw) ltac:(lia)) as M1.
        rewrite Fr in M1.
        apply rg_mono. lia.
Qed.
Lemma target_in_range_zero (p : Py.num) :
  in_range p ->
  exists t,
    target_supply_of btc p = Ok t
    /\ (Py.is_zero t = true \/ (good t /\ scaled t <= scaled f_total)).
Proof.
  destruct p as [z|x]; cbn [in_range].
  - intros [Hz0 Hz].
    unfold target_supply_of. rewrite total_supply_btc. cbn [bind].
    unfold Py.truediv. change (100 =? 0) with false. cbv iota.
    destruct z as [|q|q]; try lia.
    + eexists. split; [reflexivity|]. left. reflexivity.
    + cbn [Py.raw_of_int].
      destruct (div_le false q 100 0 0 0 1 ltac:(lia) ltac:(lia)
                  ltac:(split; [lia|vm_compute; discriminate]) ltac:(cbn; lia))
        as [E|(m & e & E & He & Hm)]; rewrite E; cbn [bind].
      * eexists. split; [reflexivity|]. left. reflexivity.
      * eexists. split; [reflexivity|]. right.
        apply (target_of_frac (S754_finite false m e)). right.
        exists m, e. auto.
  - intros (V & L0 & L100). rewrite target_of_float.
    eexists. split; [reflexivity|].
    change (S754_finite false 5637144575343750 (-28)) with f_total.
    destruct x as [s|s| |s m e].
    + left. destruct s; reflexivity.
    + destruct s; [discriminate L0|discriminate L100].
    + discriminate L0.
    + destruct s; [discriminate L0|]. cbn [valid_binary] in V.
      assert (B100 : bounded Py.prec Py.emax 7036874417766400 (-46) = true)
        by reflexivity.
      pose proof (leb_bounded m 7036874417766400 e (-46) V B100 L100) as Hle.
      pose proof (bounded_elim _ _ V) as [F _]. rewrite fexp64_eq in F.
      destruct (div_le false m 7036874417766400 e (-46) (-1074) 1 ltac:(lia) ltac:(lia)
                  ltac:(split; [lia|vm_compute; discriminate]))
        as [E|(mq & eq & E & He & Hm)].
      * replace (e - -1074) with (e + 1074) by lia.
        replace (-46 - -1074) with (-46 + 1074) by lia. lia.
      * left. unfold f_100. rewrite E. reflexivity.
      * right. apply target_of_frac. right. exists mq, eq. auto.
Qed.

Lemma is_zero_not_entered (t : Py.float) : Py.is_zero t = true -> Py.ltb Py.zero t = false.
Proof. destruct t as [s|s| |s m e]; try discriminate. intros _. destruct s; reflexivity. Qed.

Lemma f_100_good : good f_100.
Proof.
  cbn [good f_100]. split; [reflexivity|]. split; [reflexivity|].
  vm_compute. discriminate.
Qed.

(** [(supply / total_supply()) * 100] is in [[0, 100]] for a supply up to
    [total_supply()]. *)
Lemma percent_bound (c : Py.float) :
  good c -> scaled c <= scaled f_total ->
  good (Py.mul (SFdiv Py.prec Py.emax c f_total) f_100)
  /\ scaled (Py.mul (SFdiv Py.prec Py.emax c f_total) f_100) <= scaled f_100.
Proof.
  intros Gc Hc. rewrite mul_comm.
  destruct c as [s|s| |s mc ec]; try contradiction.
  - cbn [good] in Gc. subst s. split; [reflexivity|]. vm_compute. discriminate.
  - destruct (good_finite _ _ _ Gc) as (-> & Bc & Ec & Sc). rewrite Sc in Hc.
    unfold f_total in *. cbn [scaled] in Hc. rewrite Z.mul_1_l in Hc.
    destruct (div_le false mc 5637144575343750 ec (-28) (-1074) 1
                ltac:(lia) ltac:(lia) ltac:(split; [lia|vm_compute; discriminate]))
      as [E|(m & e & E & He & Hm)].
    + replace (ec - -1074) with (ec + 1074) by lia.
      replace (-28 - -1074) with (-28 + 1074) by lia. lia.
    + rewrite E. split; [reflexivity|]. vm_compute. discriminate.
    + rewrite E. unfold f_100.
      apply mul_le; [exact f_100_good|vm_compute; discriminate|assumption|lia].
Qed.

(** X6: for a percentage in [[0, 100]] the call returns a height between 0
    and [total_halvings * HALVING_INTERVAL] and an exact percentage in
    [[0, 100]]. *)
Theorem blocks_within_schedule (p : Py.num) :
  in_range p ->
  exists b pct,
    blocks_to_percentage btc p = Ok (b, pct)
    /\ 0 <= b <= total_halvings btc * HALVING_INTERVAL
    /\ Py.leb Py.zero pct = true /\ Py.leb pct f_100 = true.
Proof.
  intros Hp. cbn [total_halvings btc].
  destruct (target_in_range_zero p Hp) as (t & T & [Z|[Gt Ht]]).
  - exists 0, (Py.mul (SFdiv Py.prec Py.emax Py.zero f_total) f_100).
    split; [|split; [unfold HALVING_INTERVAL; lia|split; reflexivity]].
    unfold blocks_to_percentage.
    rewrite (walk_result walk_fuel p t 0 Py.zero 0 T
               (blocks_loop_done walk_fuel t 0 Py.zero 0 (is_zero_not_entered t Z))).
    reflexivity.
  - destruct (blocks_loop_strong 33 0 walk_fuel t Py.zero ltac:(lia)
                ltac:(unfold walk_fuel; lia) Gt Ht ltac:(reflexivity)
                (good_scaled_nonneg t Gt))
      as (b & c & e' & Hloop & Hb & Hr & Gc & Hc & _).
    change (Z.of_nat 0 * HALVING_INTERVAL) with 0 in Hloop, Hr.
    change (Z.of_nat 0) with 0 in Hloop.
    exists b, (Py.mul (SFdiv Py.prec Py.emax c f_total) f_100).
    destruct (percent_bound c Gc ltac:(lia)) as [Gp Hpct].
    split; [|split; [exact Hr|split]].
    + unfold blocks_to_percentage.
      rewrite (walk_result walk_fuel p t b c e' T Hloop). reflexivity.
    + rewrite leb_good by (try assumption; reflexivity).
      apply Z.leb_le. apply good_scaled_nonneg. assumption.
    + rewrite leb_good by (try assumption; exact f_100_good).
      apply Z.leb_le. assumption.
Qed.

Lemma blocks_within_schedule_witness :
  exists b pct,
    blocks_to_percentage btc (Py.Int 99) = Ok (b, pct)
    /\ 0 <= b <= total_halvings btc * HALVING_INTERVAL
    /\ Py.leb Py.zero pct = true /\ Py.leb pct f_100 = true.
Proof. apply (blocks_within_schedule (Py.Int 99)). cbn [in_range]. lia. Defined.

Lemma leb_zero_good (t s : Py.float) :
  Py.is_zero t = true -> good s -> Py.leb t s = true.
Proof.
  destruct t as [st|st| |st mt et]; try discriminate. intros _.
  destruct s as [ss|ss| |ss ms es]; cbn [good]; try contradiction.
  - intros _. reflexivity.
  - intros [-> _]. reflexivity.
Qed.

(** X7: the search is an inverse of [supply_at_block]: for a percentage in
    [[0, 100]] the supply at the height returned does not exceed the
    target supply, and the supply one block later reaches it. *)
Theorem search_brackets_target (p : Py.num) :
  in_range p -> brackets_target btc p.
Proof.
  intros Hp. unfold brackets_target.
  destruct (target_in_range_zero p Hp) as (t & T & [Z|[Gt Ht]]).
  - destruct (supply_good 1 ltac:(unfold max_height, HALVING_INTERVAL; lia))
      as (s' & E' & G').
    exists t, 0, (Py.mul (SFdiv Py.prec Py.emax Py.zero f_total) f_100), Py.zero, s'.
    split; [exact T|]. split; [|split; [reflexivity|split; [exact E'|split]]].
    + unfold blocks_to_percentage.
      rewrite (walk_result walk_fuel p t 0 Py.zero 0 T
                 (blocks_loop_done walk_fuel t 0 Py.zero 0 (is_zero_not_entered t Z))).
      reflexivity.
    + destruct t as [s|s| |s m e]; try discriminate Z. destruct s; reflexivity.
    + apply leb_zero_good; assumption.
  - destruct (blocks_loop_strong 33 0 walk_fuel t Py.zero ltac:(lia)
                ltac:(unfold walk_fuel; lia) Gt Ht ltac:(reflexivity)
                (good_scaled_nonneg t Gt))
      as (b & c & e' & Hloop & Hb & Hr & Gc & Hc & s' & E' & G' & Hs').
    change (Z.of_nat 0 * HALVING_INTERVAL) with 0 in Hloop.
    change (Z.of_nat 0) with 0 in Hloop.
    exists t, b, (Py.mul (SFdiv Py.prec Py.emax c f_total) f_100), c, s'.
    split; [exact T|]. split; [|split; [exact Hb|split; [exact E'|split]]].
    + unfold blocks_to_percentage.
      rewrite (walk_result walk_fuel p t b c e' T Hloop). reflexivity.
    + rewrite leb_good by assumption. apply Z.leb_le. assumption.
    + rewrite leb_good by assumption. apply Z.leb_le. assumption.
Qed.

Lemma search_brackets_target_witness : brackets_target btc (Py.Int 50).
Proof. apply (search_brackets_target (Py.Int 50)). cbn [in_range]. lia. Defined.
(** ** [time_to_percentage] *)

Lemma all_dates : forall_from date_check (Z.to_nat 48126) 733410 = true.
Proof. vm_compute. reflexivity. Qed.

Lemma date_facts (days : Z) :
  0 <= days <= 48125 ->
  exists y m d,
    _ord2ymd (733410 + days) = (y, m, d)
    /\ 2009 <= y <= 2140 /\ 1 <= m <= 12 /\ 1 <= d <= _days_in_month y m
    /\ _ymd2ord y m d = 733410 + days.
Proof.
  intros H.
  pose proof (forall_from_sound date_check (Z.to_nat 48126) 733410 all_dates
                (Z.to_nat days) ltac:(lia)) as C.
  rewrite Z2Nat.id in C by lia. unfold date_check in C.
  destruct (_ord2ymd (733410 + days)) as [[y m] d].
  repeat (apply andb_prop in C; destruct C as [C ?]).
  exists y, m, d. split; [reflexivity|]. lia.
Qed.

Lemma timedelta_of_blocks (b : Z) :
  0 <= b <= 33 * HALVING_INTERVAL ->
  timedelta_of_seconds (b * TARGET_BLOCK_TIME)
  = Ok {| td_days := b / 144; td_seconds := (b * TARGET_BLOCK_TIME) mod 86400 |}
  /\ 0 <= b / 144 <= 48125.
Proof.
  intros Hb. unfold HALVING_INTERVAL in Hb.
  assert (E : b * TARGET_BLOCK_TIME / 86400 = b / 144).
  { change TARGET_BLOCK_TIME with 600. change 86400 with (144 * 600).
    apply Z.div_mul_cancel_r; lia. }
  assert (Hd : 0 <= b / 144 <= 48125).
  { split; [apply Z.div_pos; lia|]. apply Z.div_le_upper_bound; lia. }
  split; [|exact Hd].
  unfold timedelta_of_seconds, new_timedelta. rewrite Z.add_0_l, E.
  destruct (Z.ltb_spec 999999999 (Z.abs (b / 144))); [lia|reflexivity].
Qed.

Lemma genesis_plus (days secs : Z) :
  0 <= days <= 48125 -> 0 <= secs < 86400 ->
  exists y m d hh mm ss,
    datetime_add GENESIS_DATE {| td_days := days; td_seconds := secs |}
    = Ok {| dt_year := y; dt_month := m; dt_day := d;
            dt_hour := hh; dt_minute := mm; dt_second := ss |}
    /\ 2009 <= y <= 2140 /\ 1 <= m <= 12 /\ 1 <= d <= _days_in_month y m
    /\ _ymd2ord y m d = _ymd2ord 2009 1 3 + days.
Proof.
  intros Hd Hs.
  destruct (date_facts days Hd) as (y & m & d & E & Hy & Hm & Hdd & Ho).
  unfold datetime_add, GENESIS_DATE.
  cbn [dt_year dt_month dt_day dt_hour dt_minute dt_second].
  change (_ymd2ord 2009 1 3) with 733410.
  change (new_timedelta 733410 (0 * 3600 + 0 * 60 + 0))
    with (Ok {| td_days := 733410; td_seconds := 0 |} : outcome timedelta).
  cbn [bind td_days td_seconds]. unfold new_timedelta.
  rewrite Z.add_0_l.
  rewrite (Z.div_small secs 86400) by lia. rewrite (Z.mod_small secs 86400) by lia.
  rewrite Z.add_0_r.
  destruct (Z.ltb_spec 999999999 (Z.abs (733410 + days))); [lia|].
  cbn [bind td_days td_seconds].
  destruct (Z.ltb_spec 0 (733410 + days)); [|lia].
  unfold _MAXORDINAL.
  destruct (Z.leb_spec (733410 + days) 3652059); [|lia].
  cbn [andb]. rewrite E.
  eexists y, m, d, _, _, _. split; [reflexivity|]. auto.
Qed.

(** The record [time_to_percentage] returns, from the result of the
    search. *)
Lemma time_to_percentage_eq (p : Py.num) (b : Z) (pct s : Py.float) :
  blocks_to_percentage btc p = Ok (b, pct) ->
  0 <= b <= 33 * HALVING_INTERVAL ->
  supply_at_block b = Ok s ->
  exists r,
    time_to_percentage btc p = Ok r
    /\ tp_target_percentage r = p /\ tp_exact_percentage r = pct
    /\ tp_blocks r = b /\ tp_seconds r = b * TARGET_BLOCK_TIME
    /\ tp_days r = b / 144
    /\ Py.truediv (Py.Int (b / 144)) (Py.Flt f_365_25) = Ok (tp_years r)
    /\ date_after_genesis (tp_target_date r) (b / 144)
    /\ tp_supply_btc r = s.
Proof.
  intros Hb Hr Hs.
  destruct (timedelta_of_blocks b Hr) as [Etd Hd].
  assert (Hsec : 0 <= (b * TARGET_BLOCK_TIME) mod 86400 < 86400)
    by (apply Z.mod_pos_bound; lia).
  destruct (genesis_plus (b / 144) _ Hd Hsec)
    as (y & m & d & hh & mm & ss & Eadd & Hy & Hm & Hdd & Ho).
  assert (Ey : exists yrs, Py.truediv (Py.Int (b / 144)) (Py.Flt f_365_25) = Ok yrs).
  { unfold Py.truediv. cbn [Py.to_float].
    rewrite float_of_int_spec.
    - cbn [bind]. eexists. reflexivity.
    - split; [lia|]. unfold two_926.
      assert (2 ^ 17 <= 2 ^ 926) by (apply Z.pow_le_mono_r; lia).
      change (2 ^ 17) with 131072 in *. lia. }
  destruct Ey as (yrs & Ey).
  unfold time_to_percentage. rewrite Hb. cbn [bind]. rewrite Etd. cbn [bind].
  rewrite Eadd. cbn [bind td_days]. rewrite Ey. cbn [bind]. rewrite Hs. cbn [bind].
  eexists. split; [reflexivity|].
  cbn [tp_target_percentage tp_exact_percentage tp_blocks tp_seconds tp_days
       tp_years tp_target_date tp_supply_btc].
  repeat (split; [reflexivity|]). split; [|reflexivity].
  exists y, m, d. split; [reflexivity|]. auto.
Qed.

Lemma search_summary (p : Py.num) :
  in_range p ->
  exists b pct s,
    blocks_to_percentage btc p = Ok (b, pct)
    /\ 0 <= b <= 33 * HALVING_INTERVAL
    /\ supply_at_block b = Ok s
    /\ percent_of_total btc s = Ok pct.
Proof.
  intros Hp.
  destruct (target_in_range_zero p Hp) as (t & T & [Z|[Gt Ht]]).
  - exists 0, (Py.mul (SFdiv Py.prec Py.emax Py.zero f_total) f_100), Py.zero.
    split; [|split; [unfold HALVING_INTERVAL; lia|split]].
    + unfold blocks_to_percentage.
      rewrite (walk_result walk_fuel p t 0 Py.zero 0 T
                 (blocks_loop_done walk_fuel t 0 Py.zero 0 (is_zero_not_entered t Z))).
      reflexivity.
    + reflexivity.
    + apply percent_of_total_eq.
  - destruct (blocks_loop_strong 33 0 walk_fuel t Py.zero ltac:(lia)
                ltac:(unfold walk_fuel; lia) Gt Ht ltac:(reflexivity)
                (good_scaled_nonneg t Gt))
      as (b & c & e' & Hloop & Hb & Hr & _).
    change (Z.of_nat 0 * HALVING_INTERVAL) with 0 in Hloop, Hr.
    change (Z.of_nat 0) with 0 in Hloop.
    exists b, (Py.mul (SFdiv Py.prec Py.emax c f_total) f_100), c.
    split; [|split; [exact Hr|split; [exact Hb|apply percent_of_total_eq]]].
    unfold blocks_to_percentage.
    rewrite (walk_result walk_fuel p t b c e' T Hloop). reflexivity.
Qed.

(** X8: for a percentage in [[0, 100]], [time_to_percentage] returns; the
    height is within the schedule, the seconds are 600 per block, the days
    are the whole days of that duration (144 blocks a day), the years are
    [days / 365.25], and the date printed is the calendar date that many
    days after 3 January 2009, in the years 2009 to 2140. *)
Theorem time_to_percentage_calendar (p : Py.num) :
  in_range p ->
  exists r,
    time_to_percentage btc p = Ok r
    /\ 0 <= tp_blocks r <= total_halvings btc * HALVING_INTERVAL
    /\ tp_seconds r = tp_blocks r * TARGET_BLOCK_TIME
    /\ tp_days r = tp_blocks r / 144
    /\ Py.truediv (Py.Int (tp_days r)) (Py.Flt f_365_25) = Ok (tp_years r)
    /\ date_after_genesis (tp_target_date r) (tp_days r).
Proof.
  intros Hp. cbn [total_halvings btc].
  destruct (search_summary p Hp) as (b & pct & s & Hb & Hr & Hs & _).
  destruct (time_to_percentage_eq p b pct s Hb Hr Hs)
    as (r & E & _ & _ & Eb & Es & Ed & Ey & Edate & _).
  exists r. rewrite Eb, Es, Ed. auto 10.
Qed.

Lemma time_to_percentage_calendar_witness :
  exists r,
    time_to_percentage btc (Py.Int 90) = Ok r
    /\ 0 <= tp_blocks r <= total_halvings btc * HALVING_INTERVAL
    /\ tp_seconds r = tp_blocks r * TARGET_BLOCK_TIME
    /\ tp_days r = tp_blocks r / 144
    /\ Py.truediv (Py.Int (tp_days r)) (Py.Flt f_365_25) = Ok (tp_years r)
    /\ date_after_genesis (tp_target_date r) (tp_days r).
Proof. apply (time_to_percentage_calendar (Py.Int 90)). cbn [in_range]. lia. Defined.

(** X9: for a percentage in [[0, 100]], the record of
    [time_to_percentage] carries the result of [blocks_to_percentage], and
    its ['supply_btc'] is the supply its ['exact_percentage'] is the
    percentage of. *)
Theorem time_to_percentage_supply (p : Py.num) :
  in_range p ->
  exists r,
    time_to_percentage btc p = Ok r
    /\ tp_target_percentage r = p
    /\ blocks_to_percentage btc p = Ok (tp_blocks r, tp_exact_percentage r)
    /\ supply_at_block (tp_blocks r) = Ok (tp_supply_btc r)
    /\ percent_of_total btc (tp_supply_btc r) = Ok (tp_exact_percentage r).
Proof.
  intros Hp.
  destruct (search_summary p Hp) as (b & pct & s & Hb & Hr & Hs & Hpct).
  destruct (time_to_percentage_eq p b pct s Hb Hr Hs)
    as (r & E & Ep & Epct & Eb & _ & _ & _ & _ & Esup).
  exists r. rewrite Ep, Epct, Eb, Esup. auto.
Qed.

Lemma time_to_percentage_supply_witness :
  exists r,
    time_to_percentage btc (Py.Int 75) = Ok r
    /\ tp_target_percentage r = Py.Int 75
    /\ blocks_to_percentage btc (Py.Int 75) = Ok (tp_blocks r, tp_exact_percentage r)
    /\ supply_at_block (tp_blocks r) = Ok (tp_supply_btc r)
    /\ percent_of_total btc (tp_supply_btc r) = Ok (tp_exact_percentage r).
Proof. apply (time_to_percentage_supply (Py.Int 75)). cbn [in_range]. lia. Defined.
(** ** [halving_schedule] *)

Lemma blocks_per_year_ok : exists k, blocks_per_year = Ok k.
Proof. eexists. vm_compute. reflexivity. Qed.

(** The inflation rate of a schedule entry is the one
    [inflation_rate_at_epoch] returns. *)
Lemma schedule_rate (e : Z) (cs rew ir : Py.float) :
  good cs ->
  supply_at_block (e * HALVING_INTERVAL) = Ok cs -> reward_at e = Ok rew ->
  (if Py.ltb Py.zero cs then
     annual_issuance <- annual_issuance_of rew ;;
     r <- Py.div annual_issuance cs ;;
     Py.fmuli r 100
   else Ok Py.inf) = Ok ir ->
  inflation_rate_at_epoch e false = Ok ir.
Proof.
  intros G Es Er H. unfold inflation_rate_at_epoch. rewrite Es. cbn [bind].
  rewrite Er. cbn [bind]. unfold annual_issuance_of in H.
  destruct blocks_per_year_ok as (k & Ek). rewrite Ek in *. cbn [bind] in *.
  destruct cs as [s|s| |s m x]; cbn [good] in G; try contradiction.
  - subst s. exact H.
  - destruct G as [-> _]. exact H.
Qed.

Lemma schedule_from_spec (n : nat) :
  forall e l, schedule_from btc n e = Ok l ->
  length l = n
  /\ forall k ev, nth_error l k = Some ev ->
     halving_event btc (e + Z.of_nat k) = Ok ev.
Proof.
  induction n as [|n IH]; intros e l H; cbn [schedule_from] in H.
  - injection H as <-. split; [reflexivity|].
    intros k ev Hk. destruct k; discriminate Hk.
  - destruct (halving_event btc e) as [ev0| |] eqn:E0; cbn [bind] in H;
      try discriminate H.
    destruct (schedule_from btc n (e + 1)) as [rest| |] eqn:E1; cbn [bind] in H;
      try discriminate H.
    injection H as <-. destruct (IH _ _ E1) as [Hl Hn].
    split; [cbn [length]; f_equal; exact Hl|].
    intros k ev Hk. destruct k as [|k]; cbn [nth_error] in Hk.
    + injection Hk as <-. rewrite Z.add_0_r. exact E0.
    + replace (e + Z.of_nat (S k)) with (e + 1 + Z.of_nat k) by lia.
      apply Hn. exact Hk.
Qed.

Lemma bind_Ok {A B : Type} (c : outcome A) (k : A -> outcome B) (b : B) :
  bind c k = Ok b -> exists a, c = Ok a /\ k a = Ok b.
Proof.
  destruct c as [a| |]; cbn [bind]; intros H; try discriminate H.
  exists a. auto.
Qed.

Ltac bind_inv H x E :=
  apply bind_Ok in H; destruct H as (x & E & H); cbv beta in H.

Lemma halving_event_agrees (e : Z) (ev : HalvingEvent) :
  0 <= e <= 33 -> halving_event btc e = Ok ev -> event_agrees btc e ev.
Proof.
  intros He H. unfold halving_event in H.
  assert (Hh : 0 <= e * HALVING_INTERVAL <= 33 * HALVING_INTERVAL)
    by (unfold HALVING_INTERVAL; lia).
  bind_inv H rew Erew. bind_inv H cs Ecs. bind_inv H ir Eir.
  bind_inv H delta Etd. bind_inv H date Eadd. bind_inv H spy Espy.
  bind_inv H yfg Eyfg. bind_inv H yr Eyr. bind_inv H rs Ers.
  bind_inv H iss Eiss. bind_inv H issr Eissr. bind_inv H csr Ecsr.
  bind_inv H pct Epct. bind_inv H pctr Epctr. bind_inv H rate Erate.
  injection H as <-.
  destruct (supply_good (e * HALVING_INTERVAL)) as (cs' & Ecs' & Gcs).
  { unfold max_height, HALVING_INTERVAL. lia. }
  assert (cs' = cs) by congruence. subst cs'. clear Ecs'.
  destruct (timedelta_of_blocks _ Hh) as [Etd' Hd].
  assert (Hsec : 0 <= (e * HALVING_INTERVAL * TARGET_BLOCK_TIME) mod 86400 < 86400)
    by (apply Z.mod_pos_bound; lia).
  destruct (genesis_plus _ _ Hd Hsec)
    as (y & m & d & hh & mm & ss & Eadd' & Hy & Hm & Hdd & Ho).
  rewrite Etd' in Etd. injection Etd as <-. rewrite Eadd' in Eadd.
  injection Eadd as <-.
  unfold event_agrees.
  cbn [hs_halving hs_year hs_date hs_block_height hs_reward_btc hs_reward_satoshis
       hs_cumulative_supply_btc hs_supply_percentage hs_inflation_rate_percent
       dt_year strftime_Ymd dt_month dt_day].
  split; [reflexivity|]. split; [reflexivity|]. split; [exact Erew|].
  split; [unfold reward_satoshis_at; rewrite Erew; exact Ers|].
  split; [exists cs, pct; auto|]. split.
  - exists ir. split; [apply (schedule_rate e cs rew); assumption|].
    destruct (Py.eqb ir Py.inf); cbn [negb] in Erate.
    + injection Erate as <-. reflexivity.
    + bind_inv Erate x Ex. injection Erate as <-. exists x. auto.
  - exists m, d. split; [reflexivity|]. auto.
Qed.

Lemma halving_schedule_returns : exists l, halving_schedule btc = Ok l.
Proof. eexists. vm_compute. reflexivity. Qed.

(** X10: [halving_schedule] returns one event per epoch from 0 to
    [total_halvings], in order, and each event agrees with the queries of
    the engine (see [event_agrees]). *)
Theorem halving_schedule_agrees :
  exists l,
    halving_schedule btc = Ok l
    /\ length l = Z.to_nat (total_halvings btc + 1)
    /\ forall k ev, nth_error l k = Some ev -> event_agrees btc (Z.of_nat k) ev.
Proof.
  destruct halving_schedule_returns as (l & E). exists l. split; [exact E|].
  unfold halving_schedule in E.
  destruct (schedule_from_spec _ _ _ E) as [Hl Hn]. split; [exact Hl|].
  intros k ev Hk.
  assert (Hk' : (k < length l)%nat) by (apply nth_error_Some; congruence).
  rewrite Hl in Hk'. cbn [total_halvings btc] in Hk'.
  apply halving_event_agrees; [lia|].
  specialize (Hn k ev Hk). rewrite Z.add_0_l in Hn. exact Hn.
Qed.

(** ** [inflation_rate_at_epoch] at a negative epoch *)

Lemma all_negative_epochs : forall_from negative_epoch_check 1074 (-1074) = true.
Proof. vm_compute. reflexivity. Qed.

(** [2 ** e] underflows to [0.0] below [e = -1074]. *)
Lemma pow2_underflow (e : Z) : e < -1074 -> Py.pow2 e = Py.Flt (S754_zero false).
Proof.
  intros He. unfold Py.pow2. destruct (Z.leb_spec 0 e); [lia|]. f_equal.
  unfold Py.of_scaled, binary_normalize, binary_round.
  change (Zpos (digits2_pos 1)) with 1.
  change (fexp Py.prec Py.emax) with fexp64. rewrite fexp64_eq.
  replace (Z.max (1 + e - 53) (-1074)) with (-1074) by lia.
  unfold shl_align.
  destruct (-1074 - e) as [|p|p] eqn:Ed; try lia.
  rewrite aux_exact by lia.
  change (Zdigits2 1) with 1. rewrite fexp64_eq.
  replace (Z.max (1 + e - 53) (-1074)) with (-1074) by lia.
  replace (Z.max (-1074 - e) 0) with (Z.pos p) by lia.
  assert (R : rne 1 (2 ^ Z.pos p) = 0).
  { assert (P : 2 <= 2 ^ Z.pos p).
    { change 2 with (2 ^ 1) at 1. apply Z.pow_le_mono_r; lia. }
    rewrite rne_eq by lia.
    rewrite Z.div_small by lia. rewrite Z.mod_small by lia.
    destruct (Z.ltb_spec (2 ^ Z.pos p) (2 * 1)); [lia|].
    cbn [Z.odd andb orb]. rewrite andb_false_r. reflexivity. }
  rewrite R. reflexivity.
Qed.

(** X11: a negative epoch is not rejected.  With either denominator the
    existing supply is zero; for [-1074 <= e <= -1] the call returns
    [inf], and below, where [2 ** e] underflows to [0.0], the reward
    [INITIAL_REWARD / (2 ** e)] raises [ZeroDivisionError].  (The bound
    [-2^1023] keeps the exponent [e] convertible to a float.) *)
Theorem inflation_negative_epoch (e : Z) (use_end_supply : bool) :
  - 2 ^ 1023 <= e < 0 ->
  inflation_rate_at_epoch e use_end_supply
  = if e <? -1074 then Raise ZeroDivisionError else Ok Py.inf.
Proof.
  intros [_ He]. rewrite inflation_unfold. pose proof HI_pos as HP.
  rewrite supply_at_block_nonpos
    by (unfold denominator_height; destruct use_end_supply; nia).
  cbn [bind].
  destruct (Z.ltb_spec e (-1074)) as [Hlow|Hhigh].
  - unfold rate_of_supply, reward_at.
    rewrite pow2_underflow by assumption. reflexivity.
  - pose proof (forall_from_sound negative_epoch_check 1074 (-1074)
                  all_negative_epochs (Z.to_nat (e + 1074)) ltac:(lia)) as C.
    replace (-1074 + Z.of_nat (Z.to_nat (e + 1074))) with e in C by lia.
    unfold negative_epoch_check in C.
    destruct (rate_of_supply Py.zero e) as [[ | [|] | | ]| |];
      try discriminate C.
    reflexivity.
Qed.

Lemma inflation_negative_epoch_witness :
  inflation_rate_at_epoch (-1) false
  = if -1 <? -1074 then Raise ZeroDivisionError else Ok Py.inf.
Proof.
  apply (inflation_negative_epoch (-1) false).
  split; [vm_compute; discriminate|lia].
Defined.
